(** * YOLO-Detector-Pro: session bookkeeping and background runners

    A shallow embedding of
      - [src/core/detection_manager.py]  (class [DetectionManager]),
      - [src/utils/helper.py]            ([get_image_files]),
      - [src/core/yolo_worker.py]        (class [YOLOWorker]),
      - [src/core/comparison_worker.py]  (class [ComparisonWorker]),
    followed by the properties of the specification that concern them.

    Python [float] is IEEE binary64 and is modelled by Rocq's primitive
    [float]; Python [int] counters that only ever grow from 0 are [nat];
    [dict] and [set] keyed by strings are stdpp's [gmap] and [gset]. *)

From Stdlib Require Import ZArith QArith Qabs Floats Ascii String List.
From Stdlib Require Import Sorting.Sorted Sorting.Permutation Sorting.Mergesort.
From Stdlib Require Import Structures.Orders Structures.OrderedTypeEx.
From stdpp Require Import base option list gmap strings pretty.

#[local] Set Warnings "-inexact-float,-clear-no-such-hyp".
#[local] Open Scope string_scope.
#[local] Open Scope nat_scope.
#[local] Open Scope list_scope.

(** ** Shared value types *)

(** [datetime.datetime]: the fields [strftime] reads. *)
Record datetime := mk_datetime {
  dt_year : nat; dt_month : nat; dt_day : nat;
  dt_hour : nat; dt_minute : nat; dt_second : nat;
  dt_microsecond : nat
}.

(** A decimal field of fixed width, zero padded ([%Y] is 4 wide, [%m %d %H
    %M %S] are 2 wide; the fields of a [datetime] never need more). *)
Fixpoint pad_dec (width n : nat) : string :=
  match width with
  | O => ""
  | S w => (pad_dec w (n / 10) ++ String (ascii_of_nat (48 + n mod 10)) "")%string
  end.

(** [dt.strftime("%Y%m%d_%H%M%S")] *)
Definition strftime_id (dt : datetime) : string :=
  (pad_dec 4 (dt_year dt) ++ pad_dec 2 (dt_month dt) ++ pad_dec 2 (dt_day dt)
   ++ "_" ++ pad_dec 2 (dt_hour dt) ++ pad_dec 2 (dt_minute dt)
   ++ pad_dec 2 (dt_second dt))%string.

(** The detection dict built by [_extract_detections]:
    [{'bbox', 'confidence', 'class_id', 'class_name'}]. *)
Record detection := mk_detection {
  bbox : float * float * float * float;
  confidence : float;
  class_id : Z;
  class_name : string
}.

(** ** Binary64 helpers *)

(** Conversion of a Python [int] to [float] (round to nearest even), as
    done implicitly by [float / int] and [int / float]. *)
Definition float_of_Z (z : Z) : float :=
  SF2Prim (binary_normalize prec emax z 0 false).

Definition float_of_nat (n : nat) : float := float_of_Z (Z.of_nat n).

(** The exact rational value of a finite binary64 number. *)
Definition float_to_Q (x : float) : option Q :=
  match Prim2SF x with
  | S754_zero _ => Some 0%Q
  | S754_finite s m e =>
      let mag := match e with
                 | Z0 => inject_Z (Z.pos m)
                 | Zpos p => inject_Z (Z.pos m * 2 ^ Z.pos p)
                 | Zneg p => Qmake (Z.pos m) (2 ^ p)
                 end in
      Some (if s then Qopp mag else mag)
  | _ => None
  end.

(** [abs(x - target) <= tol], decided on exact rationals. *)
Definition within (x : float) (target tol : Q) : bool :=
  match float_to_Q x with
  | Some q => Qle_bool (Qabs (q - target)) tol
  | None => false
  end.

(** Left-to-right accumulation [acc += x], starting from [0]. *)
Definition fsum (l : list float) : float :=
  fold_left (fun acc x => (acc + x)%float) l 0%float.

(** ** [DetectionManager] ([src/core/detection_manager.py]) *)

Module DM.

(** [stats['unique_classes']] is a [set] while the session is written and
    is replaced by a [list] when the session is ended. *)
Inductive classes :=
| ClassSet (s : gset string)
| ClassList (l : list string).

Record stats_t := mk_stats {
  total_frames : nat;
  total_detections : nat;
  unique_classes : classes;
  avg_confidence : float;
  class_counts : gmap string nat
}.

(** One element of [session['detections']]. *)
Record det_frame := mk_det_frame {
  frame_id : string;
  timestamp : datetime;
  f_detections : list detection
}.

(** The session dict; the key ['end_time'] is absent until [end_session]. *)
Record session := mk_session {
  session_id : string;
  mode : string;
  model : string;
  start_time : datetime;
  end_time : option datetime;
  s_detections : list det_frame;
  stats : stats_t
}.

Record DetectionManager := mk_manager {
  detection_history : list session;
  current_session : option session
}.

(** Exceptions a method of the class can raise on the states modelled. *)
Inductive exn := AttributeError.

Inductive result (A : Type) :=
| Returned (a : A)
| Raised (e : exn).
Arguments Returned {A} a.
Arguments Raised {A} e.

(** A method call: the outcome together with the manager afterwards (what
    was mutated before an exception stays mutated). *)
Definition method (A : Type) := DetectionManager -> result A * DetectionManager.

(** [__init__] *)
Definition init : DetectionManager :=
  {| detection_history := []; current_session := None |}.

Definition fresh_stats : stats_t :=
  {| total_frames := 0; total_detections := 0; unique_classes := ClassSet ∅;
     avg_confidence := 0%float; class_counts := ∅ |}.

(** [start_session(mode, model_name)]; [now_id] and [now_start] are the
    values of the two [datetime.now()] calls. *)
Definition start_session (now_id now_start : datetime) (mode_ model_name : string)
  : method unit := fun self =>
  (Returned tt,
   {| detection_history := detection_history self;
      current_session := Some
        {| session_id := strftime_id now_id;
           mode := mode_;
           model := model_name;
           start_time := now_start;
           end_time := None;
           s_detections := [];
           stats := fresh_stats |} |}).

(** One pass of the body of [for det in detections]. *)
Definition count_class (st : stats_t) (det : detection) : result stats_t :=
  match unique_classes st with
  | ClassSet s =>
      Returned
        {| total_frames := total_frames st;
           total_detections := total_detections st;
           unique_classes := ClassSet ({[ class_name det ]} ∪ s);
           avg_confidence := avg_confidence st;
           class_counts :=
             <[ class_name det := default 0 (class_counts st !! class_name det) + 1 ]>
               (class_counts st) |}
  | ClassList _ => Raised AttributeError   (* a list has no [add] *)
  end.

Fixpoint count_classes (dets : list detection) (st : stats_t) : result unit * stats_t :=
  match dets with
  | [] => (Returned tt, st)
  | det :: rest =>
      match count_class st det with
      | Returned st' => count_classes rest st'
      | Raised e => (Raised e, st)
      end
  end.

Definition with_stats (cs : session) (st : stats_t) : session :=
  {| session_id := session_id cs; mode := mode cs; model := model cs;
     start_time := start_time cs; end_time := end_time cs;
     s_detections := s_detections cs; stats := st |}.

(** [add_detection(frame_id, detections)]; [now] is [datetime.now()]. *)
Definition add_detection (now : datetime) (fid : string) (dets : list detection)
  : method unit := fun self =>
  match current_session self with
  | None => (Returned tt, self)
  | Some cs =>
      let cs1 :=
        {| session_id := session_id cs; mode := mode cs; model := model cs;
           start_time := start_time cs; end_time := end_time cs;
           s_detections := s_detections cs ++
             [ {| frame_id := fid; timestamp := now; f_detections := dets |} ];
           stats := stats cs |} in
      let st := stats cs1 in
      let st1 :=
        {| total_frames := total_frames st + 1;
           total_detections := total_detections st + length dets;
           unique_classes := unique_classes st;
           avg_confidence := avg_confidence st;
           class_counts := class_counts st |} in
      let '(r, st2) := count_classes dets st1 in
      (r, {| detection_history := detection_history self;
             current_session := Some (with_stats cs1 st2) |})
  end.

(** The two nested loops of [end_session]: [(total_conf, total_count)]. *)
Definition sum_frame (acc : float * nat) (fr : det_frame) : float * nat :=
  fold_left (fun a det => ((fst a + confidence det)%float, snd a + 1))
            (f_detections fr) acc.

Definition conf_totals (frames : list det_frame) : float * nat :=
  fold_left sum_frame frames (0%float, 0).

(** [list(stats['unique_classes'])]; the iteration order of a Python set is
    unspecified, [elements] fixes one. *)
Definition list_of_classes (c : classes) : list string :=
  match c with
  | ClassSet s => elements s
  | ClassList l => l
  end.

(** [end_session()]; [now] is [datetime.now()]. *)
Definition end_session (now : datetime) : method unit := fun self =>
  match current_session self with
  | None => (Returned tt, self)
  | Some cs =>
      let st := stats cs in
      let '(total_conf, total_count) := conf_totals (s_detections cs) in
      let st' :=
        {| total_frames := total_frames st;
           total_detections := total_detections st;
           unique_classes := ClassList (list_of_classes (unique_classes st));
           avg_confidence :=
             if 0 <? total_count
             then (total_conf / float_of_nat total_count)%float
             else avg_confidence st;
           class_counts := class_counts st |} in
      let cs' :=
        {| session_id := session_id cs; mode := mode cs; model := model cs;
           start_time := start_time cs; end_time := Some now;
           s_detections := s_detections cs; stats := st' |} in
      (Returned tt,
       {| detection_history := detection_history self ++ [cs'];
          current_session := None |})
  end.

(** [get_session_stats()] *)
Definition get_session_stats (self : DetectionManager) : option stats_t :=
  stats <$> current_session self.

(** [get_all_sessions()] *)
Definition get_all_sessions (self : DetectionManager) : list session :=
  detection_history self.

(** [clear_history()] *)
Definition clear_history : method unit := fun _ =>
  (Returned tt, {| detection_history := []; current_session := None |}).

(** *** Call sequences *)

Inductive call :=
| StartSession (now_id now_start : datetime) (mode_ model_name : string)
| AddDetection (now : datetime) (fid : string) (dets : list detection)
| EndSession (now : datetime)
| ClearHistory.

Definition run_call (c : call) : method unit :=
  match c with
  | StartSession n1 n2 mo md => start_session n1 n2 mo md
  | AddDetection n fid dets => add_detection n fid dets
  | EndSession n => end_session n
  | ClearHistory => clear_history
  end.

(** The manager after a sequence of calls on a new manager. *)
Definition after (cs : list call) : DetectionManager :=
  fold_left (fun m c => snd (run_call c m)) cs init.

Inductive reachable : DetectionManager -> Prop :=
| reach_init : reachable init
| reach_call m c : reachable m -> reachable (snd (run_call c m)).

(** *** What the recorded frames determine *)

Definition all_detections (cs : session) : list detection :=
  concat (map f_detections (s_detections cs)).

Definition class_names (dets : list detection) : list string :=
  map class_name dets.

Definition occurrences (name : string) (dets : list detection) : nat :=
  length (filter (fun d => class_name d = name) dets).

(** The mean confidence, [0] when there is none. *)
Definition mean_confidence (dets : list detection) : float :=
  match dets with
  | [] => 0%float
  | _ => (fsum (map confidence dets) / float_of_nat (length dets))%float
  end.

End DM.

(** ** [get_image_files] ([src/utils/helper.py]) *)

Module Helper.

(** A directory as [os.walk] sees it: the names of its files and its
    sub-directories, in the order the operating system lists them. *)
#[local] Unset Elimination Schemes.
Inductive dir_tree :=
| Dir (files : list string) (subdirs : list (string * dir_tree)).
#[local] Set Elimination Schemes.

Definition ends_with (suffix s : string) : bool :=
  let n := String.length s in
  let k := String.length suffix in
  (k <=? n) && String.eqb (substring (n - k) k s) suffix.

Definition starts_with (pre s : string) : bool := String.prefix pre s.

(** [os.path.join(a, b)] for two components ([posixpath]). *)
Definition path_join (a b : string) : string :=
  if starts_with "/" b then b
  else if String.eqb a "" || ends_with "/" a then (a ++ b)%string
  else (a ++ "/" ++ b)%string.

Definition lower_ascii (c : ascii) : ascii :=
  let n := nat_of_ascii c in
  if (65 <=? n) && (n <=? 90) then ascii_of_nat (n + 32) else c.

(** [str.lower()]; file names are taken to be ASCII, where it only maps
    [A-Z] to [a-z]. *)
Fixpoint lower (s : string) : string :=
  match s with
  | EmptyString => EmptyString
  | String c r => String (lower_ascii c) (lower r)
  end.

Definition supported_formats : list string :=
  [".jpg"; ".jpeg"; ".png"; ".bmp"; ".tiff"; ".webp"].

(** [any(file.lower().endswith(fmt) for fmt in supported_formats)] *)
Definition is_image (file : string) : bool :=
  existsb (fun fmt => ends_with fmt (lower file)) supported_formats.

(** [os.walk(directory)], top-down: the pairs [(root, files)]. *)
Fixpoint walk (root : string) (t : dir_tree) : list (string * list string) :=
  match t with
  | Dir files subdirs =>
      (root, files) ::
      flat_map (fun p => walk (path_join root (fst p)) (snd p)) subdirs
  end.

(** The list [image_files] before it is sorted. *)
Definition collect (root : string) (t : dir_tree) : list string :=
  flat_map (fun rf => map (path_join (fst rf)) (filter (fun f => is_image f = true) (snd rf)))
           (walk root t).

(** Python compares [str] by code point, left to right. *)
Module StringOrder <: Orders.TotalLeBool.
Definition t := string.
Definition leb := String.leb.
Lemma leb_total (x y : t) : leb x y = true \/ leb y x = true.
Proof. apply String.leb_total. Qed.
End StringOrder.

Module StringSort := Mergesort.Sort StringOrder.

(** [sorted(image_files)] *)
Definition sorted (l : list string) : list string := StringSort.sort l.

Definition get_image_files (directory : string) (t : dir_tree) : list string :=
  sorted (collect directory t).

End Helper.

(** ** What the workers share with their collaborators *)

Module Runtime.

(** An image as OpenCV hands it over ([frame.shape[:2]] is [(h, w)]). *)
Record frame := mk_frame {
  height : nat;
  width : nat;
  pixels : list Z
}.

(** One row of [result.boxes]. *)
Record box := mk_box {
  xyxy : float * float * float * float;
  conf : float;
  cls : Z
}.

(** The part of an ultralytics result that [_extract_detections] reads. *)
Record yolo_result := mk_result {
  boxes : option (list box);
  names : gmap Z string
}.

(** Exceptions raised inside a run; [str] is Python's [str(e)]. *)
Inductive exn :=
| EngineError (msg : string)
| KeyError (key : Z)
| ZeroDivisionError
| Error (msg : string).

Definition str (e : exn) : string :=
  match e with
  | EngineError msg => msg
  | KeyError key => pretty key
  | ZeroDivisionError => "float division by zero"
  | Error msg => msg
  end.

(** Everything a run observes from outside its own thread.
    - [running_at n]: the value of [self.running] found by the [n]-th test
      the run makes of it (the foreground's [stop()] clears the flag);
    - [time_at n]: the value of the [n]-th [time.time()] call of the run;
    - [predict_ms n]: how long the [n]-th inference call took, in ms (the
      single-model worker never measures it);
    - [imread], [predict], [predict_b], [draw_detections]: OpenCV, the
      loaded model(s) and [utils.helper.draw_detections]. A raise of the
      model, also the one of a model that was never loaded, is [inl]. *)
Record env := mk_env {
  running_at : nat -> bool;
  time_at : nat -> float;
  predict_ms : nat -> float;
  imread : string -> option frame;
  predict : frame -> float -> float -> exn + yolo_result;
  predict_b : frame -> float -> float -> exn + yolo_result;
  draw_detections : frame -> list detection -> Z -> frame
}.

(** A video file behind [cv2.VideoCapture]. *)
Record video := mk_video {
  is_opened : bool;
  prop_fps : float;
  frames : list frame
}.

(** The settings of a worker ([set_parameters]). *)
Record params := mk_params {
  conf_threshold : float;
  iou_threshold : float;
  line_width : Z;
  inference_delay : Z
}.

(** [_extract_detections(result)], the same in both workers. *)
Fixpoint extract_boxes (nm : gmap Z string) (bs : list box) : exn + list detection :=
  match bs with
  | [] => inr []
  | b :: rest =>
      match nm !! cls b with
      | None => inl (KeyError (cls b))
      | Some name =>
          match extract_boxes nm rest with
          | inl e => inl e
          | inr ds =>
              inr ({| bbox := xyxy b; confidence := conf b;
                      class_id := cls b; class_name := name |} :: ds)
          end
      end
  end.

Definition _extract_detections (result : yolo_result) : exn + list detection :=
  match boxes result with
  | None => inr []
  | Some bs => extract_boxes (names result) bs
  end.

(** One inference call followed by the extraction of its detections. *)
Definition infer (predict_ : frame -> float -> float -> exn + yolo_result)
    (p : params) (f : frame) : exn + list detection :=
  match predict_ f (conf_threshold p) (iou_threshold p) with
  | inl e => inl e
  | inr res => _extract_detections res
  end.

End Runtime.

(** ** [YOLOWorker] ([src/core/yolo_worker.py]) *)

Module YOLOWorker.
Import Runtime.

(** What a run does that can be seen from outside: the signals it emits
    and the calls it makes on its collaborators, in order. *)
Inductive event :=
| frame_processed (f : frame) (dets : list detection)
| fps_updated (fps : float)
| stats_updated (classes targets : nat)
| error_occurred (msg : string)
| progress_updated (current total : nat)
| batch_item_processed (filepath : string) (f : frame) (dets : list detection)
| running_tested (b : bool)
| cap_read (ret : option frame)
| model_predict (f : frame)
| writer_opened (fps : float) (w h : nat)
| writer_write (f : frame)
| writer_release
| cap_release
| cv2_imread (filepath : string)
| sleep (ms : Z).

(** [_update_stats(detections)]: [{'classes': .., 'targets': ..}]. *)
Definition _update_stats (dets : list detection) : event :=
  stats_updated (length (remove_dups (map class_id dets))) (length dets).

(** [if self.inference_delay > 0: time.sleep(...)] *)
Definition apply_delay (p : params) : list event :=
  if (0 <? inference_delay p)%Z then [sleep (inference_delay p)] else [].

(** The local variables of [_process_video] and the positions reached in
    the two oracles. *)
Record vstate := mk_vstate {
  fps_counter : nat;
  start_time : float;
  output_writer : bool;
  tests : nat;
  clock : nat
}.

(** "Calculate FPS for UI": [fps = fps_counter / elapsed] every 10 frames;
    a zero [elapsed] raises. *)
Definition fps_step (e : env) (st : vstate) : exn + (list event * vstate) :=
  let c := fps_counter st + 1 in
  if 10 <=? c then
    let elapsed := (time_at e (clock st) - start_time st)%float in
    if (elapsed =? 0)%float then inl ZeroDivisionError
    else inr ([fps_updated (float_of_nat c / elapsed)%float],
              {| fps_counter := 0; start_time := time_at e (S (clock st));
                 output_writer := output_writer st; tests := tests st;
                 clock := S (S (clock st)) |})
  else inr ([],
            {| fps_counter := c; start_time := start_time st;
               output_writer := output_writer st; tests := tests st;
               clock := clock st |}).

(** The body of the [while] loop of [_process_video] after a successful
    [cap.read()]: the events, the locals afterwards and the exception that
    ended it, if any. *)
Definition video_body (e : env) (p : params) (v : video) (st : vstate) (f : frame)
  : list event * vstate * option exn :=
  match infer (predict e) p f with
  | inl ex => ([model_predict f], st, Some ex)
  | inr dets =>
      let annotated := draw_detections e f dets (line_width p) in
      let opened :=
        if output_writer st then []
        else [writer_opened (if (prop_fps v <=? 0)%float then 20%float else prop_fps v)
                            (width f) (height f)] in
      let st1 := {| fps_counter := fps_counter st; start_time := start_time st;
                    output_writer := true; tests := tests st; clock := clock st |} in
      let pre := model_predict f :: opened ++ [writer_write annotated] in
      match fps_step e st1 with
      | inl ex => (pre, st1, Some ex)
      | inr (fe, st2) =>
          (pre ++ fe ++ [frame_processed f dets; _update_stats dets] ++ apply_delay p,
           st2, None)
      end
  end.

Definition tested (st : vstate) : vstate :=
  {| fps_counter := fps_counter st; start_time := start_time st;
     output_writer := output_writer st; tests := S (tests st); clock := clock st |}.

(** [while self.running: ret, frame = cap.read(); if not ret: break; ...] *)
Fixpoint video_loop (e : env) (p : params) (v : video) (fs : list frame) (st : vstate)
  : list event * vstate * option exn :=
  if running_at e (tests st) then
    match fs with
    | [] => ([running_tested true; cap_read None], tested st, None)
    | f :: rest =>
        let '(tr, st1, ex) := video_body e p v (tested st) f in
        match ex with
        | Some _ => (running_tested true :: cap_read (Some f) :: tr, st1, ex)
        | None =>
            let '(tr', st2, ex') := video_loop e p v rest st1 in
            (running_tested true :: cap_read (Some f) :: tr ++ tr', st2, ex')
        end
    end
  else ([running_tested false], tested st, None).

(** [_process_video()] with [self.source = source] opening [v]. *)
Definition _process_video (e : env) (p : params) (source : string) (v : video)
  : list event :=
  if negb (is_opened v) then [error_occurred ("Failed to open video: " ++ source)%string]
  else
    let st0 := {| fps_counter := 0; start_time := time_at e 0;
                  output_writer := false; tests := 0; clock := 1 |} in
    let '(tr, st, ex) := video_loop e p v (frames v) st0 in
    tr
    ++ match ex with
       | Some x => [error_occurred ("Video error: " ++ str x)%string]
       | None => []
       end
    ++ (if output_writer st then [writer_release] else [])
    ++ [cap_release].

(** The body of [for i, filepath in enumerate(image_files)] of
    [_process_folder], after the test of [self.running]. *)
Definition folder_body (e : env) (p : params) (i total : nat) (filepath : string)
  : list event * option exn :=
  let head := [progress_updated (i + 1) total; cv2_imread filepath] in
  match imread e filepath with
  | None => (head, None)
  | Some f =>
      match infer (predict e) p f with
      | inl ex => (head ++ [model_predict f], Some ex)
      | inr dets =>
          (head ++ [model_predict f; batch_item_processed filepath f dets;
                    _update_stats dets] ++ apply_delay p, None)
      end
  end.

Fixpoint folder_loop (e : env) (p : params) (total : nat) (files : list string)
    (i : nat) : list event * option exn :=
  match files with
  | [] => ([], None)
  | filepath :: rest =>
      if running_at e i then
        let '(tr, ex) := folder_body e p i total filepath in
        match ex with
        | Some _ => (running_tested true :: tr, ex)
        | None =>
            let '(tr', ex') := folder_loop e p total rest (S i) in
            (running_tested true :: tr ++ tr', ex')
        end
      else ([running_tested false], None)
  end.

(** [_process_folder()]; [source] is [self.source] and [fs path] is the
    directory at [path], if there is one. *)
Definition _process_folder (e : env) (p : params) (source : option string)
    (fs : string -> option Helper.dir_tree) : list event :=
  match source ≫= (fun path => pair path <$> fs path) with
  | None => [error_occurred "Invalid folder path"]
  | Some (path, tree) =>
      let image_files := Helper.get_image_files path tree in
      match image_files with
      | [] => [error_occurred "No image files found in folder"]
      | _ =>
          let '(tr, ex) := folder_loop e p (length image_files) image_files 0 in
          tr ++ match ex with
                | Some x => [error_occurred ("Folder processing error: " ++ str x)%string]
                | None => []
                end
      end
  end.

End YOLOWorker.

(** ** [ComparisonWorker] ([src/core/comparison_worker.py]) *)

Module ComparisonWorker.
Import Runtime.

Inductive event :=
| frame_processed (f : frame) (det_a det_b : list detection) (time_a time_b : float)
| fps_updated (fps_a fps_b : float)
| progress_updated (current total : nat)
| batch_item_processed (filepath : string) (f : frame) (det_a det_b : list detection)
| finished
| error_occurred (msg : string)
| running_tested (b : bool)
| cap_read (ret : option frame)
| model_a_predict (f : frame)
| model_b_predict (f : frame)
| cap_release
| cv2_imread (filepath : string)
| sleep (ms : Z).

Definition apply_delay (p : params) : list event :=
  if (0 <? inference_delay p)%Z then [sleep (inference_delay p)] else [].

(** [(time.time() - start) * 1000] with [start] the [c]-th reading of the
    clock and [time.time()] the next one. *)
Definition elapsed_ms (e : env) (c : nat) : float :=
  ((time_at e (S c) - time_at e c) * 1000)%float.

(** "Model A" then "Model B" on the same frame, each between two readings
    of the clock; [c] is the number of readings made before. *)
Definition timed_pair (e : env) (p : params) (c : nat) (f : frame)
  : list event * (exn + (list detection * list detection * float * float)) :=
  match infer (predict e) p f with
  | inl ex => ([model_a_predict f], inl ex)
  | inr det_a =>
      match infer (predict_b e) p f with
      | inl ex => ([model_a_predict f; model_b_predict f], inl ex)
      | inr det_b =>
          ([model_a_predict f; model_b_predict f],
           inr (det_a, det_b, elapsed_ms e c, elapsed_ms e (S (S c))))
      end
  end.

(** The locals of [_process_video] and the positions in the oracles. *)
Record vstate := mk_vstate {
  fps_counter : nat;
  sum_time_a : float;
  sum_time_b : float;
  tests : nat;
  clock : nat
}.

(** [1000.0 / avg if avg > 0 else 0] *)
Definition fps_of (avg : float) : float :=
  if (0 <? avg)%float then (1000 / avg)%float else 0%float.

(** The body of the [while] loop of [_process_video] after a successful
    [cap.read()]. *)
Definition video_body (e : env) (p : params) (st : vstate) (f : frame)
  : list event * vstate * option exn :=
  match timed_pair e p (clock st) f with
  | (tr, inl ex) => (tr, st, Some ex)
  | (tr, inr (det_a, det_b, time_a, time_b)) =>
      let c := fps_counter st + 1 in
      let sa := (sum_time_a st + time_a)%float in
      let sb := (sum_time_b st + time_b)%float in
      let shown := tr ++ [frame_processed f det_a det_b time_a time_b] ++ apply_delay p in
      if 5 <=? c then
        let avg_a := (sa / float_of_nat c)%float in
        let avg_b := (sb / float_of_nat c)%float in
        (shown ++ [fps_updated (fps_of avg_a) (fps_of avg_b)],
         {| fps_counter := 0; sum_time_a := 0; sum_time_b := 0;
            tests := tests st; clock := 4 + clock st |}, None)
      else
        (shown,
         {| fps_counter := c; sum_time_a := sa; sum_time_b := sb;
            tests := tests st; clock := 4 + clock st |}, None)
  end.

Definition tested (st : vstate) : vstate :=
  {| fps_counter := fps_counter st; sum_time_a := sum_time_a st;
     sum_time_b := sum_time_b st; tests := S (tests st); clock := clock st |}.

Fixpoint video_loop (e : env) (p : params) (fs : list frame) (st : vstate)
  : list event * vstate * option exn :=
  if running_at e (tests st) then
    match fs with
    | [] => ([running_tested true; cap_read None], tested st, None)
    | f :: rest =>
        let '(tr, st1, ex) := video_body e p (tested st) f in
        match ex with
        | Some _ => (running_tested true :: cap_read (Some f) :: tr, st1, ex)
        | None =>
            let '(tr', st2, ex') := video_loop e p rest st1 in
            (running_tested true :: cap_read (Some f) :: tr ++ tr', st2, ex')
        end
    end
  else ([running_tested false], tested st, None).

Definition vstate0 : vstate :=
  {| fps_counter := 0; sum_time_a := 0; sum_time_b := 0; tests := 0; clock := 0 |}.

(** [_process_video()]: the events and the exception that leaves it. *)
Definition _process_video (e : env) (p : params) (source : string) (v : video)
  : list event * option exn :=
  if negb (is_opened v) then ([], Some (Error ("Failed to open video: " ++ source)%string))
  else
    let '(tr, _, ex) := video_loop e p (frames v) vstate0 in
    (tr ++ [cap_release], ex).

(** The body of the [for] loop of [_process_folder]; [i] counts the files
    before this one, [c] the readings of the clock. *)
Definition folder_body (e : env) (p : params) (i total c : nat) (filepath : string)
  : list event * nat * option exn :=
  let head := [progress_updated (i + 1) total; cv2_imread filepath] in
  match imread e filepath with
  | None => (head, c, None)
  | Some f =>
      match timed_pair e p c f with
      | (tr, inl ex) => (head ++ tr, c, Some ex)
      | (tr, inr (det_a, det_b, time_a, time_b)) =>
          (head ++ tr ++ [frame_processed f det_a det_b time_a time_b;
                          batch_item_processed filepath f det_a det_b]
                ++ apply_delay p, 4 + c, None)
      end
  end.

Fixpoint folder_loop (e : env) (p : params) (total : nat) (files : list string)
    (i c : nat) : list event * option exn :=
  match files with
  | [] => ([], None)
  | filepath :: rest =>
      if running_at e i then
        let '(tr, c', ex) := folder_body e p i total c filepath in
        match ex with
        | Some _ => (running_tested true :: tr, ex)
        | None =>
            let '(tr', ex') := folder_loop e p total rest (S i) c' in
            (running_tested true :: tr ++ tr', ex')
        end
      else ([running_tested false], None)
  end.

(** [_process_folder()] *)
Definition _process_folder (e : env) (p : params) (source : string)
    (fs : string -> option Helper.dir_tree) : list event * option exn :=
  match fs source with
  | None => ([], Some (Error "Invalid folder path"))
  | Some tree =>
      let files := Helper.get_image_files source tree in
      folder_loop e p (length files) files 0 0
  end.

(** [_process_image()] *)
Definition _process_image (e : env) (p : params) (source : string)
  : list event * option exn :=
  match imread e source with
  | None => ([cv2_imread source], Some (Error "Failed to load image"))
  | Some f =>
      match timed_pair e p 0 f with
      | (tr, inl ex) => (cv2_imread source :: tr, Some ex)
      | (tr, inr (det_a, det_b, time_a, time_b)) =>
          (cv2_imread source :: tr ++ [frame_processed f det_a det_b time_a time_b]
             ++ apply_delay p, None)
      end
  end.

(** What [set_source] selected. *)
Inductive job :=
| VideoJob (source : string) (v : video)
| FolderJob (source : string) (fs : string -> option Helper.dir_tree)
| ImageJob (source : string).

(** [run()], once both models are loaded: whatever leaves the processing
    method is published by [error_occurred], then [finished]. *)
Definition run (e : env) (p : params) (j : job) : list event :=
  let '(tr, ex) :=
    match j with
    | VideoJob source v => _process_video e p source v
    | FolderJob source fs => _process_folder e p source fs
    | ImageJob source => _process_image e p source
    end in
  tr ++ match ex with
        | Some x => [error_occurred (str x)]
        | None => []
        end
     ++ [finished].

End ComparisonWorker.

(** ** What holds of the sessions, and example managers *)

Module DMSpec.
Import DM.

(** The statistics agree with the recorded frames, [avg_confidence] left
    aside. *)
Definition counts_consistent (cs : session) : Prop :=
  let st := stats cs in
  let dets := all_detections cs in
  total_frames st = length (s_detections cs) /\
  total_detections st = sum_list_with (fun fr => length (f_detections fr)) (s_detections cs) /\
  unique_classes st = ClassSet (list_to_set (class_names dets)) /\
  forall name,
    class_counts st !! name =
    match occurrences name dets with
    | O => None
    | S n => Some (S n)
    end.

(** What holds of a session while it is written. *)
Definition open_ok (cs : session) : Prop :=
  end_time cs = None /\ counts_consistent cs /\ avg_confidence (stats cs) = 0%float.

(** What holds of a session of the history. *)
Definition closed_ok (s : session) : Prop :=
  is_Some (end_time s) /\ exists l, unique_classes (stats s) = ClassList l.

Definition inv (m : DetectionManager) : Prop :=
  (forall cs, current_session m = Some cs -> open_ok cs) /\
  Forall closed_ok (detection_history m).

End DMSpec.

Module DMExamples.
Import DM.

Definition noon : datetime := mk_datetime 2024 5 2 12 0 0 0.
Definition later : datetime := mk_datetime 2024 5 2 12 0 7 0.

Definition det (c : float) (name : string) : detection :=
  {| bbox := (0, 0, 1, 1)%float; confidence := c; class_id := 0; class_name := name |}.

(** A manager with an open session holding one frame with one detection. *)
Definition one_frame : DetectionManager :=
  after [StartSession noon noon "image" "m1"; AddDetection noon "image" [det 0.9 "cat"]].

(** A manager with an open session holding 0.9 and 0.8 in one frame and
    0.7 in the next. *)
Definition three_confidences : DetectionManager :=
  after [StartSession noon noon "video" "m1";
         AddDetection noon "frame_1" [det 0.9 "cat"; det 0.8 "dog"];
         AddDetection noon "frame_2" [det 0.7 "cat"]].

(** The same manager after [end_session]. *)
Definition three_closed : DetectionManager :=
  after [StartSession noon noon "video" "m1";
         AddDetection noon "frame_1" [det 0.9 "cat"; det 0.8 "dog"];
         AddDetection noon "frame_2" [det 0.7 "cat"];
         EndSession later].

End DMExamples.

(** ** Reading a run's events *)

Module YOLOTrace.
Import Runtime YOLOWorker.

(** The files handed to [cv2.imread], in order. *)
Definition files_read (tr : list event) : list string :=
  omap (fun ev => match ev with cv2_imread path => Some path | _ => None end) tr.

(** The per-item results of a folder run. *)
Definition items (tr : list event) : list (string * frame * list detection) :=
  omap (fun ev => match ev with
                  | batch_item_processed path f dets => Some (path, f, dets)
                  | _ => None
                  end) tr.

(** The frame results of a video run. *)
Definition results (tr : list event) : list (frame * list detection) :=
  omap (fun ev => match ev with
                  | frame_processed f dets => Some (f, dets)
                  | _ => None
                  end) tr.

Definition progress (tr : list event) : list (nat * nat) :=
  omap (fun ev => match ev with
                  | progress_updated i total => Some (i, total)
                  | _ => None
                  end) tr.

Definition errors (tr : list event) : list string :=
  omap (fun ev => match ev with error_occurred msg => Some msg | _ => None end) tr.

Definition stats_events (tr : list event) : list (nat * nat) :=
  omap (fun ev => match ev with stats_updated c t => Some (c, t) | _ => None end) tr.

Definition fps_published (tr : list event) : list float :=
  omap (fun ev => match ev with fps_updated fps => Some fps | _ => None end) tr.

(** The values of [self.running] the run has seen. *)
Definition flag_tests (tr : list event) : list bool :=
  omap (fun ev => match ev with running_tested b => Some b | _ => None end) tr.

(** The tests of the flag, the inference calls and the frame results,
    other events left out. *)
Definition milestones (tr : list event) : list event :=
  omap (fun ev => match ev with
                  | running_tested _ | model_predict _ | frame_processed _ _ => Some ev
                  | _ => None
                  end) tr.

End YOLOTrace.

Module ComparisonTrace.
Import Runtime ComparisonWorker.

Definition files_read (tr : list event) : list string :=
  omap (fun ev => match ev with cv2_imread path => Some path | _ => None end) tr.

Definition items (tr : list event) : list string :=
  omap (fun ev => match ev with
                  | batch_item_processed path _ _ _ => Some path
                  | _ => None
                  end) tr.

Definition results (tr : list event) : list (frame * list detection * list detection) :=
  omap (fun ev => match ev with
                  | frame_processed f da db _ _ => Some (f, da, db)
                  | _ => None
                  end) tr.

Definition progress (tr : list event) : list (nat * nat) :=
  omap (fun ev => match ev with
                  | progress_updated i total => Some (i, total)
                  | _ => None
                  end) tr.

Definition errors (tr : list event) : list string :=
  omap (fun ev => match ev with error_occurred msg => Some msg | _ => None end) tr.

Definition fps_published (tr : list event) : list (float * float) :=
  omap (fun ev => match ev with fps_updated a b => Some (a, b) | _ => None end) tr.

Definition flag_tests (tr : list event) : list bool :=
  omap (fun ev => match ev with running_tested b => Some b | _ => None end) tr.

(** The tests of the flag, the inference calls and the frame results
    (without the measured times), other events left out. *)
Inductive mark :=
| flag_tested (b : bool)
| inferred_a (f : frame)
| inferred_b (f : frame)
| published (f : frame) (det_a det_b : list detection).

Definition milestones (tr : list event) : list mark :=
  omap (fun ev => match ev with
                  | running_tested b => Some (flag_tested b)
                  | model_a_predict f => Some (inferred_a f)
                  | model_b_predict f => Some (inferred_b f)
                  | frame_processed f da db _ _ => Some (published f da db)
                  | _ => None
                  end) tr.

End ComparisonTrace.

(** ** Orders and examples used by the statements *)

Module Examples.
Import Runtime Helper.

(** [a <= b] in the lexicographic order of the character codes. *)
Definition lex_le (a b : string) : Prop := a = b \/ String_as_OT.lt a b.

Definition no_boxes : yolo_result := {| boxes := Some []; names := ∅ |}.

Definition blank : frame := {| height := 2; width := 2; pixels := [0; 0; 0; 0]%Z |}.

Definition default_params : params :=
  {| conf_threshold := 0.25; iou_threshold := 0.45; line_width := 1;
     inference_delay := 0 |}.

(** A directory [d] holding [b.jpg], [a.jpg], [c.jpg] and [notes.txt]. *)
Definition abc_dir : dir_tree := Dir ["b.jpg"; "a.jpg"; "notes.txt"; "c.jpg"] [].

Definition abc_fs (path : string) : option dir_tree :=
  if String.eqb path "d" then Some abc_dir else None.

(** An environment that is never stopped, whose clock reads [n] seconds at
    the [n]-th call, whose models find nothing, and in which [d/b.jpg]
    cannot be decoded. *)
Definition quiet_env : env :=
  {| running_at := fun _ => true;
     time_at := fun n => float_of_nat n;
     predict_ms := fun _ => 10%float;
     imread := fun path => if String.eqb path "d/b.jpg" then None else Some blank;
     predict := fun _ _ _ => inr no_boxes;
     predict_b := fun _ _ _ => inr no_boxes;
     draw_detections := fun f _ _ => f |}.

(** The same, stopped by the foreground after [k] frames: the test of the
    flag that follows frame [k] finds it cleared. *)
Definition stopped_after (k : nat) : env :=
  {| running_at := fun n => n <? k;
     time_at := time_at quiet_env;
     predict_ms := predict_ms quiet_env;
     imread := imread quiet_env;
     predict := predict quiet_env;
     predict_b := predict_b quiet_env;
     draw_detections := draw_detections quiet_env |}.

(** 90 ms of sleep after every frame. *)
Definition paced_params : params :=
  {| conf_threshold := 0.25; iou_threshold := 0.45; line_width := 1;
     inference_delay := 90 |}.

(** The throughput as the specification words it: 1000 divided by the
    mean of the inference times (ms) of the window. *)
Definition spec_fps (times_ms : list float) : float :=
  (1000 / (fsum times_ms / float_of_nat (length times_ms)))%float.

Definition clip (n : nat) : video :=
  {| is_opened := true; prop_fps := 25; frames := replicate n blank |}.

End Examples.

(** ** Notions used to state the properties of the runs *)

Module RunSpec.
Import Runtime.

(** Whether [cv2.imread] can decode the file. *)
Definition decodable (e : env) (path : string) : bool :=
  match imread e path with Some _ => true | None => false end.

(** The detections model A returns for a frame ([[]] if it raises). *)
Definition dets_of (e : env) (p : params) (f : frame) : list detection :=
  match infer (predict e) p f with
  | inr dets => dets
  | inl _ => []
  end.

Definition dets_a_of := dets_of.

(** The detections model B returns for a frame. *)
Definition dets_b_of (e : env) (p : params) (f : frame) : list detection :=
  match infer (predict_b e) p f with
  | inr dets => dets
  | inl _ => []
  end.

(** In [YOLOWorker._process_video], [start_time] is the last reading of
    the clock, and at most two readings were made per frame. *)
Definition clock_ok (e : env) (st : YOLOWorker.vstate) : Prop :=
  exists n, YOLOWorker.clock st = S n /\
            YOLOWorker.start_time st = time_at e n /\
            n <= 2 * YOLOWorker.tests st.

(** The inference times [ComparisonWorker] measures for the five frames
    of a block that begins when [c] readings of the clock were made. *)
Definition times_a (e : env) (c : nat) : list float :=
  map (fun j => ComparisonWorker.elapsed_ms e (4 * j + c)) (seq 0 5).

Definition times_b (e : env) (c : nat) : list float :=
  map (fun j => ComparisonWorker.elapsed_ms e (S (S (4 * j + c)))) (seq 0 5).

End RunSpec.

(** ** Exports of [DetectionManager] and the dashboard that reads it *)

Module Exports.
Import DM.

(** [format(x, '.2f')]: the decimal with two digits after the point that
    is nearest to the exact value of [x], ties to the even digit; the sign
    is kept when the digits are all zero. *)
Definition round_half_even (q : Q) : Z :=
  let n := Qnum q in
  let d := Z.pos (Qden q) in
  let fl := (n / d)%Z in
  let r2 := (2 * (n mod d))%Z in
  if (r2 <? d)%Z then fl
  else if (d <? r2)%Z then (fl + 1)%Z
  else if Z.even fl then fl else (fl + 1)%Z.

Definition format_2f (x : float) : string :=
  match Prim2SF x with
  | S754_nan => "nan"
  | S754_infinity s => if s then "-inf" else "inf"
  | S754_zero s => ((if s then "-" else "") ++ "0.00")%string
  | S754_finite s _ _ =>
      match float_to_Q x with
      | Some q =>
          let n := round_half_even (Qabs q * 100) in
          ((if s then "-" else "") ++ pretty (n / 100)%Z ++ "."
             ++ pad_dec 2 (Z.to_nat (n mod 100)))%string
      | None => "nan"
      end
  end.

(** [dt.strftime("%Y-%m-%d %H:%M:%S")], for years of four digits. *)
Definition strftime_csv (dt : datetime) : string :=
  (pad_dec 4 (dt_year dt) ++ "-" ++ pad_dec 2 (dt_month dt) ++ "-"
   ++ pad_dec 2 (dt_day dt) ++ " " ++ pad_dec 2 (dt_hour dt) ++ ":"
   ++ pad_dec 2 (dt_minute dt) ++ ":" ++ pad_dec 2 (dt_second dt))%string.

(** [dt.isoformat()]: the microseconds appear only when they are not 0. *)
Definition isoformat (dt : datetime) : string :=
  (pad_dec 4 (dt_year dt) ++ "-" ++ pad_dec 2 (dt_month dt) ++ "-"
   ++ pad_dec 2 (dt_day dt) ++ "T" ++ pad_dec 2 (dt_hour dt) ++ ":"
   ++ pad_dec 2 (dt_minute dt) ++ ":" ++ pad_dec 2 (dt_second dt)
   ++ (if Nat.eqb (dt_microsecond dt) 0 then ""
       else "." ++ pad_dec 6 (dt_microsecond dt)))%string.

(** What an export can raise. *)
Inductive exn :=
| KeyError (key : string)
| TypeError (msg : string).

(** [len(stats['unique_classes'])], of the set or of the list. *)
Definition len_classes (c : classes) : nat :=
  match c with
  | ClassSet s => size s
  | ClassList l => length l
  end.

Definition csv_header : list string :=
  ["Session ID"; "Mode"; "Model"; "Start Time"; "End Time";
   "Total Frames"; "Total Detections"; "Unique Classes"; "Avg Confidence"].

(** The list handed to [writer.writerow] for one session; a session
    without ['end_time'] raises. *)
Definition csv_row (s : session) : exn + list string :=
  match end_time s with
  | None => inl (KeyError "end_time")
  | Some e =>
      inr [session_id s; mode s; model s;
           strftime_csv (start_time s); strftime_csv e;
           pretty (total_frames (stats s));
           pretty (total_detections (stats s));
           pretty (len_classes (unique_classes (stats s)));
           format_2f (avg_confidence (stats s))]
  end.

(** [for session in self.detection_history: writer.writerow(...)]: the
    rows written so far and what ended the loop. *)
Fixpoint csv_rows (sessions : list session) : list (list string) * option exn :=
  match sessions with
  | [] => ([], None)
  | s :: rest =>
      match csv_row s with
      | inl e => ([], Some e)
      | inr row =>
          let '(rows, ex) := csv_rows rest in (row :: rows, ex)
      end
  end.

(** [export_to_csv(filepath)]: the rows written to the file, header
    first, and the exception that leaves the method, if any. *)
Definition export_to_csv (self : DetectionManager) : list (list string) * option exn :=
  let '(rows, ex) := csv_rows (detection_history self) in
  (csv_header :: rows, ex).

(** The value [json.dump] serializes (the layout of the text is
    [indent=2] and is not modelled). *)
#[local] Unset Elimination Schemes.
Inductive json :=
| JInt (z : Z)
| JFloat (x : float)
| JString (s : string)
| JArray (items : list json)
| JObject (members : list (string * json)).
#[local] Set Elimination Schemes.

(** A detection dict; [bbox] goes through [DetectionEncoder.default]
    ([ndarray.tolist()]). *)
Definition json_of_detection (d : detection) : json :=
  let '(x1, y1, x2, y2) := bbox d in
  JObject [("bbox", JArray [JFloat x1; JFloat y1; JFloat x2; JFloat y2]);
           ("confidence", JFloat (confidence d));
           ("class_id", JInt (class_id d));
           ("class_name", JString (class_name d))].

(** An element of [session['detections']]; the timestamp goes through
    [DetectionEncoder.default] ([isoformat()]). *)
Definition json_of_frame (fr : det_frame) : json :=
  JObject [("frame_id", JString (frame_id fr));
           ("timestamp", JString (isoformat (timestamp fr)));
           ("detections", JArray (map json_of_detection (f_detections fr)))].

(** [stats['unique_classes']]: a list is an array; a set reaches
    [DetectionEncoder.default], which hands it to [super().default]. *)
Definition json_of_classes (c : classes) : exn + json :=
  match c with
  | ClassList l => inr (JArray (map JString l))
  | ClassSet _ => inl (TypeError "Object of type set is not JSON serializable")
  end.

(** The stats dict, keys in the order [start_session] created them; the
    members of [class_counts] are listed in the order of the map, which
    for the dict is the order in which the classes were first seen. *)
Definition json_of_stats (st : stats_t) : exn + json :=
  match json_of_classes (unique_classes st) with
  | inl e => inl e
  | inr uc =>
      inr (JObject
             [("total_frames", JInt (Z.of_nat (total_frames st)));
              ("total_detections", JInt (Z.of_nat (total_detections st)));
              ("unique_classes", uc);
              ("avg_confidence", JFloat (avg_confidence st));
              ("class_counts",
               JObject (map (fun kv => (kv.1, JInt (Z.of_nat kv.2)))
                            (map_to_list (class_counts st))))])
  end.

(** The session dict: ['end_time'] was added last, by [end_session]. *)
Definition json_of_session (s : session) : exn + json :=
  match json_of_stats (stats s) with
  | inl e => inl e
  | inr st =>
      inr (JObject
             ([("session_id", JString (session_id s));
               ("mode", JString (mode s));
               ("model", JString (model s));
               ("start_time", JString (isoformat (start_time s)));
               ("detections", JArray (map json_of_frame (s_detections s)));
               ("stats", st)]
              ++ match end_time s with
                 | Some e => [("end_time", JString (isoformat e))]
                 | None => []
                 end))
  end.

Fixpoint json_of_sessions (sessions : list session) : exn + list json :=
  match sessions with
  | [] => inr []
  | s :: rest =>
      match json_of_session s with
      | inl e => inl e
      | inr j =>
          match json_of_sessions rest with
          | inl e => inl e
          | inr js => inr (j :: js)
          end
      end
  end.

(** [export_to_json(filepath)]: the value dumped, or the exception. *)
Definition export_to_json (self : DetectionManager) : exn + json :=
  match json_of_sessions (detection_history self) with
  | inl e => inl e
  | inr js => inr (JArray js)
  end.

End Exports.

(** ** [DashboardWidget.refresh_data] ([src/widgets/dashboard_widget.py]) *)

Module Dashboard.
Import DM.

(** The loop variables of [refresh_data] after the sessions were read:
    what the four cards and the class table are filled from. *)
Record totals := mk_totals {
  total_detections : nat;
  all_classes : gset string;
  total_confidence : float;
  confidence_count : nat;
  class_counts : gmap string nat
}.

(** [all_classes.update(stats['unique_classes'])] *)
Definition update_classes (acc : gset string) (c : classes) : gset string :=
  match c with
  | ClassSet s => acc ∪ s
  | ClassList l => acc ∪ list_to_set l
  end.

(** [for cls, count in stats['class_counts'].items(): ...] *)
Definition add_counts (acc m : gmap string nat) : gmap string nat :=
  map_fold (fun cls count a => <[cls := default 0 (a !! cls) + count]> a) acc m.

(** The body of [for session in sessions]. *)
Definition read_session (t : totals) (s : session) : totals :=
  let '(tc, n) := fold_left sum_frame (s_detections s)
                            (total_confidence t, confidence_count t) in
  {| total_detections := total_detections t + DM.total_detections (stats s);
     all_classes := update_classes (all_classes t) (unique_classes (stats s));
     total_confidence := tc;
     confidence_count := n;
     class_counts := add_counts (class_counts t) (DM.class_counts (stats s)) |}.

Definition no_totals : totals :=
  {| total_detections := 0; all_classes := ∅; total_confidence := 0;
     confidence_count := 0; class_counts := ∅ |}.

Definition read_sessions (sessions : list session) : totals :=
  fold_left read_session sessions no_totals.

(** What the four cards show. *)
Record cards := mk_cards {
  total_sessions_card : nat;
  total_detections_card : nat;
  unique_classes_card : nat;
  avg_confidence_card : string;
  class_table_rows : nat
}.

(** [refresh_data()], up to the cards and the size of the class table. *)
Definition refresh_data (self : DetectionManager) : cards :=
  let sessions := get_all_sessions self in
  let t := read_sessions sessions in
  let avg :=
    if 0 <? confidence_count t
    then (total_confidence t / float_of_nat (confidence_count t))%float
    else 0%float in
  {| total_sessions_card := length sessions;
     total_detections_card := total_detections t;
     unique_classes_card := size (all_classes t);
     avg_confidence_card := Exports.format_2f avg;
     class_table_rows := size (class_counts t) |}.

End Dashboard.

(** ** What holds of the sessions of the history *)

Module HistorySpec.
Import DM.

(** The statistics of a closed session agree with its recorded frames. *)
Definition closed_consistent (s : session) : Prop :=
  let st := stats s in
  let dets := all_detections s in
  is_Some (end_time s) /\
  total_frames st = length (s_detections s) /\
  total_detections st = length dets /\
  unique_classes st =
    ClassList (elements (list_to_set (class_names dets) : gset string)) /\
  (forall name,
     DM.class_counts st !! name =
     match occurrences name dets with
     | O => None
     | S n => Some (S n)
     end) /\
  avg_confidence st = mean_confidence dets.

(** All detections recorded in the history, oldest session first. *)
Definition history_detections (m : DetectionManager) : list detection :=
  concat (map all_detections (detection_history m)).

(** A [datetime] whose fields are in the ranges of the type. *)
Definition valid_datetime (dt : datetime) : Prop :=
  dt_year dt < 10 ^ 4 /\ dt_month dt < 10 ^ 2 /\ dt_day dt < 10 ^ 2 /\
  dt_hour dt < 10 ^ 2 /\ dt_minute dt < 10 ^ 2 /\ dt_second dt < 10 ^ 2.

(** The same calendar second. *)
Definition same_second (a b : datetime) : Prop :=
  dt_year a = dt_year b /\ dt_month a = dt_month b /\ dt_day a = dt_day b /\
  dt_hour a = dt_hour b /\ dt_minute a = dt_minute b /\ dt_second a = dt_second b.

End HistorySpec.

(** ** More readings of a run's events *)

Module RunMarks.
Import Runtime.

(** The two numbers [_update_stats] publishes for a list of detections:
    the number of distinct class ids and the number of detections. *)
Definition stats_of (dets : list detection) : nat * nat :=
  (size (list_to_set (map class_id dets) : gset Z), length dets).

(** A box whose class id has a name in [result.names]. *)
Definition named (nm : gmap Z string) (b : box) : Prop := is_Some (nm !! cls b).

(** The detection [_extract_detections] builds from a box. *)
Definition detection_of (nm : gmap Z string) (b : box) (d : detection) : Prop :=
  bbox d = xyxy b /\ confidence d = conf b /\ class_id d = cls b /\
  nm !! cls b = Some (class_name d).

(** A directory tree without any image file. *)
Definition no_image (root : string) (t : Helper.dir_tree) : Prop :=
  Forall (fun rf => Forall (fun f => Helper.is_image f = false) (snd rf))
         (Helper.walk root t).

(** The progress notifications [(first, total)], [(first + 1, total)], ...,
    [k] of them. *)
Definition counted (total k first : nat) : list (nat * nat) :=
  map (fun j => (j, total)) (seq first k).

End RunMarks.

(** The life of a handle that has to be released: a capture or a video
    writer. *)
Module Protocol.

Inductive handle := Unopened | Open | Released.

(** The state a handle is in after the events of a run, [None] when an
    event was not allowed in the state it met. *)
Fixpoint follows {E : Type} (step : handle -> E -> option handle) (h : handle)
    (tr : list E) : option handle :=
  match tr with
  | [] => Some h
  | ev :: rest =>
      match step h ev with
      | Some h' => follows step h' rest
      | None => None
      end
  end.

End Protocol.

Module YOLOMarks.
Import Runtime YOLOWorker Protocol.

(** The video writer is opened once, written to while open and released
    once. *)
Definition writer_step (h : handle) (ev : event) : option handle :=
  match ev with
  | writer_opened _ _ _ => match h with Unopened => Some Open | _ => None end
  | writer_write _ => match h with Open => Some Open | _ => None end
  | writer_release => match h with Open => Some Released | _ => None end
  | _ => Some h
  end.

(** The capture is read while open and released once. *)
Definition cap_step (h : handle) (ev : event) : option handle :=
  match ev with
  | cap_read _ => match h with Open => Some Open | _ => None end
  | cap_release => match h with Open => Some Released | _ => None end
  | _ => Some h
  end.

(** The state of the capture once [cv2.VideoCapture] returned. *)
Definition cap_of (v : video) : handle := if is_opened v then Open else Unopened.


Definition is_error (ev : event) : bool :=
  match ev with error_occurred _ => true | _ => false end.

(** The events of an inference: the call of the model and the statistics
    of its detections. *)
Definition is_inference (ev : event) : bool :=
  match ev with
  | model_predict _ | stats_updated _ _ => true
  | _ => false
  end.


(** The state of the writer that goes with the local [output_writer]. *)
Definition writer_of (b : bool) : handle := if b then Open else Unopened.

(** The statistics published are those of the results published. *)
Definition stats_match_results (tr : list event) : Prop :=
  YOLOTrace.stats_events tr =
    map (fun r => RunMarks.stats_of (snd r)) (YOLOTrace.results tr).

Definition stats_match_items (tr : list event) : Prop :=
  YOLOTrace.stats_events tr =
    map (fun it => RunMarks.stats_of (snd it)) (YOLOTrace.items tr).

End YOLOMarks.

Module ComparisonMarks.
Import Runtime ComparisonWorker Protocol.

Definition cap_step (h : handle) (ev : event) : option handle :=
  match ev with
  | cap_read _ => match h with Open => Some Open | _ => None end
  | cap_release => match h with Open => Some Released | _ => None end
  | _ => Some h
  end.


Definition is_error (ev : event) : bool :=
  match ev with error_occurred _ => true | _ => false end.


End ComparisonMarks.

(** ** Paths ([os.path], POSIX) *)

Module Paths.

(** [s.rfind(c)], scanning [s] from position [i] with [last] the position
    of the last occurrence seen; [None] is Python's [-1]. *)
Fixpoint rfind_from (c : ascii) (s : string) (i : nat) (last : option nat) : option nat :=
  match s with
  | EmptyString => last
  | String a r => rfind_from c r (S i) (if Ascii.eqb a c then Some i else last)
  end.

Definition rfind (c : ascii) (s : string) : option nat := rfind_from c s 0 None.

(** Whether a string is made of dots only (the empty string is). *)
Fixpoint only_dots (s : string) : bool :=
  match s with
  | EmptyString => true
  | String a r => Ascii.eqb a "." && only_dots r
  end.

(** [os.path.basename(p)]: what follows the last slash. *)
Definition basename (p : string) : string :=
  match rfind "/" p with
  | Some i => substring (S i) (String.length p - S i) p
  | None => p
  end.

(** [os.path.splitext(p)]: the extension starts at the last dot of the
    last component, unless only dots precede it there. *)
Definition splitext (p : string) : string * string :=
  let filenameIndex := match rfind "/" p with Some i => S i | None => 0 end in
  match rfind "." p with
  | Some dotIndex =>
      if (filenameIndex <=? dotIndex)
         && negb (only_dots (substring filenameIndex (dotIndex - filenameIndex) p))
      then (substring 0 dotIndex p, substring dotIndex (String.length p - dotIndex) p)
      else (p, EmptyString)
  | None => (p, EmptyString)
  end.

(** Whether a character occurs in a string. *)
Fixpoint occurs (c : ascii) (s : string) : bool :=
  match s with
  | EmptyString => false
  | String a r => Ascii.eqb a c || occurs c r
  end.

(** The last character of a string. *)
Fixpoint last_char (s : string) : option ascii :=
  match s with
  | EmptyString => None
  | String a EmptyString => Some a
  | String _ r => last_char r
  end.

End Paths.

(** ** [get_available_models] ([src/utils/helper.py]) and the path
    [_load_model] looks for *)

Module Models.
Import Helper Paths.

(** What is at [models_dir]. *)
Inductive entry :=
| Missing
| NotADirectory
| Directory (files : list string).

(** [get_available_models(models_dir)]; [None] stands for the
    [NotADirectoryError] of [os.listdir]. *)
Definition get_available_models (models_dir : entry) : option (list string) :=
  match models_dir with
  | Missing => Some ["YOLOv8n"]
  | NotADirectory => None
  | Directory files =>
      let models :=
        sorted (map (fun file => fst (splitext file))
                    (filter (fun file => ends_with ".pt" file = true) files)) in
      match models with
      | [] => Some ["YOLOv8n"]
      | _ => Some models
      end
  end.

(** [os.path.join("models", f"{self.model_name}.pt")] of [_load_model]. *)
Definition model_path (model_name : string) : string :=
  path_join "models" (model_name ++ ".pt").

(** The argument [_load_model] gives [YOLO(...)]. *)
Definition model_file (exists_ : string -> bool) (model_name : string) : string :=
  if exists_ (model_path model_name) then model_path model_name
  else (model_name ++ ".pt")%string.

End Models.

(** ** [save_batch_results] ([src/utils/helper.py]) *)

Module BatchSave.
Import Runtime Helper Paths.

(** What a file holds after it was written. *)
Inductive content :=
| ImageFile (f : frame)
| TextFile (text : string).

Definition result : Type := string * frame * list detection.

(** [c * n] for a one-character string. *)
Fixpoint repeat_char (c : ascii) (n : nat) : string :=
  match n with
  | O => EmptyString
  | S k => String c (repeat_char c k)
  end.

Definition newline : string := String (ascii_of_nat 10) EmptyString.

(** [", ".join(l)] *)
Fixpoint join_comma (l : list string) : string :=
  match l with
  | [] => EmptyString
  | [x] => x
  | x :: rest => (x ++ ", " ++ join_comma rest)%string
  end.

(** The lines written for the detections of one image, numbered from [j]. *)
Fixpoint detection_lines (j : nat) (dets : list detection) : string :=
  match dets with
  | [] => EmptyString
  | d :: rest =>
      ("      " ++ pretty j ++ ". " ++ class_name d ++ ": "
       ++ Exports.format_2f (confidence d) ++ newline
       ++ detection_lines (S j) rest)%string
  end.

(** The part of the report for the [i]-th result; the order of
    [list(set(...))] is the one of the elements of the set. *)
Definition image_lines (i : nat) (r : result) : string :=
  let '(filepath, _, dets) := r in
  (newline ++ pretty i ++ ". " ++ basename filepath ++ newline
   ++ "   Detections: " ++ pretty (length dets) ++ newline
   ++ match dets with
      | [] => EmptyString
      | _ =>
          "   Classes: "
          ++ join_comma (elements (list_to_set (map class_name dets) : gset string))
          ++ newline ++ detection_lines 1 dets
      end)%string.

Fixpoint per_image (i : nat) (results : list result) : string :=
  match results with
  | [] => EmptyString
  | r :: rest => (image_lines i r ++ per_image (S i) rest)%string
  end.

(** What [_create_batch_report] writes. *)
Definition report_text (results : list result) (timestamp : string) : string :=
  ("Batch Detection Report" ++ newline
   ++ "Generated: " ++ timestamp ++ newline
   ++ repeat_char "=" 60 ++ newline ++ newline
   ++ "Total Images Processed: " ++ pretty (length results) ++ newline ++ newline
   ++ "Total Detections: "
   ++ pretty (sum_list_with (fun r : result => length (snd r)) results)
   ++ newline ++ newline
   ++ "Per-Image Results:" ++ newline
   ++ repeat_char "-" 60 ++ newline
   ++ per_image 1 results)%string.

(** [f"{original_name}_detected.jpg"] *)
Definition output_name (filepath : string) : string :=
  (fst (splitext (basename filepath)) ++ "_detected.jpg")%string.

(** One round of the loop of [save_batch_results]: the path and the
    image given to [cv2.imwrite]. *)
Definition image_write (draw : frame -> list detection -> Z -> frame) (line_width : Z)
    (batch_dir : string) (r : result) : string * content :=
  let '(filepath, f, dets) := r in
  (path_join batch_dir (output_name filepath), ImageFile (draw f dets line_width)).

(** [save_batch_results(results, output_dir, line_width)] called at
    [now]: the files written, in order, and the directory returned. *)
Definition save_batch_results (draw : frame -> list detection -> Z -> frame)
    (now : datetime) (results : list result) (output_dir : string) (line_width : Z)
  : list (string * content) * string :=
  let timestamp := strftime_id now in
  let batch_dir := path_join output_dir ("batch_" ++ timestamp) in
  (map (image_write draw line_width batch_dir) results
   ++ [(path_join batch_dir "detection_report.txt",
        TextFile (report_text results timestamp))],
   batch_dir).

(** The files of the directory once the writes were made in order: a
    later write to the same path replaces the earlier one. *)
Definition written (writes : list (string * content)) : gmap string content :=
  fold_left (fun m w => <[fst w := snd w]> m) writes ∅.

End BatchSave.

(** ** [YOLOWorker.run] and the modes it dispatches to
    ([src/core/yolo_worker.py]) *)

Module YOLORun.
Import Runtime YOLOWorker.

(** The fields of the worker that [run] reads and writes: [model] is the
    file the loaded model came from, [None] while [self.model is None]. *)
Record worker := mk_worker {
  model_name : string;
  model : option string;
  settings : params
}.

(** What the run observes besides [env]:
    - [enabled_at n]: the value of [self.inference_enabled] found by the
      [n]-th reading the run makes of it (the foreground's
      [set_inference_enabled] changes it);
    - [path_exists]: [os.path.exists];
    - [yolo_load path]: the exception [YOLO(path)] raises, if any. *)
Record world := mk_world {
  w_env : env;
  enabled_at : nat -> bool;
  path_exists : string -> bool;
  yolo_load : string -> option exn
}.

(** What [set_source] selected: the source with what is found there. *)
Inductive job :=
| ImageJob (source : option string)
| CameraJob (v : video)
| VideoJob (source : string) (v : video)
| FolderJob (source : option string) (fs : string -> option Helper.dir_tree)
| OtherJob.

Definition with_model (self : worker) (file : string) : worker :=
  {| model_name := model_name self; model := Some file; settings := settings self |}.

(** [_load_model()]: the signal it emits and the exception it raises
    again, or the worker with the model loaded. *)
Definition _load_model (w : world) (self : worker) : list event * (exn + worker) :=
  let file := Models.model_file (path_exists w) (model_name self) in
  match yolo_load w file with
  | Some ex => ([error_occurred ("Error loading model: " ++ str ex)%string], inl ex)
  | None => ([], inr (with_model self file))
  end.

(** [if self.model is None: self._load_model()] *)
Definition load_if_none (w : world) (self : worker) : list event * (exn + worker) :=
  match model self with
  | None => _load_model w self
  | Some _ => ([], inr self)
  end.

(** [self.model.predict] where no model was loaded raises. *)
Definition no_model : exn := Error "'NoneType' object has no attribute 'predict'".

(** The collaborators as a mode that never loads the model finds them. *)
Definition model_env (w : world) (self : worker) : env :=
  match model self with
  | Some _ => w_env w
  | None =>
      {| running_at := running_at (w_env w);
         time_at := time_at (w_env w);
         predict_ms := predict_ms (w_env w);
         imread := imread (w_env w);
         predict := fun _ _ _ => inl no_model;
         predict_b := predict_b (w_env w);
         draw_detections := draw_detections (w_env w) |}
  end.

(** [_process_image()] *)
Definition _process_image (w : world) (self : worker) (source : option string)
  : list event * worker :=
  match source with
  | None => ([], self)
  | Some path =>
      match imread (w_env w) path with
      | None =>
          ([cv2_imread path; error_occurred ("Failed to load image: " ++ path)%string], self)
      | Some f =>
          match load_if_none w self with
          | (tr, inl ex) =>
              (cv2_imread path :: tr
                 ++ [error_occurred ("Image processing error: " ++ str ex)%string], self)
          | (tr, inr self1) =>
              match infer (predict (w_env w)) (settings self) f with
              | inl ex =>
                  (cv2_imread path :: tr ++
                     [model_predict f;
                      error_occurred ("Image processing error: " ++ str ex)%string], self1)
              | inr dets =>
                  (cv2_imread path :: tr ++
                     [model_predict f; frame_processed f dets; _update_stats dets]
                     ++ apply_delay (settings self), self1)
              end
          end
      end
  end.

(** The locals of [_process_camera], the number of readings of
    [self.inference_enabled] made and the worker. *)
Record cstate := mk_cstate {
  locals : vstate;
  enabled_reads : nat;
  self_now : worker
}.

(** "Run inference only if enabled": the events, the detections or the
    exception, and the worker afterwards. *)
Definition camera_infer (w : world) (self : worker) (enabled : bool) (f : frame)
  : list event * (exn + list detection) * worker :=
  if enabled then
    match load_if_none w self with
    | (tr, inl ex) => (tr, inl ex, self)
    | (tr, inr self1) =>
        (tr ++ [model_predict f], infer (predict (w_env w)) (settings self) f, self1)
    end
  else ([], inr [], self).

(** The body of the [while] loop of [_process_camera] after a successful
    [cap.read()]. *)
Definition camera_body (w : world) (st : cstate) (f : frame)
  : list event * cstate * option exn :=
  let enabled := enabled_at w (enabled_reads st) in
  match camera_infer w (self_now st) enabled f with
  | (tr, inl ex, self1) =>
      (tr, {| locals := locals st; enabled_reads := S (enabled_reads st);
              self_now := self1 |}, Some ex)
  | (tr, inr dets, self1) =>
      match fps_step (w_env w) (locals st) with
      | inl ex =>
          (tr, {| locals := locals st; enabled_reads := S (enabled_reads st);
                  self_now := self1 |}, Some ex)
      | inr (fe, locals1) =>
          let still := enabled_at w (S (enabled_reads st)) in
          (tr ++ fe ++ [frame_processed f dets]
              ++ (if still then [_update_stats dets] else [])
              ++ apply_delay (settings (self_now st)),
           {| locals := locals1; enabled_reads := S (S (enabled_reads st));
              self_now := self1 |}, None)
      end
  end.

Definition camera_tested (st : cstate) : cstate :=
  {| locals := tested (locals st); enabled_reads := enabled_reads st;
     self_now := self_now st |}.

(** [while self.running: ret, frame = cap.read(); if not ret: break; ...] *)
Fixpoint camera_loop (w : world) (fs : list frame) (st : cstate)
  : list event * cstate * option exn :=
  if running_at (w_env w) (tests (locals st)) then
    match fs with
    | [] => ([running_tested true; cap_read None], camera_tested st, None)
    | f :: rest =>
        let '(tr, st1, ex) := camera_body w (camera_tested st) f in
        match ex with
        | Some _ => (running_tested true :: cap_read (Some f) :: tr, st1, ex)
        | None =>
            let '(tr', st2, ex') := camera_loop w rest st1 in
            (running_tested true :: cap_read (Some f) :: tr ++ tr', st2, ex')
        end
    end
  else ([running_tested false], camera_tested st, None).

(** What [cap.read()] yields: a capture that is not opened gives no
    frame. *)
Definition camera_frames (v : video) : list frame :=
  if is_opened v then frames v else [].

(** [_process_camera()], [reads] readings of [self.inference_enabled]
    having been made before. *)
Definition _process_camera (w : world) (self : worker) (v : video) (reads : nat)
  : list event * worker :=
  let st0 := {| locals := {| fps_counter := 0; start_time := time_at (w_env w) 0;
                             output_writer := false; tests := 0; clock := 1 |};
                enabled_reads := reads; self_now := self |} in
  let '(tr, st, ex) := camera_loop w (camera_frames v) st0 in
  (tr ++ match ex with
         | Some x => [error_occurred ("Camera error: " ++ str x)%string]
         | None => []
         end
      ++ [cap_release],
   self_now st).

(** [if self.model is None and self.inference_enabled: self._load_model()]:
    the flag is read only if no model is loaded. *)
Definition load_at_start (w : world) (self : worker) : list event * (exn + worker) * nat :=
  match model self with
  | Some _ => ([], inr self, 0)
  | None =>
      if enabled_at w 0 then
        let '(tr, r) := _load_model w self in (tr, r, 1)
      else ([], inr self, 1)
  end.

(** [run()]: the events and the worker afterwards. *)
Definition run (w : world) (self : worker) (j : job) : list event * worker :=
  match load_at_start w self with
  | (tr, inl ex, _) => (tr ++ [error_occurred (str ex)], self)
  | (tr, inr self1, reads) =>
      match j with
      | ImageJob source =>
          let '(tr', self2) := _process_image w self1 source in (tr ++ tr', self2)
      | CameraJob v =>
          let '(tr', self2) := _process_camera w self1 v reads in (tr ++ tr', self2)
      | VideoJob source v =>
          (tr ++ _process_video (model_env w self1) (settings self1) source v, self1)
      | FolderJob source fs =>
          (tr ++ _process_folder (model_env w self1) (settings self1) source fs, self1)
      | OtherJob => (tr, self1)
      end
  end.

End YOLORun.

(** A worker as [YOLOWorker(model_name)] builds it and a world in which
    the inference stays disabled, as after [open_camera], and every model
    file loads. *)
Module RunExamples.
Import Runtime YOLORun.

Definition fresh_worker (name : string) : worker :=
  {| model_name := name; model := None; settings := Examples.default_params |}.

Definition preview_world : world :=
  {| w_env := Examples.quiet_env;
     enabled_at := fun _ => false;
     path_exists := fun _ => true;
     yolo_load := fun _ => None |}.

(** A world in which no model file can be loaded. *)
Definition broken_world : world :=
  {| w_env := Examples.quiet_env;
     enabled_at := fun _ => true;
     path_exists := fun _ => false;
     yolo_load := fun _ => Some (Error "No such file") |}.

End RunExamples.

(** ** The handlers of the main window that read the workers' signals
    ([src/main_window.py]) *)

Module MainWindow.
Import Runtime DM.

(** [current*100//total] of [on_progress_updated]; [None] stands for the
    [ZeroDivisionError] of a zero [total]. *)
Definition percent (current total : nat) : option nat :=
  if total =? 0 then None else Some (current * 100 / total).

(** The text [on_progress_updated] gives the progress bar. *)
Definition progress_format (current total : nat) : option string :=
  q ← percent current total;
  Some ("Processing: " ++ pretty current ++ "/" ++ pretty total
        ++ " (" ++ pretty q ++ "%)")%string.

(** What the handlers write besides the widgets. *)
Record window := mk_window {
  is_running : bool;
  detection_manager : DetectionManager;
  batch_results : list BatchSave.result;
  current_detections : list detection
}.

(** In each handler [now k] is the value of the [k]-th [datetime.now()]
    call made while it runs, and [rand k] the value of its [k]-th
    [random.randint] call. *)

(** [run_image_detection()], up to [self.worker.start()]. *)
Definition run_image_detection (now : nat -> datetime) (model_name : string)
    (self : window) : window :=
  {| is_running := is_running self;
     detection_manager :=
       snd (start_session (now 0) (now 1) "image" model_name (detection_manager self));
     batch_results := batch_results self;
     current_detections := current_detections self |}.

(** [on_image_processed(frame, detections)] *)
Definition on_image_processed (now : nat -> datetime) (f : frame) (dets : list detection)
    (self : window) : window :=
  let m1 := snd (add_detection (now 0) "image" dets (detection_manager self)) in
  {| is_running := is_running self;
     detection_manager := snd (end_session (now 1) m1);
     batch_results := batch_results self;
     current_detections := dets |}.

(** [run_folder_detection()], up to [self.worker.start()]. *)
Definition run_folder_detection (now : nat -> datetime) (model_name : string)
    (self : window) : window :=
  {| is_running := is_running self;
     detection_manager :=
       snd (start_session (now 0) (now 1) "folder" model_name (detection_manager self));
     batch_results := [];
     current_detections := current_detections self |}.

(** [on_batch_item_processed(filepath, frame, detections)] *)
Definition on_batch_item_processed (now : nat -> datetime) (filepath : string) (f : frame)
    (dets : list detection) (self : window) : window :=
  {| is_running := is_running self;
     detection_manager :=
       snd (add_detection (now 0) (Paths.basename filepath) dets (detection_manager self));
     batch_results := batch_results self ++ [(filepath, f, dets)];
     current_detections := current_detections self |}.

(** [on_batch_finished()] *)
Definition on_batch_finished (now : nat -> datetime) (self : window) : window :=
  {| is_running := is_running self;
     detection_manager := snd (end_session (now 0) (detection_manager self));
     batch_results := batch_results self;
     current_detections := current_detections self |}.

(** [run_video_detection()], up to [self.worker.start()]. *)
Definition run_video_detection (now : nat -> datetime) (model_name : string)
    (self : window) : window :=
  {| is_running := true;
     detection_manager :=
       snd (start_session (now 0) (now 1) "video" model_name (detection_manager self));
     batch_results := batch_results self;
     current_detections := current_detections self |}.

(** [stop_video_detection()]: the slot of the thread's [finished], also
    called by the STOP button. *)
Definition stop_video_detection (now : nat -> datetime) (self : window) : window :=
  {| is_running := false;
     detection_manager := snd (end_session (now 0) (detection_manager self));
     batch_results := batch_results self;
     current_detections := current_detections self |}.

(** [on_frame_processed(frame, detections)]: the frame is recorded when
    [random.randint(1, 30) == 1], under a random number. *)
Definition on_frame_processed (now : nat -> datetime) (rand : nat -> nat) (f : frame)
    (dets : list detection) (self : window) : window :=
  {| is_running := is_running self;
     detection_manager :=
       if rand 0 =? 1
       then snd (add_detection (now 0) ("frame_" ++ pretty (rand 1))%string dets
                   (detection_manager self))
       else detection_manager self;
     batch_results := batch_results self;
     current_detections := dets |}.

(** [toggle_detection()] in camera mode. *)
Definition toggle_camera (now : nat -> datetime) (model_name : string) (self : window)
  : window :=
  let running := negb (is_running self) in
  {| is_running := running;
     detection_manager :=
       if running
       then snd (start_session (now 0) (now 1) "camera" model_name (detection_manager self))
       else snd (end_session (now 0) (detection_manager self));
     batch_results := batch_results self;
     current_detections := current_detections self |}.

(** The slots [run_image_detection] connects: [frame_processed] to
    [on_image_processed]; [stats_updated] and [error_occurred] go to slots
    that only write widgets. [now_at n] is the clock of the [n]-th handler
    that runs, [rand_at n] its random numbers. *)
Definition image_slot (now_at : nat -> nat -> datetime) (n : nat) (ev : YOLOWorker.event)
    (self : window) : window :=
  match ev with
  | YOLOWorker.frame_processed f dets => on_image_processed (now_at n) f dets self
  | _ => self
  end.

(** The slots [run_folder_detection] connects: [batch_item_processed] to
    [on_batch_item_processed]; the others only write widgets. *)
Definition folder_slot (now_at : nat -> nat -> datetime) (n : nat) (ev : YOLOWorker.event)
    (self : window) : window :=
  match ev with
  | YOLOWorker.batch_item_processed filepath f dets =>
      on_batch_item_processed (now_at n) filepath f dets self
  | _ => self
  end.

(** The slots [run_video_detection] and [open_camera] connect:
    [frame_processed] to [on_frame_processed]. *)
Definition video_slot (now_at : nat -> nat -> datetime) (rand_at : nat -> nat -> nat)
    (n : nat) (ev : YOLOWorker.event) (self : window) : window :=
  match ev with
  | YOLOWorker.frame_processed f dets =>
      on_frame_processed (now_at n) (rand_at n) f dets self
  | _ => self
  end.

(** The events of a run reach the slots in the order of their emission;
    [n] counts the handlers run before. *)
Fixpoint deliver (slot : nat -> YOLOWorker.event -> window -> window) (n : nat)
    (tr : list YOLOWorker.event) (self : window) : window :=
  match tr with
  | [] => self
  | ev :: rest => deliver slot (S n) rest (slot n ev self)
  end.

(** An image run as the window sees it: the start, then the signals. *)
Definition image_run (now_at : nat -> nat -> datetime) (model_name : string)
    (tr : list YOLOWorker.event) (self : window) : window :=
  deliver (image_slot now_at) 1 tr (run_image_detection (now_at 0) model_name self).

(** A folder run as the window sees it: the start, the signals, then the
    thread's [finished]. *)
Definition folder_run (now_at : nat -> nat -> datetime) (model_name : string)
    (tr : list YOLOWorker.event) (self : window) : window :=
  on_batch_finished (now_at (S (length tr)))
    (deliver (folder_slot now_at) 1 tr (run_folder_detection (now_at 0) model_name self)).

(** What the window receives once [run_video_detection] started the
    worker: a signal of the worker or a call of [stop_video_detection],
    by the STOP button or as the slot of the thread's [finished]. *)
Inductive video_input :=
| Signal (ev : YOLOWorker.event)
| Stopped.

Definition video_step (now_at : nat -> nat -> datetime) (rand_at : nat -> nat -> nat)
    (n : nat) (inp : video_input) (self : window) : window :=
  match inp with
  | Signal ev => video_slot now_at rand_at n ev self
  | Stopped => stop_video_detection (now_at n) self
  end.

Fixpoint video_session (now_at : nat -> nat -> datetime) (rand_at : nat -> nat -> nat)
    (n : nat) (inputs : list video_input) (self : window) : window :=
  match inputs with
  | [] => self
  | inp :: rest =>
      video_session now_at rand_at (S n) rest (video_step now_at rand_at n inp self)
  end.

(** A video run as the window sees it: the start, then the signals and
    the calls of [stop_video_detection] in the order they arrive. *)
Definition video_run (now_at : nat -> nat -> datetime) (rand_at : nat -> nat -> nat)
    (model_name : string) (inputs : list video_input) (self : window) : window :=
  video_session now_at rand_at 1 inputs (run_video_detection (now_at 0) model_name self).

(** The signals received before the first call of
    [stop_video_detection]. *)
Fixpoint before_stop (inputs : list video_input) : list YOLOWorker.event :=
  match inputs with
  | Signal ev :: rest => ev :: before_stop rest
  | _ => []
  end.

(** What the window receives during a camera preview: a click on the
    detection button or a frame of the worker. *)
Inductive camera_input :=
| Toggle
| Frame (f : frame) (dets : list detection).

Definition camera_step (now_at : nat -> nat -> datetime) (rand_at : nat -> nat -> nat)
    (model_name : string) (n : nat) (inp : camera_input) (self : window) : window :=
  match inp with
  | Toggle => toggle_camera (now_at n) model_name self
  | Frame f dets => on_frame_processed (now_at n) (rand_at n) f dets self
  end.

Fixpoint camera_session (now_at : nat -> nat -> datetime) (rand_at : nat -> nat -> nat)
    (model_name : string) (n : nat) (inputs : list camera_input) (self : window) : window :=
  match inputs with
  | [] => self
  | inp :: rest =>
      camera_session now_at rand_at model_name (S n) rest
        (camera_step now_at rand_at model_name n inp self)
  end.

(** The clicks among the inputs. *)
Definition toggles (inputs : list camera_input) : nat :=
  length (List.filter (fun inp => match inp with Toggle => true | _ => false end) inputs).

(** What identifies a recorded frame, its time left aside, and the frame
    a folder item is recorded as. *)
Definition frame_key (fr : det_frame) : string * list detection :=
  (frame_id fr, f_detections fr).

Definition item_key (it : BatchSave.result) : string * list detection :=
  (Paths.basename (fst (fst it)), snd it).

(** Whether a session is being written. *)
Definition session_open (m : DetectionManager) : bool :=
  match current_session m with
  | Some _ => true
  | None => false
  end.

(** A window as [__init__] leaves it. *)
Definition new_window : window :=
  {| is_running := false; detection_manager := init; batch_results := [];
     current_detections := [] |}.

End MainWindow.

(** * Proofs *)

(** Two binary64 numbers with different decodings are different. *)
Lemma float_neq (x y : float) : Prim2SF x <> Prim2SF y -> x <> y.
Proof. intros H ->. by apply H. Qed.

Section Perm3.
Context {A : Type}.

Lemma Permutation_length_3_inv (a b c : A) (l : list A) :
  Permutation [a; b; c] l ->
  l = [a; b; c] \/ l = [a; c; b] \/ l = [b; a; c] \/
  l = [b; c; a] \/ l = [c; a; b] \/ l = [c; b; a].
Proof.
  intros H. pose proof (Permutation_length H) as Hl.
  destruct l as [|x [|y [|z [|]]]]; try discriminate. clear Hl.
  assert (Ha : In a [x; y; z]) by (eapply Permutation_in; [exact H | left; reflexivity]).
  destruct Ha as [->|[->|[->|[]]]].
  - apply Permutation_cons_inv, Permutation_length_2_inv in H.
    destruct H as [[= <- <-]|[= <- <-]]; auto.
  - assert (H' : Permutation [a; b; c] (a :: [x; z]))
      by (etransitivity; [exact H | apply perm_swap]).
    apply Permutation_cons_inv, Permutation_length_2_inv in H'.
    destruct H' as [[= <- <-]|[= <- <-]]; auto 7.
  - assert (H' : Permutation [a; b; c] (a :: [x; y])).
    { etransitivity; [exact H|].
      etransitivity; [apply perm_skip, perm_swap | apply perm_swap]. }
    apply Permutation_cons_inv, Permutation_length_2_inv in H'.
    destruct H' as [[= <- <-]|[= <- <-]]; auto 7.
Qed.
End Perm3.

Module DMFacts.
Import DM DMSpec.

Lemma occurrences_cons name d dets :
  occurrences name (d :: dets) =
  (if decide (class_name d = name) then 1 else 0) + occurrences name dets.
Proof.
  unfold occurrences. rewrite filter_cons. destruct (decide _); reflexivity.
Qed.

Lemma occurrences_app name l1 l2 :
  occurrences name (l1 ++ l2) = occurrences name l1 + occurrences name l2.
Proof. unfold occurrences. rewrite filter_app, length_app. reflexivity. Qed.

(** The loop over [detections] on a set never raises; it adds the names
    to the set and the occurrences to the counts. *)
Lemma count_classes_set dets : forall st s,
  unique_classes st = ClassSet s ->
  exists st',
    count_classes dets st = (Returned tt, st') /\
    total_frames st' = total_frames st /\
    total_detections st' = total_detections st /\
    avg_confidence st' = avg_confidence st /\
    unique_classes st' = ClassSet (list_to_set (class_names dets) ∪ s) /\
    forall name,
      class_counts st' !! name =
      match occurrences name dets with
      | O => class_counts st !! name
      | S _ => Some (default 0 (class_counts st !! name) + occurrences name dets)
      end.
Proof.
  induction dets as [|d dets IH]; intros st s Hs.
  - exists st. simpl. repeat split; auto.
    rewrite Hs. f_equal. set_solver.
  - simpl. unfold count_class. rewrite Hs.
    match goal with
    | |- context [count_classes dets ?x] =>
        destruct (IH x _ eq_refl) as (st' & Hrun & Hf & Hd & Ha & Hu & Hc)
    end.
    exists st'. rewrite Hrun. simpl in *.
    repeat split; auto.
    + rewrite Hu. f_equal. set_solver.
    + intros name. rewrite Hc, occurrences_cons.
      destruct (decide (class_name d = name)) as [->|Hne].
      * rewrite lookup_insert_eq. simpl.
        destruct (occurrences name dets); simpl; f_equal; lia.
      * rewrite lookup_insert_ne by done. reflexivity.
Qed.


Lemma all_detections_snoc cs fr :
  concat (map f_detections (s_detections cs ++ [fr])) =
  all_detections cs ++ f_detections fr.
Proof.
  unfold all_detections. rewrite map_app, concat_app. simpl.
  rewrite app_nil_r. reflexivity.
Qed.

Lemma length_all_detections frames :
  length (concat (map f_detections frames)) =
  sum_list_with (fun fr => length (f_detections fr)) frames.
Proof.
  induction frames as [|fr frames IH]; simpl; [reflexivity|].
  rewrite length_app, IH. reflexivity.
Qed.

Lemma start_session_inv n1 n2 mo md m :
  inv m -> inv (snd (start_session n1 n2 mo md m)).
Proof.
  intros [_ Hh]. split; [|exact Hh].
  simpl. intros cs [= <-]. unfold open_ok, counts_consistent. simpl.
  repeat split; auto.
Qed.

Lemma add_detection_inv n fid dets m :
  inv m -> inv (snd (add_detection n fid dets m)) /\
           fst (add_detection n fid dets m) = Returned tt.
Proof.
  intros [Ho Hh]. unfold add_detection.
  destruct (current_session m) as [cs|] eqn:Hcs; [|split; [split|]; simpl; auto; congruence].
  destruct (Ho cs eq_refl) as (Hend & (Hf & Hd & Hu & Hc) & Ha).
  simpl.
  match goal with
  | |- context [count_classes dets ?x] =>
      destruct (count_classes_set dets x _ Hu) as (st' & Hrun & Hf' & Hd' & Ha' & Hu' & Hc')
  end.
  rewrite Hrun. simpl in *. split; [|reflexivity].
  split; [|exact Hh].
  simpl. intros cs' [= <-].
  unfold open_ok, counts_consistent, all_detections. simpl.
  rewrite all_detections_snoc.
  repeat split; auto.
  - rewrite Hf', length_app. simpl. lia.
  - rewrite Hd', sum_list_with_app. simpl. lia.
  - rewrite Hu'. f_equal. unfold class_names. rewrite map_app, list_to_set_app_L.
    set_solver.
  - intros name. rewrite Hc', Hc, occurrences_app. simpl.
    generalize (occurrences name dets) (occurrences name (all_detections cs)).
    intros [|a] [|b]; simpl; f_equal; lia.
  - congruence.
Qed.

Lemma end_session_inv n m : inv m -> inv (snd (end_session n m)).
Proof.
  intros [Ho Hh]. unfold end_session.
  destruct (current_session m) as [cs|] eqn:Hcs; [|split; simpl; auto; congruence].
  destruct (conf_totals (s_detections cs)) as [tc n0]. simpl.
  split; [simpl; congruence|].
  simpl. apply Forall_app. split; [exact Hh|].
  constructor; [|constructor]. split; simpl; eauto.
Qed.

Lemma clear_history_inv m : inv (snd (clear_history m)).
Proof. split; simpl; [congruence|constructor]. Qed.

Lemma init_inv : inv init.
Proof. split; simpl; [congruence|constructor]. Qed.

Lemma run_call_inv c m : inv m -> inv (snd (run_call c m)).
Proof.
  destruct c; simpl.
  - apply start_session_inv.
  - intros H. exact (proj1 (add_detection_inv _ _ _ _ H)).
  - apply end_session_inv.
  - intros _. apply (clear_history_inv m).
Qed.

Lemma reachable_inv m : reachable m -> inv m.
Proof. induction 1; [apply init_inv | by apply run_call_inv]. Qed.

Lemma after_reachable cs : reachable (after cs).
Proof.
  unfold after. generalize init reach_init.
  induction cs as [|c cs IH]; intros m Hm; simpl; [exact Hm|].
  apply IH. by constructor.
Qed.

(** No call raises on a reachable manager. *)
Lemma run_call_returns c m : reachable m -> fst (run_call c m) = Returned tt.
Proof.
  intros Hm. destruct c; simpl; try reflexivity.
  - exact (proj2 (add_detection_inv _ _ _ _ (reachable_inv _ Hm))).
  - unfold end_session. destruct (current_session m); [|reflexivity].
    destruct (conf_totals _). reflexivity.
Qed.

(** The two nested loops of [end_session] accumulate over the detections
    of all frames in order. *)
Lemma sum_frame_spec dets : forall acc fid ts,
  sum_frame acc {| frame_id := fid; timestamp := ts; f_detections := dets |} =
  (fold_left (fun a x => (a + x)%float) (map confidence dets) (fst acc),
   snd acc + length dets).
Proof.
  unfold sum_frame. simpl.
  induction dets as [|d dets IH]; intros [tc n] fid ts; simpl.
  - f_equal. lia.
  - rewrite (IH _ fid ts). simpl. f_equal. lia.
Qed.

Lemma conf_totals_from frames : forall acc,
  fold_left sum_frame frames acc =
  (fold_left (fun a x => (a + x)%float)
             (map confidence (concat (map f_detections frames))) (fst acc),
   snd acc + length (concat (map f_detections frames))).
Proof.
  induction frames as [|[fid ts dets] frames IH]; intros [tc n]; simpl.
  - f_equal. lia.
  - rewrite IH, sum_frame_spec. simpl.
    rewrite map_app, fold_left_app, length_app. f_equal. lia.
Qed.

Lemma conf_totals_spec cs :
  conf_totals (s_detections cs) =
  (fsum (map confidence (all_detections cs)), length (all_detections cs)).
Proof. unfold conf_totals. rewrite conf_totals_from. reflexivity. Qed.

End DMFacts.

Module DMClaims.
Import DM DMSpec DMFacts DMExamples.

(** C1 (counterexample): with one detection of confidence 0.9 recorded in
    the open session, [get_session_stats] still reports [avg_confidence]
    0.0, which is not the mean 0.9 of the recorded confidences. *)
Lemma C1_avg_confidence_not_mean_while_open :
  reachable one_frame /\
  exists cs st,
    current_session one_frame = Some cs /\
    get_session_stats one_frame = Some st /\
    map confidence (all_detections cs) = [0.9%float] /\
    avg_confidence st = 0%float /\
    mean_confidence (all_detections cs) = 0.9%float /\
    avg_confidence st <> mean_confidence (all_detections cs).
Proof.
  split; [apply after_reachable|].
  assert (Hn : match current_session one_frame with
               | Some c => map confidence (all_detections c) = [0.9%float] /\
                           avg_confidence (stats c) = 0%float /\
                           mean_confidence (all_detections c) = 0.9%float
               | None => False
               end) by (vm_compute; repeat split).
  destruct (current_session one_frame) as [cs|] eqn:Hcs; [|contradiction].
  destruct Hn as (Hn1 & Hn2 & Hn3).
  exists cs, (stats cs).
  split; [reflexivity|].
  split; [unfold get_session_stats; rewrite Hcs; reflexivity|].
  split; [exact Hn1|]. split; [exact Hn2|]. split; [exact Hn3|].
  rewrite Hn2, Hn3. apply float_neq. vm_compute. discriminate.
Qed.

(** C1 (amended): in every reachable manager the counters, the class set
    and the per-class counts of the open session agree with its recorded
    frames, and [avg_confidence] is still the 0.0 it was created with. *)
Theorem C1_open_stats_consistent m cs st :
  reachable m ->
  current_session m = Some cs ->
  get_session_stats m = Some st ->
  total_frames st = length (s_detections cs) /\
  total_detections st =
    sum_list_with (fun fr => length (f_detections fr)) (s_detections cs) /\
  unique_classes st = ClassSet (list_to_set (class_names (all_detections cs))) /\
  (forall name,
     class_counts st !! name =
     match occurrences name (all_detections cs) with
     | O => None
     | S n => Some (S n)
     end) /\
  avg_confidence st = 0%float.
Proof.
  intros Hm Hcs Hst. unfold get_session_stats in Hst. rewrite Hcs in Hst.
  injection Hst as <-.
  destruct (reachable_inv m Hm) as [Ho _].
  destruct (Ho cs Hcs) as (_ & (Hf & Hd & Hu & Hc) & Ha).
  auto.
Qed.

Lemma C1_open_stats_consistent_witness :
  reachable three_confidences /\
  exists cs st,
    current_session three_confidences = Some cs /\
    get_session_stats three_confidences = Some st /\
    length (s_detections cs) = 2 /\
    total_frames st = 2 /\
    total_detections st = 3 /\
    avg_confidence st = 0%float.
Proof.
  assert (Hr : reachable three_confidences) by apply after_reachable.
  split; [exact Hr|].
  assert (Hn : match current_session three_confidences with
               | Some c => length (s_detections c) = 2 /\
                           sum_list_with (fun fr => length (f_detections fr))
                                         (s_detections c) = 3
               | None => False
               end) by (vm_compute; split; reflexivity).
  destruct (current_session three_confidences) as [cs|] eqn:Hcs; [|contradiction].
  destruct Hn as [Hn2 Hn3].
  assert (Hst : get_session_stats three_confidences = Some (stats cs))
    by (unfold get_session_stats; rewrite Hcs; reflexivity).
  destruct (C1_open_stats_consistent three_confidences cs (stats cs) Hr Hcs Hst)
    as (Hf & Hd & _ & _ & Ha).
  exists cs, (stats cs).
  split; [reflexivity|]. split; [exact Hst|]. split; [exact Hn2|].
  split; [rewrite Hf; exact Hn2|]. split; [rewrite Hd; exact Hn3|exact Ha].
Defined.


(** C2 (counterexample): on a manager whose session is open,
    [start_session] returns normally; no exception is raised. *)
Lemma C2_start_session_on_open_session_returns :
  reachable one_frame /\
  is_Some (current_session one_frame) /\
  fst (start_session later later "video" "m2" one_frame) = Returned tt /\
  forall e, fst (start_session later later "video" "m2" one_frame) <> Raised e.
Proof.
  split; [apply after_reachable|].
  split; [|split; [reflexivity|discriminate]].
  assert (Hn : match current_session one_frame with Some _ => True | None => False end)
    by (vm_compute; exact I).
  destruct (current_session one_frame); [by eexists|contradiction].
Qed.

(** C2 (amended): [start_session] never fails, whether a session is open
    or not: it returns normally, leaves the history as it is and makes a
    new empty session the current one; a session that was open is dropped
    without being closed or appended to the history. *)
Theorem C2_start_session_replaces now_id now_start mode_ model_name m :
  exists cs,
    start_session now_id now_start mode_ model_name m =
      (Returned tt, {| detection_history := detection_history m;
                       current_session := Some cs |}) /\
    session_id cs = strftime_id now_id /\
    mode cs = mode_ /\ model cs = model_name /\
    start_time cs = now_start /\ end_time cs = None /\
    s_detections cs = [] /\ stats cs = fresh_stats /\
    (forall old, current_session m = Some old -> reachable m ->
       old ∉ detection_history (snd (start_session now_id now_start mode_ model_name m))).
Proof.
  eexists. split; [reflexivity|]. simpl. repeat split.
  intros old Hold Hm Hin.
  destruct (reachable_inv m Hm) as [Ho Hh].
  destruct (Ho old Hold) as (Hend & _).
  rewrite Forall_forall in Hh. destruct (Hh old Hin) as [[t Ht] _]. congruence.
Qed.

Lemma C2_start_session_replaces_witness :
  exists cs,
    start_session later later "video" "m2" one_frame =
      (Returned tt, {| detection_history := detection_history one_frame;
                       current_session := Some cs |}) /\
    s_detections cs = [] /\
    forall old, current_session one_frame = Some old ->
      old ∉ detection_history (snd (start_session later later "video" "m2" one_frame)).
Proof.
  destruct (C2_start_session_replaces later later "video" "m2" one_frame)
    as (cs & Heq & _ & _ & _ & _ & _ & Hd & _ & Hold).
  exists cs. split; [exact Heq|]. split; [exact Hd|].
  intros old Ho. apply (Hold old Ho). apply after_reachable.
Defined.


Lemma end_session_closed now m :
  current_session m = None -> end_session now m = (Returned tt, m).
Proof. intros H. unfold end_session. rewrite H. reflexivity. Qed.

Lemma end_session_open now m cs :
  current_session m = Some cs ->
  end_session now m =
  (Returned tt,
   {| detection_history := detection_history m ++
        [ {| session_id := session_id cs; mode := mode cs; model := model cs;
             start_time := start_time cs; end_time := Some now;
             s_detections := s_detections cs;
             stats :=
               {| total_frames := total_frames (stats cs);
                  total_detections := total_detections (stats cs);
                  unique_classes := ClassList (list_of_classes (unique_classes (stats cs)));
                  avg_confidence :=
                    if 0 <? length (all_detections cs)
                    then (fsum (map confidence (all_detections cs)) /
                          float_of_nat (length (all_detections cs)))%float
                    else avg_confidence (stats cs);
                  class_counts := class_counts (stats cs) |} |} ];
      current_session := None |}).
Proof.
  intros H. unfold end_session. rewrite H, conf_totals_spec. reflexivity.
Qed.

(** The mean of 0.9, 0.8 and 0.7, accumulated in any order, is within
    1e-9 of 0.8 (it is 0.8000000000000002 or 0.7999999999999999). *)
Lemma mean_of_three_confidences (l : list float) :
  Permutation [0.9; 0.8; 0.7]%float l ->
  within (fsum l / float_of_nat (length l))%float (8 # 10) (1 # 1000000000) = true.
Proof.
  intros H. apply Permutation_length_3_inv in H.
  destruct H as [->|[->|[->|[->|[->| ->]]]]]; vm_compute; reflexivity.
Qed.

(** C3: [end_session] does nothing when no session is open; otherwise it
    returns normally, stamps [end_time], sets [avg_confidence] to the mean
    of the confidences of all recorded detections (0.0 when there are
    none), appends the session to the history and empties the current
    session; the other fields of the session and the counters are kept.
    With confidences 0.9, 0.8 and 0.7 recorded, however they are spread
    over frames and whatever their order, the mean is 0.8 to within the
    1e-9 of the specification (binary64 rounding puts it one unit in the
    last place next to 0.8). *)
Theorem C3_end_session now m :
  reachable m ->
  (current_session m = None -> end_session now m = (Returned tt, m)) /\
  (forall cs, current_session m = Some cs ->
     exists cs',
       end_session now m =
         (Returned tt, {| detection_history := detection_history m ++ [cs'];
                          current_session := None |}) /\
       end_time cs' = Some now /\
       avg_confidence (stats cs') = mean_confidence (all_detections cs) /\
       session_id cs' = session_id cs /\ mode cs' = mode cs /\
       model cs' = model cs /\ start_time cs' = start_time cs /\
       s_detections cs' = s_detections cs /\
       total_frames (stats cs') = total_frames (stats cs) /\
       total_detections (stats cs') = total_detections (stats cs) /\
       class_counts (stats cs') = class_counts (stats cs) /\
       (Permutation [0.9; 0.8; 0.7]%float (map confidence (all_detections cs)) ->
        within (avg_confidence (stats cs')) (8 # 10) (1 # 1000000000) = true)).
Proof.
  intros Hm. split; [apply end_session_closed|].
  intros cs Hcs. eexists. split; [apply (end_session_open now m cs Hcs)|].
  destruct (reachable_inv m Hm) as [Ho _].
  destruct (Ho cs Hcs) as (_ & _ & Ha).
  simpl. repeat split.
  - unfold mean_confidence. destruct (all_detections cs); [exact Ha|reflexivity].
  - intros Hp. pose proof (Permutation_length Hp) as Hl.
    rewrite length_map in Hl. rewrite <- Hl. simpl.
    pose proof (mean_of_three_confidences _ Hp) as Hw.
    rewrite length_map, <- Hl in Hw. exact Hw.
Qed.

Lemma C3_end_session_witness :
  reachable three_confidences /\
  exists cs cs',
    current_session three_confidences = Some cs /\
    map confidence (all_detections cs) = [0.9; 0.8; 0.7]%float /\
    end_session later three_confidences =
      (Returned tt,
       {| detection_history := detection_history three_confidences ++ [cs'];
          current_session := None |}) /\
    end_time cs' = Some later /\
    within (avg_confidence (stats cs')) (8 # 10) (1 # 1000000000) = true.
Proof.
  assert (Hr : reachable three_confidences) by apply after_reachable.
  split; [exact Hr|].
  assert (Hn : match current_session three_confidences with
               | Some c => map confidence (all_detections c) = [0.9; 0.8; 0.7]%float
               | None => False
               end) by (vm_compute; reflexivity).
  destruct (current_session three_confidences) as [cs|] eqn:Hcs; [|contradiction].
  destruct (proj2 (C3_end_session later three_confidences Hr) cs Hcs)
    as (cs' & Heq & Hend & _ & _ & _ & _ & _ & _ & _ & _ & _ & Hw).
  exists cs, cs'.
  split; [reflexivity|]. split; [exact Hn|]. split; [exact Heq|]. split; [exact Hend|].
  apply Hw. rewrite Hn. reflexivity.
Defined.


(** The exact value behind the tolerance: with 0.9 and 0.8 recorded in one
    frame and 0.7 in the next, the finalized [avg_confidence] is the
    binary64 number 0.8000000000000002, the neighbour of 0.8. *)
Remark mean_of_three_exact_value :
  (avg_confidence ∘ stats <$> detection_history three_closed)
    = [0x1.999999999999bp-1%float] /\
  0x1.999999999999bp-1%float <> 0.8%float.
Proof.
  split; [vm_compute; reflexivity|].
  apply float_neq. vm_compute. discriminate.
Qed.

(** What [add_detection] does to an open session whose class set is a
    set. *)
Lemma add_detection_open now fid dets m cs s :
  current_session m = Some cs ->
  unique_classes (stats cs) = ClassSet s ->
  exists cs',
    add_detection now fid dets m =
      (Returned tt, {| detection_history := detection_history m;
                       current_session := Some cs' |}) /\
    s_detections cs' = s_detections cs ++
      [ {| frame_id := fid; timestamp := now; f_detections := dets |} ] /\
    total_frames (stats cs') = total_frames (stats cs) + 1 /\
    total_detections (stats cs') = total_detections (stats cs) + length dets /\
    unique_classes (stats cs') = ClassSet (s ∪ list_to_set (class_names dets)) /\
    (forall name,
       default 0 (class_counts (stats cs') !! name) =
       default 0 (class_counts (stats cs) !! name) + occurrences name dets) /\
    (forall name, occurrences name dets = 0 ->
       class_counts (stats cs') !! name = class_counts (stats cs) !! name) /\
    avg_confidence (stats cs') = avg_confidence (stats cs) /\
    session_id cs' = session_id cs /\ mode cs' = mode cs /\
    model cs' = model cs /\ start_time cs' = start_time cs /\
    end_time cs' = end_time cs.
Proof.
  intros Hcs Hu. unfold add_detection. rewrite Hcs. simpl.
  match goal with
  | |- context [count_classes dets ?x] =>
      destruct (count_classes_set dets x s Hu) as (st' & Hrun & Hf & Hd & Ha & Hu' & Hc)
  end.
  rewrite Hrun. eexists. split; [reflexivity|]. simpl in *.
  repeat split; auto.
  - rewrite Hu'. f_equal. set_solver.
  - intros name. rewrite Hc. destruct (occurrences name dets); simpl; lia.
  - intros name H0. rewrite Hc, H0. reflexivity.
Qed.

(** C6: [add_detection] leaves a manager without open session as it is;
    on an open session it returns normally, appends the entry
    [(frame_id, timestamp, detections)] to the frames, adds 1 to
    [total_frames] and [len(detections)] to [total_detections], adds the
    class names of the detections to the class set and, for every class
    name, adds its number of occurrences among the detections to its
    count; nothing else changes. *)
Theorem C6_add_detection now fid dets m :
  reachable m ->
  (current_session m = None -> add_detection now fid dets m = (Returned tt, m)) /\
  (forall cs, current_session m = Some cs ->
     exists cs' s,
       add_detection now fid dets m =
         (Returned tt, {| detection_history := detection_history m;
                          current_session := Some cs' |}) /\
       s_detections cs' = s_detections cs ++
         [ {| frame_id := fid; timestamp := now; f_detections := dets |} ] /\
       total_frames (stats cs') = total_frames (stats cs) + 1 /\
       total_detections (stats cs') = total_detections (stats cs) + length dets /\
       unique_classes (stats cs) = ClassSet s /\
       unique_classes (stats cs') = ClassSet (s ∪ list_to_set (class_names dets)) /\
       (forall name,
          default 0 (class_counts (stats cs') !! name) =
          default 0 (class_counts (stats cs) !! name) + occurrences name dets) /\
       (forall name, occurrences name dets = 0 ->
          class_counts (stats cs') !! name = class_counts (stats cs) !! name) /\
       avg_confidence (stats cs') = avg_confidence (stats cs) /\
       session_id cs' = session_id cs /\ mode cs' = mode cs /\
       model cs' = model cs /\ start_time cs' = start_time cs /\
       end_time cs' = end_time cs).
Proof.
  intros Hm. split.
  - intros H. unfold add_detection. rewrite H. reflexivity.
  - intros cs Hcs.
    destruct (reachable_inv m Hm) as [Ho _].
    destruct (Ho cs Hcs) as (_ & (_ & _ & Hu & _) & _).
    destruct (add_detection_open now fid dets m cs _ Hcs Hu) as (cs' & H).
    exists cs', (list_to_set (class_names (all_detections cs))).
    intuition.
Qed.

Lemma C6_add_detection_witness :
  reachable one_frame /\
  add_detection later "f2" [det 0.5 "dog"] init = (Returned tt, init) /\
  exists cs cs',
    current_session one_frame = Some cs /\
    add_detection later "f2" [det 0.5 "dog"; det 0.4 "dog"] one_frame =
      (Returned tt, {| detection_history := detection_history one_frame;
                       current_session := Some cs' |}) /\
    total_frames (stats cs') = 2 /\
    total_detections (stats cs') = 3 /\
    default 0 (class_counts (stats cs') !! "dog") = 2 /\
    default 0 (class_counts (stats cs') !! "cat") = 1.
Proof.
  assert (Hr : reachable one_frame) by apply after_reachable.
  split; [exact Hr|].
  split; [apply (proj1 (C6_add_detection later "f2" [det 0.5 "dog"] init reach_init));
          reflexivity|].
  assert (Hn : match current_session one_frame with
               | Some c => total_frames (stats c) = 1 /\
                           total_detections (stats c) = 1 /\
                           default 0 (class_counts (stats c) !! "dog") = 0 /\
                           default 0 (class_counts (stats c) !! "cat") = 1
               | None => False
               end) by (vm_compute; repeat split).
  destruct (current_session one_frame) as [cs|] eqn:Hcs; [|contradiction].
  destruct Hn as (Hn1 & Hn2 & Hn3 & Hn4).
  destruct (proj2 (C6_add_detection later "f2" [det 0.5 "dog"; det 0.4 "dog"] one_frame Hr)
              cs Hcs)
    as (cs' & s & Heq & _ & Hf & Hd & _ & _ & Hc & _).
  exists cs, cs'.
  split; [reflexivity|]. split; [exact Heq|].
  split; [rewrite Hf, Hn1; reflexivity|].
  split; [rewrite Hd, Hn2; reflexivity|].
  split; [rewrite (Hc "dog"), Hn3; reflexivity|rewrite (Hc "cat"), Hn4; reflexivity].
Defined.

(** C7: a second [end_session] right after a first one changes nothing:
    both return normally and the manager after the second (history with
    all its sessions and their stats, and the empty current session) is
    the manager after the first. *)
Theorem C7_end_session_idempotent now1 now2 m :
  fst (end_session now1 m) = Returned tt /\
  current_session (snd (end_session now1 m)) = None /\
  end_session now2 (snd (end_session now1 m)) = (Returned tt, snd (end_session now1 m)) /\
  length (detection_history (snd (end_session now2 (snd (end_session now1 m))))) =
  length (detection_history (snd (end_session now1 m))).
Proof.
  assert (H1 : fst (end_session now1 m) = Returned tt /\
               current_session (snd (end_session now1 m)) = None).
  { unfold end_session. destruct (current_session m) eqn:Hcs.
    - destruct (conf_totals _). split; reflexivity.
    - split; [reflexivity|exact Hcs]. }
  destruct H1 as [Hr Hn].
  pose proof (end_session_closed now2 _ Hn) as H2.
  rewrite H2. auto.
Qed.

(** C8: in every reachable manager each session of the history is closed
    (its [end_time] is set) and the open session, if any, is not in the
    history; a call of [start_session], [add_detection] or [end_session]
    keeps the history as a prefix of the new one, while [clear_history]
    empties it. *)
Theorem C8_history_closed_append_only m :
  reachable m ->
  (forall s, s ∈ detection_history m -> is_Some (end_time s)) /\
  (forall cs, current_session m = Some cs -> cs ∉ detection_history m) /\
  (forall c, c <> ClearHistory ->
     detection_history m `prefix_of` detection_history (snd (run_call c m))) /\
  detection_history (snd (clear_history m)) = [].
Proof.
  intros Hm. destruct (reachable_inv m Hm) as [Ho Hh].
  rewrite Forall_forall in Hh.
  split; [intros s Hs; apply (Hh s Hs)|].
  split.
  { intros cs Hcs Hin. destruct (Ho cs Hcs) as (Hend & _).
    destruct (Hh cs Hin) as [[t Ht] _]. congruence. }
  split; [|reflexivity].
  intros c Hc. destruct c; simpl; try done.
  - unfold add_detection. destruct (current_session m); [|done].
    simpl. destruct (count_classes _ _). done.
  - unfold end_session. destruct (current_session m); [|done].
    destruct (conf_totals _). simpl. by apply prefix_app_r.
Qed.

Lemma C8_history_closed_append_only_witness :
  reachable three_closed /\
  (forall s, s ∈ detection_history three_closed -> is_Some (end_time s)) /\
  length (detection_history three_closed) = 1 /\
  detection_history three_closed `prefix_of`
  detection_history (snd (start_session later later "image" "m2" three_closed)).
Proof.
  assert (Hr : reachable three_closed) by apply after_reachable.
  split; [exact Hr|].
  destruct (C8_history_closed_append_only three_closed Hr) as (Hclosed & _ & Happ & _).
  split; [exact Hclosed|]. split; [vm_compute; reflexivity|].
  apply (Happ (StartSession later later "image" "m2")). discriminate.
Defined.

End DMClaims.

Module HelperFacts.
Import Helper Examples.

Lemma leb_lex_le a b : String.leb a b = true <-> lex_le a b.
Proof.
  unfold String.leb, lex_le.
  destruct (String.compare a b) eqn:Hc.
  - apply String_as_OT.cmp_eq in Hc. tauto.
  - apply String_as_OT.cmp_lt in Hc. tauto.
  - split; [discriminate|].
    intros [Heq|Hlt].
    + apply String_as_OT.cmp_eq in Heq. unfold String_as_OT.cmp in Heq. congruence.
    + apply String_as_OT.cmp_lt in Hlt. unfold String_as_OT.cmp in Hlt. congruence.
Qed.

Lemma lex_le_trans a b c : lex_le a b -> lex_le b c -> lex_le a c.
Proof.
  intros [->|H1] [->|H2]; unfold lex_le; auto.
  right. exact (String_as_OT.lt_trans _ _ _ H1 H2).
Qed.

Lemma sorted_lex l : StronglySorted lex_le (sorted l).
Proof.
  apply Sorted_StronglySorted; [intros a b c; apply lex_le_trans|].
  unfold sorted.
  pose proof (StringSort.Sorted_sort l) as H.
  induction H as [|x l' Hs IH Hhd]; constructor; auto.
  destruct Hhd; constructor. by apply leb_lex_le.
Qed.

Lemma sorted_perm l : Permutation l (sorted l).
Proof. apply StringSort.Permuted_sort. Qed.

End HelperFacts.

Module FolderFacts.
Import Runtime Helper Examples RunSpec HelperFacts.

Lemma count_decodable_le e files : length (List.filter (decodable e) files) <= length files.
Proof. induction files as [|f files IH]; simpl; [lia|]. destruct (decodable e f); simpl; lia. Qed.

Lemma count_decodable_lt e files path :
  path ∈ files -> imread e path = None ->
  length (List.filter (decodable e) files) < length files.
Proof.
  intros Hin Hnone. induction Hin as [path files|path f files Hin IH]; simpl.
  - unfold decodable at 1. rewrite Hnone.
    pose proof (count_decodable_le e files). lia.
  - specialize (IH Hnone). destruct (decodable e f); simpl; lia.
Qed.

Section YOLO.
Import YOLOWorker YOLOTrace.
Variables (e : env) (p : params).

Lemma yolo_body_undecodable i total path :
  imread e path = None ->
  folder_body e p i total path =
    ([progress_updated (i + 1) total; cv2_imread path], None).
Proof. intros H. unfold folder_body. rewrite H. reflexivity. Qed.

Lemma yolo_body_reads i total path :
  files_read (fst (folder_body e p i total path)) = [path] /\
  progress (fst (folder_body e p i total path)) = [(i + 1, total)] /\
  length (items (fst (folder_body e p i total path))) <=
    (if decodable e path then 1 else 0).
Proof.
  unfold folder_body, decodable, apply_delay.
  destruct (imread e path) as [f|]; [|simpl; auto].
  destruct (infer (predict e) p f) as [ex|dets]; simpl; [auto|].
  destruct (0 <? inference_delay p)%Z; simpl; auto.
Qed.

Lemma yolo_loop_undecodable total i path rest :
  imread e path = None -> running_at e i = true ->
  folder_loop e p total (path :: rest) i =
    (running_tested true :: progress_updated (i + 1) total :: cv2_imread path ::
       fst (folder_loop e p total rest (S i)),
     snd (folder_loop e p total rest (S i))).
Proof.
  intros Hn Hr. simpl. rewrite Hr, (yolo_body_undecodable _ _ _ Hn).
  destruct (folder_loop e p total rest (S i)). reflexivity.
Qed.

Lemma yolo_loop_facts total files : forall i,
  files_read (fst (folder_loop e p total files i)) `prefix_of` files /\
  Forall (fun it => it.2 = total) (progress (fst (folder_loop e p total files i))) /\
  length (items (fst (folder_loop e p total files i))) <=
    length (List.filter (decodable e) files).
Proof.
  induction files as [|path rest IH]; intros i; simpl.
  - repeat split; [done | constructor | lia].
  - destruct (running_at e i); [|simpl; repeat split; [apply prefix_nil|constructor|lia]].
    destruct (yolo_body_reads i total path) as (Hr & Hp & Hi).
    destruct (folder_body e p i total path) as [tr [ex|]]; simpl in *.
    + unfold files_read, progress, items in *. rewrite Hr, Hp.
      repeat split.
      * apply prefix_cons, prefix_nil.
      * repeat constructor.
      * destruct (decodable e path); simpl; lia.
    + destruct (IH (S i)) as (IHr & IHp & IHi).
      destruct (folder_loop e p total rest (S i)) as [tr' ex']; simpl in *.
      unfold files_read, progress, items in *. rewrite !omap_app, Hr, Hp.
      repeat split.
      * simpl. by apply prefix_cons.
      * simpl. constructor; [reflexivity|exact IHp].
      * rewrite length_app. destruct (decodable e path); simpl; lia.
Qed.

Lemma yolo_loop_complete total files : forall i,
  (forall n, running_at e n = true) ->
  (forall path f, imread e path = Some f -> exists dets, infer (predict e) p f = inr dets) ->
  files_read (fst (folder_loop e p total files i)) = files /\
  snd (folder_loop e p total files i) = None.
Proof.
  intros i Hrun Hok. revert i.
  induction files as [|path rest IH]; intros i; simpl; [done|].
  rewrite Hrun.
  destruct (yolo_body_reads i total path) as (Hr & _ & _).
  assert (Hex : snd (folder_body e p i total path) = None).
  { unfold folder_body. destruct (imread e path) as [f|] eqn:Him; [|reflexivity].
    destruct (Hok path f Him) as [dets ->]. reflexivity. }
  destruct (folder_body e p i total path) as [tr ex]; simpl in *. subst ex.
  destruct (IH (S i)) as [IHr IHe].
  destruct (folder_loop e p total rest (S i)) as [tr' ex']; simpl in *.
  unfold files_read in *. rewrite omap_app, Hr, IHr. done.
Qed.

End YOLO.

Section Comparison.
Import ComparisonWorker ComparisonTrace.
Variables (e : env) (p : params).

Lemma cmp_body_undecodable i total c path :
  imread e path = None ->
  folder_body e p i total c path =
    ([progress_updated (i + 1) total; cv2_imread path], c, None).
Proof. intros H. unfold folder_body. rewrite H. reflexivity. Qed.

Lemma cmp_body_reads i total c path :
  files_read (fst (fst (folder_body e p i total c path))) = [path] /\
  progress (fst (fst (folder_body e p i total c path))) = [(i + 1, total)] /\
  length (items (fst (fst (folder_body e p i total c path)))) <=
    (if decodable e path then 1 else 0).
Proof.
  unfold folder_body, decodable, timed_pair, apply_delay.
  destruct (imread e path) as [f|]; [|simpl; auto].
  destruct (infer (predict e) p f) as [ex|da]; simpl; [auto|].
  destruct (infer (predict_b e) p f) as [ex|db]; simpl; [auto|].
  destruct (0 <? inference_delay p)%Z; simpl; auto.
Qed.

Lemma cmp_loop_undecodable total i c path rest :
  imread e path = None -> running_at e i = true ->
  folder_loop e p total (path :: rest) i c =
    (running_tested true :: progress_updated (i + 1) total :: cv2_imread path ::
       fst (folder_loop e p total rest (S i) c),
     snd (folder_loop e p total rest (S i) c)).
Proof.
  intros Hn Hr. simpl. rewrite Hr, (cmp_body_undecodable _ _ _ _ Hn).
  destruct (folder_loop e p total rest (S i) c). reflexivity.
Qed.

Lemma cmp_loop_facts total files : forall i c,
  files_read (fst (folder_loop e p total files i c)) `prefix_of` files /\
  Forall (fun it => it.2 = total) (progress (fst (folder_loop e p total files i c))) /\
  length (items (fst (folder_loop e p total files i c))) <=
    length (List.filter (decodable e) files).
Proof.
  induction files as [|path rest IH]; intros i c; simpl.
  - repeat split; [done | constructor | lia].
  - destruct (running_at e i); [|simpl; repeat split; [apply prefix_nil|constructor|lia]].
    destruct (cmp_body_reads i total c path) as (Hr & Hp & Hi).
    destruct (folder_body e p i total c path) as [[tr c'] [ex|]]; simpl in *.
    + unfold files_read, progress, items in *. rewrite Hr, Hp.
      repeat split.
      * apply prefix_cons, prefix_nil.
      * repeat constructor.
      * destruct (decodable e path); simpl; lia.
    + destruct (IH (S i) c') as (IHr & IHp & IHi).
      destruct (folder_loop e p total rest (S i) c') as [tr' ex']; simpl in *.
      unfold files_read, progress, items in *. rewrite !omap_app, Hr, Hp.
      repeat split.
      * simpl. by apply prefix_cons.
      * simpl. constructor; [reflexivity|exact IHp].
      * rewrite length_app. destruct (decodable e path); simpl; lia.
Qed.

Lemma cmp_loop_complete total files : forall i c,
  (forall n, running_at e n = true) ->
  (forall path f, imread e path = Some f ->
     exists da db, infer (predict e) p f = inr da /\ infer (predict_b e) p f = inr db) ->
  files_read (fst (folder_loop e p total files i c)) = files /\
  snd (folder_loop e p total files i c) = None.
Proof.
  intros i c Hrun Hok. revert i c.
  induction files as [|path rest IH]; intros i c; simpl; [done|].
  rewrite Hrun.
  destruct (cmp_body_reads i total c path) as (Hr & _ & _).
  assert (Hex : snd (folder_body e p i total c path) = None).
  { unfold folder_body. destruct (imread e path) as [f|] eqn:Him; [|reflexivity].
    destruct (Hok path f Him) as (da & db & Ha & Hb).
    unfold timed_pair. rewrite Ha, Hb. reflexivity. }
  destruct (folder_body e p i total c path) as [[tr c'] ex]; simpl in *. subst ex.
  destruct (IH (S i) c') as [IHr IHe].
  destruct (folder_loop e p total rest (S i) c') as [tr' ex']; simpl in *.
  unfold files_read in *. rewrite omap_app, Hr, IHr. done.
Qed.

End Comparison.
End FolderFacts.

Module FolderClaims.
Import Runtime Helper Examples RunSpec HelperFacts FolderFacts.

(** C9: the list [get_image_files] returns is sorted in the lexicographic
    order of the file paths and holds exactly the image files found under
    the directory; a folder run of either worker reads the files in the
    order of that list (a prefix of it when the run is stopped or fails,
    the whole list otherwise). A directory [d] holding [b.jpg], [a.jpg]
    and [c.jpg] is processed as [d/a.jpg], [d/b.jpg], [d/c.jpg]. *)
Theorem C9_folder_processing_order e p source tree fs :
  fs source = Some tree ->
  let image_files := get_image_files source tree in
  let yolo := YOLOWorker._process_folder e p (Some source) fs in
  let cmp := ComparisonWorker._process_folder e p source fs in
  StronglySorted lex_le image_files /\
  Permutation (collect source tree) image_files /\
  YOLOTrace.files_read yolo `prefix_of` image_files /\
  ComparisonTrace.files_read (fst cmp) `prefix_of` image_files /\
  ((forall n, running_at e n = true) ->
   (forall path f, imread e path = Some f ->
      exists da db, infer (predict e) p f = inr da /\ infer (predict_b e) p f = inr db) ->
   YOLOTrace.files_read yolo = image_files /\
   ComparisonTrace.files_read (fst cmp) = image_files) /\
  get_image_files "d" (Dir ["b.jpg"; "a.jpg"; "c.jpg"] []) =
    ["d/a.jpg"; "d/b.jpg"; "d/c.jpg"].
Proof.
  intros Hfs image_files yolo cmp.
  split; [apply sorted_lex|].
  split; [apply sorted_perm|].
  assert (Hy : yolo =
    match image_files with
    | [] => [YOLOWorker.error_occurred "No image files found in folder"]
    | _ => let '(tr, ex) := YOLOWorker.folder_loop e p (length image_files) image_files 0 in
           tr ++ match ex with
                 | Some x => [YOLOWorker.error_occurred
                                ("Folder processing error: " ++ str x)%string]
                 | None => []
                 end
    end).
  { unfold yolo, YOLOWorker._process_folder. simpl. rewrite Hfs. reflexivity. }
  assert (Hc : cmp = ComparisonWorker.folder_loop e p (length image_files) image_files 0 0).
  { unfold cmp, ComparisonWorker._process_folder. rewrite Hfs. reflexivity. }
  rewrite Hy, Hc. clear Hy Hc yolo cmp.
  split; [|split; [|split]].
  - destruct image_files as [|f0 fl] eqn:Hif; [done|]. rewrite <- Hif.
    destruct (yolo_loop_facts e p (length image_files) image_files 0) as (Hp & _).
    destruct (YOLOWorker.folder_loop e p (length image_files) image_files 0) as [tr ex].
    unfold YOLOTrace.files_read in *. rewrite omap_app. simpl in Hp.
    destruct ex; simpl; rewrite app_nil_r; exact Hp.
  - apply cmp_loop_facts.
  - intros Hrun Hok. split; [|apply cmp_loop_complete; auto].
    destruct image_files as [|f0 fl] eqn:Hif; [done|]. rewrite <- Hif.
    destruct (yolo_loop_complete e p (length image_files) image_files 0 Hrun) as (Hr & Hex).
    { intros path f Him. destruct (Hok path f Him) as (da & _ & Ha & _). eauto. }
    destruct (YOLOWorker.folder_loop e p (length image_files) image_files 0) as [tr ex].
    simpl in *. subst ex. rewrite app_nil_r. exact Hr.
  - vm_compute. reflexivity.
Qed.

Lemma C9_folder_processing_order_witness :
  abc_fs "d" = Some abc_dir /\
  YOLOTrace.files_read (YOLOWorker._process_folder quiet_env default_params (Some "d") abc_fs)
    = ["d/a.jpg"; "d/b.jpg"; "d/c.jpg"] /\
  ComparisonTrace.files_read
    (fst (ComparisonWorker._process_folder quiet_env default_params "d" abc_fs))
    = ["d/a.jpg"; "d/b.jpg"; "d/c.jpg"].
Proof.
  split; [reflexivity|].
  destruct (C9_folder_processing_order quiet_env default_params "d" abc_dir abc_fs eq_refl)
    as (_ & _ & _ & _ & Hall & _).
  destruct Hall as [Hy Hc].
  - reflexivity.
  - intros path f _. exists [], []. split; reflexivity.
  - rewrite Hy, Hc. split; vm_compute; reflexivity.
Defined.

(** C10: a listed file that cannot be decoded is skipped by either worker:
    its pass through the loop raises nothing and emits the progress
    notification that counts it and nothing else (no item or frame result,
    no statistics, no error), and the run goes on with the next file. So a
    folder run publishes fewer item results than the total its progress
    notifications carry. *)
Theorem C10_undecodable_file_skipped e p path :
  imread e path = None ->
  (forall i total,
     YOLOWorker.folder_body e p i total path =
       ([YOLOWorker.progress_updated (i + 1) total; YOLOWorker.cv2_imread path], None)) /\
  (forall i total c,
     ComparisonWorker.folder_body e p i total c path =
       ([ComparisonWorker.progress_updated (i + 1) total;
         ComparisonWorker.cv2_imread path], c, None)) /\
  (forall i total rest, running_at e i = true ->
     YOLOWorker.folder_loop e p total (path :: rest) i =
       (YOLOWorker.running_tested true :: YOLOWorker.progress_updated (i + 1) total ::
          YOLOWorker.cv2_imread path :: fst (YOLOWorker.folder_loop e p total rest (S i)),
        snd (YOLOWorker.folder_loop e p total rest (S i)))) /\
  (forall i total c rest, running_at e i = true ->
     ComparisonWorker.folder_loop e p total (path :: rest) i c =
       (ComparisonWorker.running_tested true ::
          ComparisonWorker.progress_updated (i + 1) total ::
          ComparisonWorker.cv2_imread path ::
          fst (ComparisonWorker.folder_loop e p total rest (S i) c),
        snd (ComparisonWorker.folder_loop e p total rest (S i) c))) /\
  (forall source tree fs,
     fs source = Some tree ->
     path ∈ get_image_files source tree ->
     let total := length (get_image_files source tree) in
     let yolo := YOLOWorker._process_folder e p (Some source) fs in
     let cmp := fst (ComparisonWorker._process_folder e p source fs) in
     length (YOLOTrace.items yolo) < total /\
     Forall (fun it => it.2 = total) (YOLOTrace.progress yolo) /\
     length (ComparisonTrace.items cmp) < total /\
     Forall (fun it => it.2 = total) (ComparisonTrace.progress cmp)).
Proof.
  intros Hn.
  split; [intros; by apply yolo_body_undecodable|].
  split; [intros; by apply cmp_body_undecodable|].
  split; [intros; by apply yolo_loop_undecodable|].
  split; [intros; by apply cmp_loop_undecodable|].
  intros source tree fs Hfs Hin total yolo cmp.
  pose proof (count_decodable_lt e _ path Hin Hn) as Hlt. fold total in Hlt.
  assert (Hy : yolo =
    let '(tr, ex) := YOLOWorker.folder_loop e p total (get_image_files source tree) 0 in
    tr ++ match ex with
          | Some x => [YOLOWorker.error_occurred
                         ("Folder processing error: " ++ str x)%string]
          | None => []
          end).
  { unfold yolo, YOLOWorker._process_folder. simpl. rewrite Hfs. simpl.
    destruct (get_image_files source tree); [by apply elem_of_nil in Hin|reflexivity]. }
  assert (Hc : cmp = fst (ComparisonWorker.folder_loop e p total (get_image_files source tree) 0 0)).
  { unfold cmp, ComparisonWorker._process_folder. rewrite Hfs. reflexivity. }
  rewrite Hy, Hc. clear Hy Hc yolo cmp.
  destruct (yolo_loop_facts e p total (get_image_files source tree) 0) as (_ & Hp & Hi).
  destruct (cmp_loop_facts e p total (get_image_files source tree) 0 0) as (_ & Hp' & Hi').
  destruct (YOLOWorker.folder_loop e p total (get_image_files source tree) 0) as [tr ex].
  simpl in *.
  unfold YOLOTrace.items, YOLOTrace.progress in *. rewrite !omap_app.
  assert (Hx : omap (fun ev => match ev with
                               | YOLOWorker.batch_item_processed a b c => Some (a, b, c)
                               | _ => None
                               end)
                 match ex with
                 | Some x => [YOLOWorker.error_occurred
                                ("Folder processing error: " ++ str x)%string]
                 | None => []
                 end = [] /\
               omap (fun ev => match ev with
                               | YOLOWorker.progress_updated a b => Some (a, b)
                               | _ => None
                               end)
                 match ex with
                 | Some x => [YOLOWorker.error_occurred
                                ("Folder processing error: " ++ str x)%string]
                 | None => []
                 end = []) by (destruct ex; done).
  destruct Hx as [-> ->]. rewrite !app_nil_r.
  repeat split; auto; lia.
Qed.

Lemma C10_undecodable_file_skipped_witness :
  imread quiet_env "d/b.jpg" = None /\
  YOLOTrace.progress (YOLOWorker._process_folder quiet_env default_params (Some "d") abc_fs)
    = [(1, 3); (2, 3); (3, 3)] /\
  length (YOLOTrace.items
            (YOLOWorker._process_folder quiet_env default_params (Some "d") abc_fs)) < 3 /\
  length (ComparisonTrace.items
            (fst (ComparisonWorker._process_folder quiet_env default_params "d" abc_fs))) < 3.
Proof.
  split; [reflexivity|].
  split; [vm_compute; reflexivity|].
  destruct (C10_undecodable_file_skipped quiet_env default_params "d/b.jpg" eq_refl)
    as (_ & _ & _ & _ & Hrun).
  destruct (Hrun "d" abc_dir abc_fs eq_refl) as (Hy & _ & Hc & _).
  - vm_compute. set_solver.
  - split; [exact Hy|exact Hc].
Defined.

End FolderClaims.

Module VideoFacts.
Import Runtime Examples RunSpec.

Section YOLO.
Import YOLOWorker YOLOTrace.
Variables (e : env) (p : params) (v : video).

Variable bound : nat.
Hypothesis clock_advances :
  forall n, n < bound -> (time_at e (S n) - time_at e n =? 0)%float = false.

Lemma fps_step_ok st :
  (exists n, clock st = S n /\ start_time st = time_at e n /\
             n + 2 <= 2 * tests st /\ n < bound) ->
  exists fe st',
    fps_step e st = inr (fe, st') /\
    clock_ok e st' /\ tests st' = tests st /\ output_writer st' = output_writer st /\
    fps_counter st' = (if 10 <=? fps_counter st + 1 then 0 else fps_counter st + 1) /\
    fe = (if 10 <=? fps_counter st + 1
          then [fps_updated (float_of_nat (fps_counter st + 1) /
                             (time_at e (clock st) - start_time st))%float]
          else []).
Proof.
  intros (n & Hc & Hs & Hn & Hb). unfold fps_step.
  destruct (10 <=? fps_counter st + 1).
  - rewrite Hc, Hs, clock_advances by exact Hb. eexists _, _. split; [reflexivity|].
    simpl. repeat split; auto. exists (S (S n)). repeat split; auto. cbn [tests]. lia.
  - eexists _, _. split; [reflexivity|]. simpl. repeat split; auto.
    exists n. repeat split; auto. cbn [tests]. lia.
Qed.

Lemma video_body_ok st f dets :
  infer (predict e) p f = inr dets ->
  (exists n, clock st = S n /\ start_time st = time_at e n /\
             n + 2 <= 2 * tests st /\ n < bound) ->
  exists tr st',
    video_body e p v st f = (tr, st', None) /\
    clock_ok e st' /\ tests st' = tests st /\ output_writer st' = true /\
    results tr = [(f, dets)] /\
    flag_tests tr = [] /\
    milestones tr = [model_predict f; frame_processed f dets] /\
    errors tr = [].
Proof.
  intros Hinf Hck. unfold video_body. rewrite Hinf.
  match goal with
  | |- context [fps_step e ?x] =>
      destruct (fps_step_ok x) as (fe & st' & Hfps & Hck' & Ht & Hw & _ & Hfe)
  end.
  { exact Hck. }
  rewrite Hfps. eexists _, _. split; [reflexivity|].
  split; [exact Hck'|]. split; [exact Ht|]. split; [exact Hw|].
  subst fe. unfold results, flag_tests, milestones, errors, apply_delay.
  cbn [fps_counter start_time clock].
  destruct (output_writer st), (10 <=? fps_counter st + 1), (0 <? inference_delay p)%Z;
    repeat split; reflexivity.
Qed.

Lemma video_loop_stopped K : forall fs st,
  K <= length fs ->
  (forall i, i < K -> running_at e (tests st + i) = true) ->
  running_at e (tests st + K) = false ->
  (forall f, f ∈ take K fs -> exists dets, infer (predict e) p f = inr dets) ->
  clock_ok e st ->
  2 * (tests st + K) <= bound ->
  exists tr st',
    video_loop e p v fs st = (tr ++ [running_tested false], st', None) /\
    output_writer st' = output_writer st || (0 <? K) /\
    results tr = map (fun f => (f, dets_of e p f)) (take K fs) /\
    flag_tests tr = replicate K true /\
    milestones tr =
      flat_map (fun f => [running_tested true; model_predict f;
                          frame_processed f (dets_of e p f)]) (take K fs) /\
    errors tr = [].
Proof.
  induction K as [|K IH]; intros fs st Hlen Hrun Hstop Hinf Hck Hb.
  - exists [], (tested st). rewrite Nat.add_0_r in Hstop.
    destruct fs; simpl; rewrite Hstop; rewrite orb_false_r; auto 10.
  - destruct fs as [|f fs]; [simpl in Hlen; lia|].
    simpl. rewrite <- (Nat.add_0_r (tests st)), Hrun by lia.
    destruct (Hinf f) as [dets Hd]; [simpl; left|].
    destruct (video_body_ok (tested st) f dets Hd) as
      (tr1 & st1 & Hbody & Hck1 & Ht1 & Hw1 & Hres1 & Hfl1 & Hms1 & Her1).
    { destruct Hck as (n & ? & ? & ?). exists n. simpl. repeat split; auto; lia. }
    rewrite Hbody.
    destruct (IH fs st1) as (tr2 & st2 & Hloop & Hw2 & Hres2 & Hfl2 & Hms2 & Her2).
    + simpl in Hlen. lia.
    + intros i Hi. rewrite Ht1. simpl. replace (S (tests st + i)) with (tests st + S i) by lia.
      apply Hrun. lia.
    + rewrite Ht1. simpl. replace (S (tests st + K)) with (tests st + S K) by lia. exact Hstop.
    + intros f' Hf'. apply Hinf. simpl. by right.
    + exact Hck1.
    + rewrite Ht1. simpl. lia.
    + rewrite Hloop. exists (running_tested true :: cap_read (Some f) :: tr1 ++ tr2), st2.
      split; [simpl; by rewrite <- app_assoc|].
      split; [rewrite Hw2, Hw1; by rewrite orb_true_r|].
      unfold results, flag_tests, milestones, errors in *. simpl.
      rewrite !omap_app, Hres1, Hres2, Hfl1, Hfl2, Hms1, Hms2, Her1, Her2.
      assert (Hdo : dets_of e p f = dets) by (unfold dets_of; by rewrite Hd).
      simpl. rewrite Hdo. auto.
Qed.

End YOLO.

Section Comparison.
Import ComparisonWorker ComparisonTrace.
Variables (e : env) (p : params).

Lemma cmp_video_body_ok st f da db :
  infer (predict e) p f = inr da ->
  infer (predict_b e) p f = inr db ->
  exists tr st',
    video_body e p st f = (tr, st', None) /\
    tests st' = tests st /\ clock st' = 4 + clock st /\
    fps_counter st' = (if 5 <=? fps_counter st + 1 then 0 else fps_counter st + 1) /\
    sum_time_a st' = (if 5 <=? fps_counter st + 1 then 0%float
                      else (sum_time_a st + elapsed_ms e (clock st))%float) /\
    sum_time_b st' = (if 5 <=? fps_counter st + 1 then 0%float
                      else (sum_time_b st + elapsed_ms e (S (S (clock st))))%float) /\
    results tr = [(f, da, db)] /\
    flag_tests tr = [] /\
    milestones tr = [inferred_a f; inferred_b f; published f da db] /\
    errors tr = [] /\
    fps_published tr =
      (if 5 <=? fps_counter st + 1
       then [(fps_of ((sum_time_a st + elapsed_ms e (clock st)) /
                      float_of_nat (fps_counter st + 1)%nat)%float,
              fps_of ((sum_time_b st + elapsed_ms e (S (S (clock st)))) /
                      float_of_nat (fps_counter st + 1)%nat)%float)]
       else []).
Proof.
  intros Ha Hb. unfold video_body, timed_pair. rewrite Ha, Hb.
  unfold results, flag_tests, milestones, errors, fps_published, apply_delay.
  destruct (5 <=? fps_counter st + 1), (0 <? inference_delay p)%Z;
    eexists _, _; (split; [reflexivity|]); cbn; auto 12.
Qed.

Lemma cmp_video_loop_stopped K : forall fs st,
  K <= length fs ->
  (forall i, i < K -> running_at e (tests st + i) = true) ->
  running_at e (tests st + K) = false ->
  (forall f, f ∈ take K fs ->
     exists da db, infer (predict e) p f = inr da /\ infer (predict_b e) p f = inr db) ->
  exists tr st',
    video_loop e p fs st = (tr ++ [running_tested false], st', None) /\
    results tr = map (fun f => (f, dets_a_of e p f, dets_b_of e p f)) (take K fs) /\
    flag_tests tr = replicate K true /\
    milestones tr =
      flat_map (fun f => [flag_tested true; inferred_a f; inferred_b f;
                          published f (dets_a_of e p f) (dets_b_of e p f)]) (take K fs) /\
    errors tr = [].
Proof.
  induction K as [|K IH]; intros fs st Hlen Hrun Hstop Hinf.
  - exists [], (tested st). rewrite Nat.add_0_r in Hstop.
    destruct fs; simpl; rewrite Hstop; auto 10.
  - destruct fs as [|f fs]; [simpl in Hlen; lia|].
    simpl. rewrite <- (Nat.add_0_r (tests st)), Hrun by lia.
    destruct (Hinf f) as (da & db & Hda & Hdb); [simpl; left|].
    destruct (cmp_video_body_ok (tested st) f da db Hda Hdb) as
      (tr1 & st1 & Hbody & Ht1 & _ & _ & _ & _ & Hres1 & Hfl1 & Hms1 & Her1 & _).
    rewrite Hbody.
    destruct (IH fs st1) as (tr2 & st2 & Hloop & Hres2 & Hfl2 & Hms2 & Her2).
    + simpl in Hlen. lia.
    + intros i Hi. rewrite Ht1. simpl. replace (S (tests st + i)) with (tests st + S i) by lia.
      apply Hrun. lia.
    + rewrite Ht1. simpl. replace (S (tests st + K)) with (tests st + S K) by lia. exact Hstop.
    + intros f' Hf'. apply Hinf. simpl. by right.
    + rewrite Hloop. exists (running_tested true :: cap_read (Some f) :: tr1 ++ tr2), st2.
      split; [simpl; by rewrite <- app_assoc|].
      unfold results, flag_tests, milestones, errors in *. simpl.
      rewrite !omap_app, Hres1, Hres2, Hfl1, Hfl2, Hms1, Hms2, Her1, Her2.
      assert (Hao : dets_a_of e p f = da) by (unfold dets_a_of, dets_of; by rewrite Hda).
      assert (Hbo : dets_b_of e p f = db) by (unfold dets_b_of; by rewrite Hdb).
      simpl. rewrite Hao, Hbo. auto.
Qed.

End Comparison.
End VideoFacts.

Module VideoClaims.
Import Runtime Examples RunSpec VideoFacts.

(** C4: when the test of [self.running] that follows frame K is the first
    to find the flag cleared, a video run of either worker publishes
    exactly K frame results, those of the first K frames in order, each
    with the detections the model returned for that frame. The flag is
    tested K+1 times, once before each frame is read and never between an
    inference call and the publication of its result; after the last test
    the single-model worker releases the output writer (if a frame was
    written) and the source, the dual-model worker releases the source,
    and no error is published. *)
Theorem C4_cooperative_stop e p source v K :
  is_opened v = true ->
  K <= length (frames v) ->
  (forall i, i < K -> running_at e i = true) ->
  running_at e K = false ->
  ((forall f, f ∈ take K (frames v) -> exists dets, infer (predict e) p f = inr dets) ->
   (forall n, n < 2 * K -> (time_at e (S n) - time_at e n =? 0)%float = false) ->
   let tr := YOLOWorker._process_video e p source v in
   YOLOTrace.results tr = map (fun f => (f, dets_of e p f)) (take K (frames v)) /\
   length (YOLOTrace.results tr) = K /\
   YOLOTrace.flag_tests tr = replicate K true ++ [false] /\
   YOLOTrace.milestones tr =
     flat_map (fun f => [YOLOWorker.running_tested true; YOLOWorker.model_predict f;
                         YOLOWorker.frame_processed f (dets_of e p f)])
              (take K (frames v))
     ++ [YOLOWorker.running_tested false] /\
   YOLOTrace.errors tr = [] /\
   exists body,
     tr = body ++ YOLOWorker.running_tested false ::
          (if 0 <? K then [YOLOWorker.writer_release] else []) ++
          [YOLOWorker.cap_release]) /\
  ((forall f, f ∈ take K (frames v) ->
      exists da db, infer (predict e) p f = inr da /\ infer (predict_b e) p f = inr db) ->
   let run := ComparisonWorker._process_video e p source v in
   ComparisonTrace.results (fst run) =
     map (fun f => (f, dets_a_of e p f, dets_b_of e p f)) (take K (frames v)) /\
   length (ComparisonTrace.results (fst run)) = K /\
   ComparisonTrace.flag_tests (fst run) = replicate K true ++ [false] /\
   ComparisonTrace.milestones (fst run) =
     flat_map (fun f => [ComparisonTrace.flag_tested true; ComparisonTrace.inferred_a f;
                         ComparisonTrace.inferred_b f;
                         ComparisonTrace.published f (dets_a_of e p f) (dets_b_of e p f)])
              (take K (frames v))
     ++ [ComparisonTrace.flag_tested false] /\
   snd run = None /\
   exists body,
     fst run = body ++ [ComparisonWorker.running_tested false;
                        ComparisonWorker.cap_release]).
Proof.
  intros Hopen Hlen Hrun Hstop. split.
  - intros Hinf Hclock tr.
    destruct (video_loop_stopped e p v (2 * K) Hclock K (frames v)
                {| YOLOWorker.fps_counter := 0; YOLOWorker.start_time := time_at e 0;
                   YOLOWorker.output_writer := false; YOLOWorker.tests := 0;
                   YOLOWorker.clock := 1 |})
      as (body & st' & Hloop & Hw & Hres & Hfl & Hms & Her); auto.
    { exists 0. simpl. auto with lia. }
    assert (Htr : tr = body ++ YOLOWorker.running_tested false ::
                       (if 0 <? K then [YOLOWorker.writer_release] else []) ++
                       [YOLOWorker.cap_release]).
    { unfold tr, YOLOWorker._process_video. rewrite Hopen. simpl negb. cbv iota.
      rewrite Hloop, Hw. simpl. rewrite <- app_assoc. reflexivity. }
    split; [|split; [|split; [|split; [|split]]]]; [..|by exists body].
    + rewrite Htr. unfold YOLOTrace.results in *. rewrite omap_app, Hres.
      destruct (0 <? K); simpl; by rewrite app_nil_r.
    + rewrite Htr. unfold YOLOTrace.results in *. rewrite omap_app, Hres.
      destruct (0 <? K); simpl; rewrite app_nil_r, length_map, length_take; lia.
    + rewrite Htr. unfold YOLOTrace.flag_tests in *. rewrite omap_app, Hfl.
      destruct (0 <? K); reflexivity.
    + rewrite Htr. unfold YOLOTrace.milestones in *. rewrite omap_app, Hms.
      destruct (0 <? K); reflexivity.
    + rewrite Htr. unfold YOLOTrace.errors in *. rewrite omap_app, Her.
      destruct (0 <? K); reflexivity.
  - intros Hinf run.
    destruct (cmp_video_loop_stopped e p K (frames v) ComparisonWorker.vstate0)
      as (body & st' & Hloop & Hres & Hfl & Hms & Her); auto.
    assert (Htr : run = (body ++ [ComparisonWorker.running_tested false;
                                  ComparisonWorker.cap_release], None)).
    { unfold run, ComparisonWorker._process_video. rewrite Hopen. simpl negb. cbv iota.
      rewrite Hloop. rewrite <- app_assoc. reflexivity. }
    rewrite Htr. simpl.
    split; [|split; [|split; [|split; [|split]]]]; [..|reflexivity|by exists body].
    + unfold ComparisonTrace.results in *. rewrite omap_app, Hres. simpl.
      by rewrite app_nil_r.
    + unfold ComparisonTrace.results in *. rewrite omap_app, Hres. simpl.
      rewrite app_nil_r, length_map, length_take. lia.
    + unfold ComparisonTrace.flag_tests in *. rewrite omap_app, Hfl. reflexivity.
    + unfold ComparisonTrace.milestones in *. rewrite omap_app, Hms. reflexivity.
Qed.

Lemma C4_cooperative_stop_witness :
  YOLOTrace.results (YOLOWorker._process_video (stopped_after 2) default_params "v.mp4" (clip 4))
    = [(blank, []); (blank, [])] /\
  YOLOTrace.flag_tests (YOLOWorker._process_video (stopped_after 2) default_params "v.mp4" (clip 4))
    = [true; true; false] /\
  ComparisonTrace.results
    (fst (ComparisonWorker._process_video (stopped_after 2) default_params "v.mp4" (clip 4)))
    = [(blank, [], []); (blank, [], [])].
Proof.
  destruct (C4_cooperative_stop (stopped_after 2) default_params "v.mp4" (clip 4) 2)
    as [Hy Hc].
  - reflexivity.
  - simpl. lia.
  - intros i Hi. simpl. by apply Nat.ltb_lt.
  - reflexivity.
  - destruct Hy as (Hres & _ & Hfl & _).
    + intros f _. exists []. reflexivity.
    + intros n Hn.
      destruct n as [|[|[|[|n]]]]; [vm_compute; reflexivity ..|simpl in Hn; lia].
    + destruct Hc as (Hres' & _).
      * intros f _. exists [], []. split; reflexivity.
      * rewrite Hres, Hfl, Hres'. repeat split.
Defined.

End VideoClaims.

Module FpsFacts.
Import Runtime Examples RunSpec VideoFacts.

Section YOLO.
Import YOLOWorker YOLOTrace.
Variables (e : env) (p : params) (v : video).

Lemma yolo_body_fps st f dets :
  infer (predict e) p f = inr dets ->
  ((10 <=? fps_counter st + 1) = true ->
   (time_at e (clock st) - start_time st =? 0)%float = false) ->
  exists tr st',
    video_body e p v st f = (tr, st', None) /\
    tests st' = tests st /\
    fps_counter st' = (if 10 <=? fps_counter st + 1 then 0 else fps_counter st + 1) /\
    start_time st' = (if 10 <=? fps_counter st + 1 then time_at e (S (clock st))
                      else start_time st) /\
    clock st' = (if 10 <=? fps_counter st + 1 then S (S (clock st)) else clock st) /\
    fps_published tr =
      (if 10 <=? fps_counter st + 1
       then [(float_of_nat (fps_counter st + 1) /
              (time_at e (clock st) - start_time st))%float]
       else []).
Proof.
  intros Hinf Hz. unfold video_body, fps_step. rewrite Hinf.
  cbn [fps_counter start_time clock tests output_writer].
  destruct (10 <=? fps_counter st + 1).
  - rewrite Hz by reflexivity. eexists _, _. split; [reflexivity|].
    unfold fps_published, apply_delay.
    destruct (output_writer st), (0 <? inference_delay p)%Z; cbn; auto.
  - eexists _, _. split; [reflexivity|].
    unfold fps_published, apply_delay.
    destruct (output_writer st), (0 <? inference_delay p)%Z; cbn; auto.
Qed.

Lemma yolo_loop_fps st f rest dets :
  running_at e (tests st) = true ->
  infer (predict e) p f = inr dets ->
  ((10 <=? fps_counter st + 1) = true ->
   (time_at e (clock st) - start_time st =? 0)%float = false) ->
  exists st',
    fps_published (fst (fst (video_loop e p v (f :: rest) st))) =
      (if 10 <=? fps_counter st + 1
       then [(float_of_nat (fps_counter st + 1) /
              (time_at e (clock st) - start_time st))%float]
       else []) ++ fps_published (fst (fst (video_loop e p v rest st'))) /\
    tests st' = S (tests st) /\
    fps_counter st' = (if 10 <=? fps_counter st + 1 then 0 else fps_counter st + 1) /\
    start_time st' = (if 10 <=? fps_counter st + 1 then time_at e (S (clock st))
                      else start_time st) /\
    clock st' = (if 10 <=? fps_counter st + 1 then S (S (clock st)) else clock st).
Proof.
  intros Hrun Hinf Hz. simpl. rewrite Hrun.
  destruct (yolo_body_fps (tested st) f dets Hinf Hz)
    as (tr & st' & Hbody & Ht & Hc & Hs & Hk & Hf).
  rewrite Hbody. exists st'.
  destruct (video_loop e p v rest st') as [[tr' st''] ex'].
  unfold fps_published in *. simpl. rewrite omap_app, Hf. auto.
Qed.

(** Frames that do not complete a block of ten publish no FPS. *)
Lemma yolo_loop_quiet fs : forall st rest,
  fps_counter st + length fs < 10 ->
  (forall i, i < length fs -> running_at e (tests st + i) = true) ->
  (forall f, f ∈ fs -> exists dets, infer (predict e) p f = inr dets) ->
  exists st',
    fps_published (fst (fst (video_loop e p v (fs ++ rest) st))) =
      fps_published (fst (fst (video_loop e p v rest st'))) /\
    tests st' = tests st + length fs /\
    fps_counter st' = fps_counter st + length fs /\
    start_time st' = start_time st /\ clock st' = clock st.
Proof.
  induction fs as [|f fs IH]; intros st rest Hlt Hrun Hinf.
  - exists st. simpl. repeat split; auto.
  - destruct (Hinf f) as [dets Hd]; [by left|].
    destruct (yolo_loop_fps st f (fs ++ rest) dets) as (st1 & Hf & Ht & Hc & Hs & Hk).
    { rewrite <- (Nat.add_0_r (tests st)). apply Hrun. simpl. lia. }
    { exact Hd. }
    { intros Hge. apply Nat.leb_le in Hge. simpl in Hlt. lia. }
    assert (Hq : (10 <=? fps_counter st + 1) = false) by (apply Nat.leb_gt; simpl in Hlt; lia).
    rewrite Hq in *. rewrite app_nil_l in Hf.
    destruct (IH st1 rest) as (st' & Hf' & Ht' & Hc' & Hs' & Hk').
    + rewrite Hc. simpl in Hlt. lia.
    + intros i Hi. rewrite Ht. replace (S (tests st) + i) with (tests st + S i) by lia.
      apply Hrun. simpl. lia.
    + intros f' Hf'. apply Hinf. by right.
    + exists st'. simpl app. rewrite Hf, Hf'. simpl length.
      repeat split; try congruence; lia.
Qed.

(** The tenth frame of a block publishes the frames of the block divided
    by the wall-clock time elapsed since the block began. *)
Lemma yolo_block_fps fs f st rest :
  length fs = 9 ->
  fps_counter st = 0 ->
  (forall i, i < 10 -> running_at e (tests st + i) = true) ->
  (forall f', f' ∈ fs ++ [f] -> exists dets, infer (predict e) p f' = inr dets) ->
  (time_at e (clock st) - start_time st =? 0)%float = false ->
  exists st',
    fps_published (fst (fst (video_loop e p v ((fs ++ [f]) ++ rest) st))) =
      (float_of_nat 10 / (time_at e (clock st) - start_time st))%float ::
      fps_published (fst (fst (video_loop e p v rest st'))) /\
    tests st' = tests st + 10 /\ fps_counter st' = 0 /\
    start_time st' = time_at e (S (clock st)) /\ clock st' = S (S (clock st)).
Proof.
  intros Hlen Hc0 Hrun Hinf Hz.
  destruct (yolo_loop_quiet fs st ([f] ++ rest)) as (st1 & Hf1 & Ht1 & Hc1 & Hs1 & Hk1).
  { rewrite Hc0, Hlen. lia. }
  { intros i Hi. apply Hrun. lia. }
  { intros f' Hf'. apply Hinf. apply elem_of_app. by left. }
  destruct (Hinf f) as [dets Hd]; [apply elem_of_app; right; by left|].
  destruct (yolo_loop_fps st1 f rest dets) as (st2 & Hf2 & Ht2 & Hc2 & Hs2 & Hk2).
  { rewrite Ht1, Hlen. apply Hrun. lia. }
  { exact Hd. }
  { intros _. rewrite Hk1, Hs1. exact Hz. }
  rewrite Hc1, Hc0, Hlen in Hf2, Hc2, Hs2, Hk2.
  change (10 <=? 0 + 9 + 1) with true in Hf2, Hc2, Hs2, Hk2.
  cbv iota in Hf2, Hc2, Hs2, Hk2.
  exists st2. rewrite <- app_assoc, Hf1.
  change ([f] ++ rest) with (f :: rest). rewrite Hf2, Hk1, Hs1.
  repeat split; try congruence. lia.
Qed.

End YOLO.

Section Comparison.
Import ComparisonWorker ComparisonTrace.
Variables (e : env) (p : params).

Lemma cmp_loop_fps st f rest da db :
  running_at e (tests st) = true ->
  infer (predict e) p f = inr da ->
  infer (predict_b e) p f = inr db ->
  exists st',
    fps_published (fst (fst (video_loop e p (f :: rest) st))) =
      (if 5 <=? fps_counter st + 1
       then [(fps_of ((sum_time_a st + elapsed_ms e (clock st)) /
                      float_of_nat (fps_counter st + 1)%nat)%float,
              fps_of ((sum_time_b st + elapsed_ms e (S (S (clock st)))) /
                      float_of_nat (fps_counter st + 1)%nat)%float)]
       else []) ++ fps_published (fst (fst (video_loop e p rest st'))) /\
    tests st' = S (tests st) /\ clock st' = 4 + clock st /\
    fps_counter st' = (if 5 <=? fps_counter st + 1 then 0 else fps_counter st + 1) /\
    sum_time_a st' = (if 5 <=? fps_counter st + 1 then 0%float
                      else (sum_time_a st + elapsed_ms e (clock st))%float) /\
    sum_time_b st' = (if 5 <=? fps_counter st + 1 then 0%float
                      else (sum_time_b st + elapsed_ms e (S (S (clock st))))%float).
Proof.
  intros Hrun Ha Hb. simpl. rewrite Hrun.
  destruct (cmp_video_body_ok e p (tested st) f da db Ha Hb)
    as (tr & st' & Hbody & Ht & Hk & Hc & Hsa & Hsb & _ & _ & _ & _ & Hf).
  rewrite Hbody. exists st'.
  destruct (video_loop e p rest st') as [[tr' st''] ex'].
  unfold fps_published in *. simpl. rewrite omap_app, Hf. auto 10.
Qed.

Lemma cmp_block_fps st f1 f2 f3 f4 f5 rest :
  fps_counter st = 0 -> sum_time_a st = 0%float -> sum_time_b st = 0%float ->
  (forall i, i < 5 -> running_at e (tests st + i) = true) ->
  (forall f, f ∈ [f1; f2; f3; f4; f5] ->
     exists da db, infer (predict e) p f = inr da /\ infer (predict_b e) p f = inr db) ->
  exists st',
    fps_published (fst (fst (video_loop e p ([f1; f2; f3; f4; f5] ++ rest) st))) =
      (fps_of (fsum (times_a e (clock st)) / float_of_nat 5)%float,
       fps_of (fsum (times_b e (clock st)) / float_of_nat 5)%float) ::
      fps_published (fst (fst (video_loop e p rest st'))) /\
    tests st' = tests st + 5 /\ clock st' = 20 + clock st /\
    fps_counter st' = 0 /\ sum_time_a st' = 0%float /\ sum_time_b st' = 0%float.
Proof.
  intros C0 A0 B0 Hrun Hinf.
  assert (R0 : running_at e (tests st) = true)
    by (rewrite <- (Nat.add_0_r (tests st)); apply Hrun; lia).
  change ([f1; f2; f3; f4; f5] ++ rest) with (f1 :: f2 :: f3 :: f4 :: f5 :: rest).
  destruct (Hinf f1) as (a1 & b1 & Ia1 & Ib1); [set_solver|].
  destruct (Hinf f2) as (a2 & b2 & Ia2 & Ib2); [set_solver|].
  destruct (Hinf f3) as (a3 & b3 & Ia3 & Ib3); [set_solver|].
  destruct (Hinf f4) as (a4 & b4 & Ia4 & Ib4); [set_solver|].
  destruct (Hinf f5) as (a5 & b5 & Ia5 & Ib5); [set_solver|].
  destruct (cmp_loop_fps st f1 (f2 :: f3 :: f4 :: f5 :: rest) a1 b1 R0 Ia1 Ib1)
    as (s1 & F1 & T1 & K1 & C1 & A1 & B1).
  rewrite C0 in F1, C1, A1, B1. cbn [Nat.leb Nat.add] in F1, C1, A1, B1.
  rewrite A0 in A1. rewrite B0 in B1.
  assert (R1 : running_at e (tests s1) = true).
  { rewrite T1. replace (S (tests st)) with (tests st + 1) by lia. apply Hrun. lia. }
  destruct (cmp_loop_fps s1 f2 (f3 :: f4 :: f5 :: rest) a2 b2 R1 Ia2 Ib2)
    as (s2 & F2 & T2 & K2 & C2 & A2 & B2).
  rewrite C1 in F2, C2, A2, B2. cbn [Nat.leb Nat.add] in F2, C2, A2, B2.
  rewrite A1, K1 in A2. rewrite B1, K1 in B2.
  assert (R2 : running_at e (tests s2) = true).
  { rewrite T2, T1. replace (S (S (tests st))) with (tests st + 2) by lia. apply Hrun. lia. }
  destruct (cmp_loop_fps s2 f3 (f4 :: f5 :: rest) a3 b3 R2 Ia3 Ib3)
    as (s3 & F3 & T3 & K3 & C3 & A3 & B3).
  rewrite C2 in F3, C3, A3, B3. cbn [Nat.leb Nat.add] in F3, C3, A3, B3.
  rewrite A2, K2, K1 in A3. rewrite B2, K2, K1 in B3.
  assert (R3 : running_at e (tests s3) = true).
  { rewrite T3, T2, T1. replace (S (S (S (tests st)))) with (tests st + 3) by lia.
    apply Hrun. lia. }
  destruct (cmp_loop_fps s3 f4 (f5 :: rest) a4 b4 R3 Ia4 Ib4)
    as (s4 & F4 & T4 & K4 & C4 & A4 & B4).
  rewrite C3 in F4, C4, A4, B4. cbn [Nat.leb Nat.add] in F4, C4, A4, B4.
  rewrite A3, K3, K2, K1 in A4. rewrite B3, K3, K2, K1 in B4.
  assert (R4 : running_at e (tests s4) = true).
  { rewrite T4, T3, T2, T1. replace (S (S (S (S (tests st))))) with (tests st + 4) by lia.
    apply Hrun. lia. }
  destruct (cmp_loop_fps s4 f5 rest a5 b5 R4 Ia5 Ib5)
    as (s5 & F5 & T5 & K5 & C5 & A5 & B5).
  rewrite C4 in F5, C5, A5, B5. cbn [Nat.leb Nat.add] in F5, C5, A5, B5.
  rewrite A4, B4, K4, K3, K2, K1 in F5.
  exists s5. rewrite F1, F2, F3, F4, F5.
  split; [reflexivity|].
  split; [lia|]. split; [lia|]. auto.
Qed.

End Comparison.
End FpsFacts.

Module FpsClaims.
Import Runtime Examples RunSpec VideoFacts FpsFacts.

(** C5 (counterexample): ten frames whose inference takes 10 ms each,
    processed by the single-model worker with a 90 ms delay after each, so
    that the clock reads one second more at the end of the block: the
    published FPS is 10.0, not the 1000 / 10 = 100.0 of the claim. *)
Lemma C5_single_model_fps_is_wall_clock :
  map (predict_ms quiet_env) (seq 0 10) = replicate 10 10%float /\
  spec_fps (map (predict_ms quiet_env) (seq 0 10)) = 100%float /\
  YOLOTrace.fps_published
    (YOLOWorker._process_video quiet_env paced_params "v.mp4" (clip 10)) = [10%float] /\
  10%float <> 100%float.
Proof.
  split; [reflexivity|]. split; [vm_compute; reflexivity|].
  split; [vm_compute; reflexivity|].
  apply float_neq. vm_compute. discriminate.
Qed.

(** C5 (amended): in a video run of the dual-model worker every block of
    five consecutive frames publishes, for each model, 1000 divided by the
    mean of the five inference times measured in that block (0 when the
    mean is not positive), and the next block starts afresh; five times of
    10 ms give 100.0. In a video run of the single-model worker every
    block of ten consecutive frames publishes 10 divided by the seconds of
    wall-clock time the block took, whatever the inference times were. *)
Theorem C5_published_fps e p :
  (forall st f1 f2 f3 f4 f5 rest,
     ComparisonWorker.fps_counter st = 0 ->
     ComparisonWorker.sum_time_a st = 0%float ->
     ComparisonWorker.sum_time_b st = 0%float ->
     (forall i, i < 5 -> running_at e (ComparisonWorker.tests st + i) = true) ->
     (forall f, f ∈ [f1; f2; f3; f4; f5] ->
        exists da db, infer (predict e) p f = inr da /\ infer (predict_b e) p f = inr db) ->
     let ta := times_a e (ComparisonWorker.clock st) in
     let tb := times_b e (ComparisonWorker.clock st) in
     exists st',
       ComparisonTrace.fps_published
         (fst (fst (ComparisonWorker.video_loop e p ([f1; f2; f3; f4; f5] ++ rest) st))) =
         (ComparisonWorker.fps_of (fsum ta / float_of_nat 5)%float,
          ComparisonWorker.fps_of (fsum tb / float_of_nat 5)%float) ::
         ComparisonTrace.fps_published
           (fst (fst (ComparisonWorker.video_loop e p rest st'))) /\
       ComparisonWorker.tests st' = ComparisonWorker.tests st + 5 /\
       ComparisonWorker.clock st' = 20 + ComparisonWorker.clock st /\
       ComparisonWorker.fps_counter st' = 0 /\
       ComparisonWorker.sum_time_a st' = 0%float /\
       ComparisonWorker.sum_time_b st' = 0%float /\
       ((0 <? fsum ta / float_of_nat 5)%float = true ->
        ComparisonWorker.fps_of (fsum ta / float_of_nat 5)%float = spec_fps ta) /\
       (ta = replicate 5 10%float ->
        ComparisonWorker.fps_of (fsum ta / float_of_nat 5)%float = 100%float)) /\
  (forall v st fs f rest,
     length fs = 9 ->
     YOLOWorker.fps_counter st = 0 ->
     (forall i, i < 10 -> running_at e (YOLOWorker.tests st + i) = true) ->
     (forall f', f' ∈ fs ++ [f] -> exists dets, infer (predict e) p f' = inr dets) ->
     (time_at e (YOLOWorker.clock st) - YOLOWorker.start_time st =? 0)%float = false ->
     exists st',
       YOLOTrace.fps_published
         (fst (fst (YOLOWorker.video_loop e p v ((fs ++ [f]) ++ rest) st))) =
         (float_of_nat 10 /
          (time_at e (YOLOWorker.clock st) - YOLOWorker.start_time st))%float ::
         YOLOTrace.fps_published (fst (fst (YOLOWorker.video_loop e p v rest st'))) /\
       YOLOWorker.tests st' = YOLOWorker.tests st + 10 /\
       YOLOWorker.fps_counter st' = 0 /\
       YOLOWorker.start_time st' = time_at e (S (YOLOWorker.clock st)) /\
       YOLOWorker.clock st' = S (S (YOLOWorker.clock st))).
Proof.
  split.
  - intros st f1 f2 f3 f4 f5 rest C0 A0 B0 Hrun Hinf ta tb.
    destruct (cmp_block_fps e p st f1 f2 f3 f4 f5 rest C0 A0 B0 Hrun Hinf)
      as (st' & Hf & Ht & Hk & Hc & Ha & Hb).
    exists st'. repeat split; auto.
    + intros Hpos. unfold ComparisonWorker.fps_of, spec_fps. rewrite Hpos.
      unfold ta, times_a. rewrite length_map, length_seq. reflexivity.
    + intros ->. vm_compute. reflexivity.
  - intros v st fs f rest. apply yolo_block_fps.
Qed.

Lemma C5_published_fps_witness :
  (exists st',
     ComparisonTrace.fps_published
       (fst (fst (ComparisonWorker.video_loop quiet_env default_params
                    (replicate 5 blank) ComparisonWorker.vstate0))) =
     (1%float, 1%float) ::
     ComparisonTrace.fps_published
       (fst (fst (ComparisonWorker.video_loop quiet_env default_params [] st')))) /\
  (exists st',
     YOLOTrace.fps_published
       (fst (fst (YOLOWorker.video_loop quiet_env paced_params (clip 10) (replicate 10 blank)
                    {| YOLOWorker.fps_counter := 0; YOLOWorker.start_time := 0%float;
                       YOLOWorker.output_writer := false; YOLOWorker.tests := 0;
                       YOLOWorker.clock := 1 |}))) =
     10%float ::
     YOLOTrace.fps_published
       (fst (fst (YOLOWorker.video_loop quiet_env paced_params (clip 10) [] st')))).
Proof.
  destruct (C5_published_fps quiet_env default_params) as [Hc _].
  destruct (C5_published_fps quiet_env paced_params) as [_ Hy].
  split.
  - destruct (Hc ComparisonWorker.vstate0 blank blank blank blank blank [])
      as (sc & Hfc & _); try reflexivity.
    { intros f _. exists [], []. split; reflexivity. }
    exists sc. exact Hfc.
  - destruct (Hy (clip 10)
                {| YOLOWorker.fps_counter := 0; YOLOWorker.start_time := 0%float;
                   YOLOWorker.output_writer := false; YOLOWorker.tests := 0;
                   YOLOWorker.clock := 1 |}
                (replicate 9 blank) blank [])
      as (sy & Hfy & _); try reflexivity.
    { intros f' _. exists []. reflexivity. }
    exists sy. exact Hfy.
Defined.

End FpsClaims.

Module HistoryFacts.
Import DM DMSpec DMFacts HistorySpec.

Lemma end_session_closed_consistent now m cs :
  current_session m = Some cs -> open_ok cs ->
  exists cs', detection_history (snd (end_session now m)) = detection_history m ++ [cs'] /\
              closed_consistent cs'.
Proof.
  intros Hcs (Hend & (Hf & Hd & Hu & Hc) & Ha).
  rewrite (DMClaims.end_session_open now m cs Hcs). eexists. split; [reflexivity|].
  unfold closed_consistent, all_detections in *. simpl.
  split; [by eexists|]. split; [exact Hf|].
  split; [rewrite Hd; symmetry; apply length_all_detections|].
  split; [by rewrite Hu|]. split; [exact Hc|].
  unfold mean_confidence.
  destruct (concat (map f_detections (s_detections cs))); [exact Ha|reflexivity].
Qed.

Lemma run_call_history c m :
  inv m -> Forall closed_consistent (detection_history m) ->
  Forall closed_consistent (detection_history (snd (run_call c m))).
Proof.
  intros [Ho _] Hh. destruct c; simpl; auto.
  - unfold add_detection. destruct (current_session m); [|done].
    simpl. by destruct (count_classes _ _).
  - destruct (current_session m) as [cs|] eqn:Hcs.
    + destruct (end_session_closed_consistent now m cs Hcs (Ho cs eq_refl))
        as (cs' & -> & Hc').
      apply Forall_app. split; [exact Hh|]. by constructor.
    + unfold end_session. by rewrite Hcs.
Qed.

Lemma reachable_history m :
  reachable m -> Forall closed_consistent (detection_history m).
Proof.
  induction 1 as [|m c Hm IH]; [constructor|].
  apply run_call_history; [by apply reachable_inv|exact IH].
Qed.

End HistoryFacts.

Module HistoryClaims.
Import DM DMSpec DMFacts HistorySpec HistoryFacts Exports.

(** X1: in every reachable manager the statistics of each session of the
    history agree with the frames it recorded: the two counters, the class
    list (the distinct class names, each once), the per-class counts and
    the average confidence (the mean of all recorded confidences, 0.0 when
    there are none). *)
Theorem X1_history_stats_consistent m s :
  reachable m ->
  s ∈ detection_history m ->
  let dets := all_detections s in
  total_frames (stats s) = length (s_detections s) /\
  total_detections (stats s) = length dets /\
  (exists l, unique_classes (stats s) = ClassList l /\ NoDup l /\
             forall name, name ∈ l <-> name ∈ class_names dets) /\
  (forall name,
     DM.class_counts (stats s) !! name =
     match occurrences name dets with
     | O => None
     | S n => Some (S n)
     end) /\
  avg_confidence (stats s) = mean_confidence dets.
Proof.
  intros Hm Hs dets.
  pose proof (reachable_history m Hm) as Hh. rewrite Forall_forall in Hh.
  destruct (Hh s Hs) as (_ & Hf & Hd & Hu & Hc & Ha).
  repeat split; auto.
  eexists. split; [exact Hu|]. split; [apply NoDup_elements|].
  intros name. rewrite elem_of_elements, elem_of_list_to_set. reflexivity.
Qed.

Lemma X1_history_stats_consistent_witness :
  reachable DMExamples.three_closed /\
  exists s, s ∈ detection_history DMExamples.three_closed /\
            total_frames (stats s) = length (s_detections s) /\
            avg_confidence (stats s) = mean_confidence (all_detections s).
Proof.
  assert (Hr : reachable DMExamples.three_closed) by apply after_reachable.
  split; [exact Hr|].
  assert (Hn : match detection_history DMExamples.three_closed with
               | [_] => True
               | _ => False
               end) by (vm_compute; exact I).
  destruct (detection_history DMExamples.three_closed) as [|s [|]] eqn:Hh;
    try contradiction.
  assert (Hs : s ∈ detection_history DMExamples.three_closed)
    by (rewrite Hh; apply list_elem_of_here).
  exists s. split; [rewrite <- Hh; exact Hs|].
  destruct (X1_history_stats_consistent _ s Hr Hs) as (Hf & _ & _ & _ & Ha).
  split; [exact Hf|exact Ha].
Defined.

Lemma csv_rows_spec sessions :
  Forall closed_consistent sessions ->
  exists rows,
    csv_rows sessions = (rows, None) /\
    Forall2 (fun s row =>
               exists e, end_time s = Some e /\
               row = [session_id s; mode s; model s;
                      strftime_csv (start_time s); strftime_csv e;
                      pretty (length (s_detections s));
                      pretty (length (all_detections s));
                      pretty (size (list_to_set (class_names (all_detections s))
                                    : gset string));
                      format_2f (mean_confidence (all_detections s))])
            sessions rows.
Proof.
  induction 1 as [|s sessions Hs _ (rows & Hrows & IH)]; simpl.
  - eexists. split; [reflexivity|constructor].
  - destruct Hs as ([e He] & Hf & Hd & Hu & _ & Ha).
    unfold csv_row. rewrite He, Hrows. eexists. split; [reflexivity|].
    constructor; [|exact IH].
    exists e. split; [exact He|]. rewrite Hf, Hd, Hu, Ha. reflexivity.
Qed.

(** X2: on every reachable manager [export_to_csv] raises nothing and
    writes the header followed by one row per session of the history, in
    order; the row carries the session's id, mode, model, its start and
    end time to the second, the number of frames and of detections it
    recorded, the number of distinct class names among them and their
    mean confidence rounded to two decimals. The open session is not
    exported. *)
Theorem X2_export_to_csv_rows m :
  reachable m ->
  exists rows,
    export_to_csv m = (csv_header :: rows, None) /\
    length rows = length (detection_history m) /\
    Forall2 (fun s row =>
               exists e, end_time s = Some e /\
               row = [session_id s; mode s; model s;
                      strftime_csv (start_time s); strftime_csv e;
                      pretty (length (s_detections s));
                      pretty (length (all_detections s));
                      pretty (size (list_to_set (class_names (all_detections s))
                                    : gset string));
                      format_2f (mean_confidence (all_detections s))])
            (detection_history m) rows.
Proof.
  intros Hm.
  destruct (csv_rows_spec _ (reachable_history m Hm)) as (rows & Hrows & Hall).
  exists rows. unfold export_to_csv. rewrite Hrows.
  split; [reflexivity|]. split; [|exact Hall].
  symmetry. eapply Forall2_length, Hall.
Qed.

Lemma X2_export_to_csv_rows_witness :
  reachable DMExamples.three_closed /\
  export_to_csv DMExamples.three_closed =
    (csv_header ::
     [["20240502_120000"; "video"; "m1"; "2024-05-02 12:00:00";
       "2024-05-02 12:00:07"; "2"; "3"; "2"; "0.80"]], None).
Proof.
  assert (Hr : reachable DMExamples.three_closed) by apply after_reachable.
  split; [exact Hr|].
  destruct (X2_export_to_csv_rows _ Hr) as (rows & Heq & _ & _).
  rewrite Heq. f_equal.
  assert (Hv : fst (export_to_csv DMExamples.three_closed) =
               csv_header ::
               [["20240502_120000"; "video"; "m1"; "2024-05-02 12:00:00";
                 "2024-05-02 12:00:07"; "2"; "3"; "2"; "0.80"]])
    by (vm_compute; reflexivity).
  rewrite Heq in Hv. exact Hv.
Defined.

Lemma json_of_sessions_spec sessions :
  Forall closed_consistent sessions ->
  exists js, json_of_sessions sessions = inr js /\ length js = length sessions.
Proof.
  induction 1 as [|s sessions Hs _ (js & Hjs & Hlen)]; simpl.
  - by eexists.
  - destruct Hs as (_ & _ & _ & Hu & _).
    unfold json_of_session, json_of_stats. rewrite Hu. simpl. rewrite Hjs.
    eexists. split; [reflexivity|]. simpl. by rewrite Hlen.
Qed.

(** X3: on every reachable manager [export_to_json] raises nothing and
    dumps an array with one object per session of the history, because
    [end_session] replaced the class set by a list; the dict of a session
    that is still open holds the set and is not serializable. *)
Theorem X3_export_to_json_serializable m :
  reachable m ->
  (exists js, export_to_json m = inr (JArray js) /\
              length js = length (detection_history m)) /\
  (forall cs, current_session m = Some cs ->
     json_of_session cs =
       inl (TypeError "Object of type set is not JSON serializable")).
Proof.
  intros Hm. split.
  - destruct (json_of_sessions_spec _ (reachable_history m Hm)) as (js & Hjs & Hlen).
    exists js. unfold export_to_json. by rewrite Hjs.
  - intros cs Hcs. destruct (reachable_inv m Hm) as [Ho _].
    destruct (Ho cs Hcs) as (_ & (_ & _ & Hu & _) & _).
    unfold json_of_session, json_of_stats. by rewrite Hu.
Qed.

Lemma X3_export_to_json_serializable_witness :
  reachable DMExamples.three_closed /\
  exists js, export_to_json DMExamples.three_closed = inr (JArray js) /\ length js = 1.
Proof.
  assert (Hr : reachable DMExamples.three_closed) by apply after_reachable.
  split; [exact Hr|].
  destruct (proj1 (X3_export_to_json_serializable _ Hr)) as (js & Heq & Hlen).
  exists js. split; [exact Heq|]. rewrite Hlen. vm_compute. reflexivity.
Defined.

End HistoryClaims.

Module DashboardFacts.
Import DM DMSpec DMFacts HistorySpec HistoryFacts Dashboard.

Lemma add_counts_lookup (acc m : gmap string nat) :
  (forall k, default 0 (add_counts acc m !! k) = default 0 (acc !! k) + default 0 (m !! k)) /\
  dom (add_counts acc m) = dom acc ∪ dom m.
Proof.
  unfold add_counts.
  apply (map_fold_weak_ind
           (fun (r : gmap string nat) (m : gmap string nat) =>
              (forall k, default 0 (r !! k) = default 0 (acc !! k) + default 0 (m !! k)) /\
              dom r = dom acc ∪ dom m)).
  - split; [intros k; rewrite lookup_empty; simpl; lia|set_solver].
  - intros i x m' r Hi [Hr Hd]. split.
    + intros k. destruct (decide (i = k)) as [->|Hne].
      * rewrite !lookup_insert_eq. simpl. rewrite Hr, Hi. simpl. lia.
      * rewrite !lookup_insert_ne by done. apply Hr.
    + rewrite !dom_insert_L, Hd. set_solver.
Qed.

Lemma occurrences_concat name (ls : list (list detection)) :
  occurrences name (concat ls) = sum_list (map (occurrences name) ls).
Proof.
  induction ls as [|l ls IH]; simpl; [reflexivity|].
  by rewrite occurrences_app, IH.
Qed.

Lemma closed_counts s :
  closed_consistent s ->
  (forall k, default 0 (DM.class_counts (stats s) !! k) = occurrences k (all_detections s)) /\
  dom (DM.class_counts (stats s)) = list_to_set (class_names (all_detections s)).
Proof.
  intros (_ & _ & _ & _ & Hc & _). split.
  - intros k. rewrite Hc. by destruct (occurrences k (all_detections s)).
  - apply set_eq. intros k. rewrite elem_of_dom, Hc, elem_of_list_to_set.
    unfold class_names, occurrences. rewrite list_elem_of_fmap.
    split.
    + intros Hsome.
      destruct (filter (fun d => class_name d = k) (all_detections s)) as [|d l] eqn:Hf;
        [simpl in Hsome; by destruct Hsome|].
      assert (Hd : d ∈ filter (fun d => class_name d = k) (all_detections s))
        by (rewrite Hf; apply list_elem_of_here).
      apply list_elem_of_filter in Hd as [Hk Hin]. eauto.
    + intros (d & -> & Hin).
      assert (Hd : d ∈ filter (fun d' => class_name d' = class_name d) (all_detections s))
        by (apply list_elem_of_filter; auto).
      destruct (filter _ _); [by apply elem_of_nil in Hd|simpl; by eexists].
Qed.

(** One pass of the loop of [refresh_data] over a consistent session. *)
Lemma read_session_eq t s :
  closed_consistent s ->
  read_session t s =
  {| total_detections := total_detections t + length (all_detections s);
     all_classes := all_classes t ∪ list_to_set (class_names (all_detections s));
     total_confidence :=
       fold_left (fun a x => (a + x)%float) (map confidence (all_detections s))
                 (total_confidence t);
     confidence_count := confidence_count t + length (all_detections s);
     class_counts := add_counts (class_counts t) (DM.class_counts (stats s)) |}.
Proof.
  intros (_ & _ & Hd & Hu & _ & _). unfold read_session.
  rewrite (conf_totals_from (s_detections s)). cbn [fst snd].
  fold (all_detections s). rewrite Hd, Hu. cbn [update_classes].
  by rewrite list_to_set_elements_L.
Qed.

(** The loop of [refresh_data], from any values of its variables. *)
Lemma read_sessions_from sessions : forall t,
  Forall closed_consistent sessions ->
  let all := concat (map all_detections sessions) in
  let t' := fold_left read_session sessions t in
  total_detections t' = total_detections t + length all /\
  confidence_count t' = confidence_count t + length all /\
  total_confidence t' =
    fold_left (fun a x => (a + x)%float) (map confidence all) (total_confidence t) /\
  all_classes t' = all_classes t ∪ list_to_set (class_names all) /\
  (forall k, default 0 (class_counts t' !! k) =
             default 0 (class_counts t !! k) + occurrences k all) /\
  dom (class_counts t') = dom (class_counts t) ∪ list_to_set (class_names all).
Proof.
  induction sessions as [|s sessions IH]; intros t Hall.
  - cbn. repeat split; auto; try lia.
    + by rewrite (right_id_L ∅ (∪)).
    + by rewrite (right_id_L ∅ (∪)).
  - inversion Hall as [|? ? Hs Hrest]; subst.
    destruct (IH (read_session t s) Hrest) as (Hd & Hn & Hc & Hu & Hk & Hdom).
    clear IH.
    destruct (closed_counts s Hs) as [Hcs Hcd].
    destruct (add_counts_lookup (class_counts t) (DM.class_counts (stats s))) as [Hal Had].
    cbn [fold_left map concat].
    rewrite (read_session_eq t s Hs) in *.
    cbn [total_detections confidence_count total_confidence all_classes class_counts]
      in Hd, Hn, Hc, Hu, Hk, Hdom.
    unfold class_names in *.
    rewrite !map_app, !length_app, fold_left_app, !list_to_set_app_L.
    split; [rewrite Hd; lia|]. split; [rewrite Hn; lia|]. split; [exact Hc|].
    split; [rewrite Hu; by rewrite (assoc_L (∪))|].
    split.
    + intros k. rewrite Hk, Hal, Hcs, occurrences_app. lia.
    + rewrite Hdom, Had, Hcd. by rewrite (assoc_L (∪)).
Qed.

End DashboardFacts.

Module DashboardClaims.
Import DM DMSpec DMFacts HistorySpec HistoryFacts Dashboard DashboardFacts.

(** X4: on every reachable manager the dashboard shows what the history
    recorded: the number of sessions, the number of detections of all
    their frames (the sum of the sessions' counters equals the number of
    confidences the loop visits), the number of distinct class names
    among them, which is also the number of rows of the class table, and
    their mean confidence to two decimals (0.00 when there is none). *)
Theorem X4_dashboard_matches_history m :
  reachable m ->
  let all := history_detections m in
  let t := read_sessions (get_all_sessions m) in
  total_detections t = confidence_count t /\
  (forall k, default 0 (class_counts t !! k) = occurrences k all) /\
  dom (class_counts t) = all_classes t /\
  refresh_data m =
    {| total_sessions_card := length (detection_history m);
       total_detections_card := length all;
       unique_classes_card := size (list_to_set (class_names all) : gset string);
       avg_confidence_card := Exports.format_2f (mean_confidence all);
       class_table_rows := size (list_to_set (class_names all) : gset string) |}.
Proof.
  intros Hm all t.
  destruct (read_sessions_from (detection_history m) no_totals (reachable_history m Hm))
    as (Hd & Hn & Hc & Hu & Hk & Hdom).
  fold (history_detections m) in *. fold all in Hd, Hn, Hc, Hu, Hk, Hdom.
  simpl in Hd, Hn, Hc, Hu, Hk, Hdom.
  assert (Ht : t = fold_left read_session (detection_history m) no_totals) by reflexivity.
  rewrite <- Ht in *.
  split; [lia|]. split; [intros k; rewrite Hk, lookup_empty; reflexivity|].
  split; [rewrite Hdom, Hu, dom_empty_L; reflexivity|].
  unfold refresh_data. fold t. cbv zeta.
  rewrite Hd, Hn, Hc, Hu.
  assert (Hsz : size (class_counts t) = size (list_to_set (class_names all) : gset string)).
  { rewrite <- size_dom, Hdom, dom_empty_L. f_equal. set_solver. }
  rewrite Hsz. f_equal.
  - f_equal. set_solver.
  - f_equal. unfold mean_confidence, fsum.
    destruct all; [reflexivity|]. reflexivity.
Qed.

Lemma X4_dashboard_matches_history_witness :
  reachable DMExamples.three_closed /\
  refresh_data DMExamples.three_closed =
    {| total_sessions_card := 1; total_detections_card := 3;
       unique_classes_card := 2; avg_confidence_card := "0.80";
       class_table_rows := 2 |}.
Proof.
  assert (Hr : reachable DMExamples.three_closed) by apply after_reachable.
  split; [exact Hr|].
  destruct (X4_dashboard_matches_history _ Hr) as (_ & _ & _ & Heq).
  rewrite Heq. vm_compute. reflexivity.
Defined.

End DashboardClaims.

Module SessionIdFacts.
Import DM HistorySpec.

Lemma string_length_append (s t : string) :
  String.length (s ++ t)%string = String.length s + String.length t.
Proof. induction s as [|c s IH]; simpl; [reflexivity|by rewrite IH]. Qed.

Lemma length_pad_dec w : forall n, String.length (pad_dec w n) = w.
Proof.
  induction w as [|w IH]; intros n; simpl; [reflexivity|].
  rewrite string_length_append, IH. simpl. lia.
Qed.

Lemma append_inj_length (s1 s2 t1 t2 : string) :
  String.length s1 = String.length s2 ->
  (s1 ++ t1)%string = (s2 ++ t2)%string -> s1 = s2 /\ t1 = t2.
Proof.
  revert s2. induction s1 as [|c s1 IH]; intros [|c2 s2] Hlen Heq;
    simpl in *; try discriminate.
  - auto.
  - injection Heq as -> Heq. injection Hlen as Hlen.
    destruct (IH s2 Hlen Heq) as [-> ->]. auto.
Qed.

Lemma digit_inj a b :
  a < 10 -> b < 10 -> ascii_of_nat (48 + a) = ascii_of_nat (48 + b) -> a = b.
Proof.
  intros Ha Hb H. apply (f_equal nat_of_ascii) in H.
  rewrite !nat_ascii_embedding in H by lia. lia.
Qed.

Lemma pad_dec_inj w : forall n m,
  n < 10 ^ w -> m < 10 ^ w -> pad_dec w n = pad_dec w m -> n = m.
Proof.
  induction w as [|w IH]; intros n m Hn Hm Heq.
  - simpl in Hn, Hm. lia.
  - cbn [pad_dec] in Heq.
    apply append_inj_length in Heq as [Hhi Hlo];
      [|by rewrite !length_pad_dec].
    injection Hlo as Hlo.
    assert (Hd : n mod 10 = m mod 10).
    { apply digit_inj; [apply Nat.mod_upper_bound; lia ..|].
      by apply (f_equal (fun f => f) Hlo). }
    assert (Hq : n / 10 = m / 10).
    { apply IH; [| |exact Hhi];
        apply Nat.Div0.div_lt_upper_bound; rewrite Nat.pow_succ_r' in *; lia. }
    rewrite (Nat.div_mod_eq n 10), (Nat.div_mod_eq m 10). lia.
Qed.

Lemma start_session_id a sa mo md m :
  session_id <$> current_session (snd (start_session a sa mo md m)) =
  Some (strftime_id a).
Proof. reflexivity. Qed.

End SessionIdFacts.

Module SessionIdClaims.
Import DM HistorySpec SessionIdFacts.

(** X5: the ids [start_session] gives to two sessions are equal exactly
    when the two calls were made within the same calendar second: the id
    is the start time to the second, so it tells sessions of different
    seconds apart and no others. *)
Theorem X5_session_id_same_second a b sa sb mo mo' md md' m m' :
  valid_datetime a -> valid_datetime b ->
  (session_id <$> current_session (snd (start_session a sa mo md m)) =
   session_id <$> current_session (snd (start_session b sb mo' md' m'))
   <-> same_second a b).
Proof.
  intros (Ha1 & Ha2 & Ha3 & Ha4 & Ha5 & Ha6) (Hb1 & Hb2 & Hb3 & Hb4 & Hb5 & Hb6).
  rewrite !start_session_id. unfold strftime_id, same_second. split.
  - intros H. apply (inj Some) in H.
    apply append_inj_length in H as [H1 H]; [|by rewrite !length_pad_dec].
    apply append_inj_length in H as [H2 H]; [|by rewrite !length_pad_dec].
    apply append_inj_length in H as [H3 H]; [|by rewrite !length_pad_dec].
    apply (append_inj_length "_" "_") in H as [_ H]; [|reflexivity].
    apply append_inj_length in H as [H4 H]; [|by rewrite !length_pad_dec].
    apply (append_inj_length _ _ (pad_dec 2 (dt_second a)) (pad_dec 2 (dt_second b)))
      in H as [H5 H6]; [|by rewrite !length_pad_dec].
    repeat split; eapply pad_dec_inj; eauto.
  - intros (-> & -> & -> & -> & -> & ->). reflexivity.
Qed.

Lemma X5_session_id_same_second_witness :
  valid_datetime DMExamples.noon /\ valid_datetime DMExamples.later /\
  session_id <$> current_session
    (snd (start_session DMExamples.noon DMExamples.noon "image" "m1" init)) <>
  session_id <$> current_session
    (snd (start_session DMExamples.later DMExamples.later "image" "m1" init)).
Proof.
  assert (Hn : valid_datetime DMExamples.noon) by (vm_compute; repeat split; lia).
  assert (Hl : valid_datetime DMExamples.later) by (vm_compute; repeat split; lia).
  split; [exact Hn|]. split; [exact Hl|].
  intros H.
  apply (X5_session_id_same_second _ _ DMExamples.noon DMExamples.later
           "image" "image" "m1" "m1" init init Hn Hl) in H.
  destruct H as (_ & _ & _ & _ & _ & Hs). discriminate Hs.
Defined.

End SessionIdClaims.

Module ExtractFacts.
Import Runtime RunMarks.

Lemma extract_boxes_inr nm bs : forall dets,
  extract_boxes nm bs = inr dets <-> Forall2 (detection_of nm) bs dets.
Proof.
  induction bs as [|b bs IH]; intros dets; simpl.
  - split; [intros [= <-]; constructor | intros H; inversion H; reflexivity].
  - destruct (nm !! cls b) as [name|] eqn:Hn.
    + destruct (extract_boxes nm bs) as [ex|ds] eqn:He.
      * split; [discriminate|].
        intros H. inversion H as [|? d ? ds' Hd Hrest]; subst.
        apply IH in Hrest. discriminate.
      * split.
        -- intros [= <-]. constructor; [repeat split; auto|]. by apply IH.
        -- intros H. inversion H as [|? d ? ds' (H1 & H2 & H3 & H4) Hrest]; subst.
           apply IH in Hrest. injection Hrest as <-.
           destruct d; simpl in *. congruence.
    + split; [discriminate|].
      intros H. inversion H as [|? d ? ? (_ & _ & _ & H4) _]; subst. congruence.
Qed.

Lemma extract_boxes_inl nm bs : forall ex,
  extract_boxes nm bs = inl ex <->
  exists pre b post,
    bs = pre ++ b :: post /\ Forall (named nm) pre /\
    nm !! cls b = None /\ ex = KeyError (cls b).
Proof.
  induction bs as [|b bs IH]; intros ex; simpl.
  - split; [discriminate|]. intros (pre & b & post & H & _). by destruct pre.
  - destruct (nm !! cls b) as [name|] eqn:Hn.
    + destruct (extract_boxes nm bs) as [ex'|ds] eqn:He.
      * split.
        -- intros [= <-]. destruct (proj1 (IH ex') eq_refl) as (pre & b' & post & -> & Hp & Hb & ->).
           exists (b :: pre), b', post. repeat split; auto.
           constructor; [by exists name|exact Hp].
        -- intros (pre & b' & post & Hbs & Hp & Hb & ->).
           destruct pre as [|b0 pre]; simpl in Hbs; injection Hbs as -> ->; [congruence|].
           f_equal. symmetry.
           assert (H : inl ex' = (inl (KeyError (cls b')) : exn + list detection)).
           { apply IH. exists pre, b', post. repeat split; auto. by inversion Hp. }
           congruence.
      * split; [discriminate|].
        intros (pre & b' & post & Hbs & Hp & Hb & ->).
        destruct pre as [|b0 pre]; simpl in Hbs; injection Hbs as -> ->; [congruence|].
        assert (H : inr ds = (inl (KeyError (cls b')) : exn + list detection)).
        { apply IH. exists pre, b', post. repeat split; auto. by inversion Hp. }
        discriminate.
    + split.
      * intros [= <-]. exists [], b, bs. repeat split; auto.
      * intros (pre & b' & post & Hbs & Hp & Hb & ->).
        destruct pre as [|b0 pre]; simpl in Hbs; injection Hbs as -> ->; [reflexivity|].
        inversion Hp as [|? ? [name Hname] _]; subst. congruence.
Qed.

End ExtractFacts.

Module ExtractClaims.
Import Runtime RunMarks ExtractFacts.

(** X6: [_extract_detections] returns a list exactly when [result.boxes]
    is [None] (the empty list) or every box has a class id with a name in
    [result.names]; the list then holds one detection per box, in order,
    with the box's coordinates, confidence, class id and the name of that
    id. It raises exactly when some box has an unnamed class id, and the
    [KeyError] carries the id of the first such box. *)
Theorem X6_extract_detections res :
  (forall dets,
     _extract_detections res = inr dets <->
     (boxes res = None /\ dets = []) \/
     (exists bs, boxes res = Some bs /\ Forall2 (detection_of (names res)) bs dets)) /\
  (forall ex,
     _extract_detections res = inl ex <->
     exists pre b post,
       boxes res = Some (pre ++ b :: post) /\ Forall (named (names res)) pre /\
       names res !! cls b = None /\ ex = KeyError (cls b)).
Proof.
  unfold _extract_detections. destruct (boxes res) as [bs|]; split.
  - intros dets. rewrite extract_boxes_inr. split.
    + intros H. right. by exists bs.
    + intros [[? _]|(bs' & [= <-] & H)]; [discriminate|exact H].
  - intros ex. rewrite extract_boxes_inl. split.
    + intros (pre & b & post & -> & H). by exists pre, b, post.
    + intros (pre & b & post & [= ->] & H). by exists pre, b, post.
  - intros dets. split.
    + intros [= <-]. by left.
    + intros [[_ ->]|(bs & ? & _)]; [reflexivity|discriminate].
  - intros ex. split; [discriminate|]. intros (pre & b & post & ? & _). discriminate.
Qed.

End ExtractClaims.

Module RunFacts.
Import Runtime RunMarks Protocol.

Lemma length_remove_dups_size (l : list Z) :
  length (remove_dups l) = size (list_to_set l : gset Z).
Proof.
  rewrite <- (size_list_to_set (C:=gset Z) (remove_dups l)) by apply NoDup_remove_dups.
  f_equal. apply set_eq. intros x.
  rewrite !elem_of_list_to_set, elem_of_remove_dups. reflexivity.
Qed.

Lemma follows_app {E : Type} (step : handle -> E -> option handle) (a b : list E) :
  forall h, follows step h (a ++ b) = follows step h a ≫= fun h' => follows step h' b.
Proof.
  induction a as [|ev a IH]; intros h; simpl; [reflexivity|].
  destruct (step h ev); [apply IH|reflexivity].
Qed.

Lemma div_split (a b n : nat) : n <> 0 -> a / n + (a mod n + b) / n = (a + b) / n.
Proof.
  intros Hn. rewrite (Nat.div_mod a n) at 3 by exact Hn.
  rewrite <- Nat.add_assoc, (Nat.mul_comm n), Nat.div_add_l by exact Hn. reflexivity.
Qed.

Lemma mod_split (a b n : nat) : n <> 0 -> (a mod n + b) mod n = (a + b) mod n.
Proof. intros Hn. rewrite Nat.Div0.add_mod_idemp_l. reflexivity. Qed.

Section YOLO.
Import YOLOWorker YOLOTrace YOLOMarks.
Variables (e : env) (p : params).

Lemma update_stats_eq dets :
  _update_stats dets = stats_updated (fst (stats_of dets)) (snd (stats_of dets)).
Proof. unfold _update_stats, stats_of. simpl. by rewrite length_remove_dups_size. Qed.

(** The ways through the body of the video loop. *)
Lemma video_body_cases v st f :
  (exists ex, infer (predict e) p f = inl ex /\
     video_body e p v st f = ([model_predict f], st, Some ex)) \/
  (exists dets opened pre,
     infer (predict e) p f = inr dets /\
     opened = (if output_writer st then []
               else [writer_opened (if (prop_fps v <=? 0)%float then 20%float else prop_fps v)
                                   (width f) (height f)]) /\
     pre = model_predict f :: opened ++
             [writer_write (draw_detections e f dets (line_width p))] /\
     ((exists st1, video_body e p v st f = (pre, st1, Some ZeroDivisionError) /\
         output_writer st1 = true /\ fps_counter st1 = fps_counter st /\
         tests st1 = tests st /\ 10 <= fps_counter st + 1) \/
      (exists fe st2,
         video_body e p v st f =
           (pre ++ fe ++ [frame_processed f dets; _update_stats dets] ++ apply_delay p,
            st2, None) /\
         output_writer st2 = true /\ tests st2 = tests st /\
         ((fe = [] /\ fps_counter st2 = fps_counter st + 1 /\ fps_counter st + 1 < 10) \/
          (exists x, fe = [fps_updated x] /\ fps_counter st2 = 0 /\
                     10 <= fps_counter st + 1))))).
Proof.
  unfold video_body.
  destruct (infer (predict e) p f) as [ex|dets]; [left; by exists ex|right].
  eexists dets, _, _. split; [reflexivity|]. split; [reflexivity|]. split; [reflexivity|].
  unfold fps_step. cbn [fps_counter start_time output_writer tests clock].
  destruct (10 <=? fps_counter st + 1) eqn:Hc.
  - apply Nat.leb_le in Hc.
    destruct (time_at e (clock st) - start_time st =? 0)%float.
    + left. eexists. split; [reflexivity|]. simpl. auto.
    + right. eexists _, _. split; [reflexivity|]. simpl. split; [done|]. split; [done|].
      right. eexists. auto.
  - apply Nat.leb_gt in Hc.
    right. eexists _, _. split; [reflexivity|]. simpl. split; [done|]. split; [done|].
    left. auto.
Qed.

(** The ways through the body of the folder loop. *)
Lemma folder_body_cases i total path :
  let head := [progress_updated (i + 1) total; cv2_imread path] in
  (imread e path = None /\ folder_body e p i total path = (head, None)) \/
  (exists f ex, imread e path = Some f /\ infer (predict e) p f = inl ex /\
     folder_body e p i total path = (head ++ [model_predict f], Some ex)) \/
  (exists f dets, imread e path = Some f /\ infer (predict e) p f = inr dets /\
     folder_body e p i total path =
       (head ++ [model_predict f; batch_item_processed path f dets; _update_stats dets]
             ++ apply_delay p, None)).
Proof.
  cbv zeta. unfold folder_body. destruct (imread e path) as [f|]; [|by left].
  right. destruct (infer (predict e) p f) as [ex|dets] eqn:Hi;
    [left; by exists f, ex | right; by exists f, dets].
Qed.

Section Local.
Variable P : list event -> Prop.
Hypothesis P_app : forall a b, P a -> P b -> P (a ++ b).
Hypothesis P_nil : P [].
Hypothesis P_test : forall b, P [running_tested b].

(** A property of event lists kept by concatenation holds of the events
    of a loop as soon as it holds of each round. *)
Lemma video_loop_local v :
  (forall r, P [cap_read r]) ->
  (forall st f, P (video_body e p v st f).1.1) ->
  forall fs st, P (video_loop e p v fs st).1.1.
Proof.
  intros Hread Hbody. induction fs as [|f fs IH]; intros st; simpl.
  - destruct (running_at e (tests st)); simpl; [|apply P_test].
    apply (P_app [_] [_]); auto.
  - destruct (running_at e (tests st)); simpl; [|apply P_test].
    specialize (Hbody (tested st) f).
    destruct (video_body e p v (tested st) f) as [[tr st1] [ex|]]; simpl in Hbody |- *.
    + apply (P_app [_] (_ :: _)); auto. apply (P_app [_] _); auto.
    + specialize (IH st1).
      destruct (video_loop e p v fs st1) as [[tr' st2] ex']; simpl in IH |- *.
      apply (P_app [_] (_ :: _)); auto. apply (P_app [_] _); auto.
Qed.

Lemma folder_loop_local total :
  (forall i path, P (folder_body e p i total path).1) ->
  forall files i, P (folder_loop e p total files i).1.
Proof.
  intros Hbody. induction files as [|path rest IH]; intros i; simpl; [apply P_nil|].
  destruct (running_at e i); simpl; [|apply P_test].
  specialize (Hbody i path).
  destruct (folder_body e p i total path) as [tr [ex|]]; simpl in Hbody |- *.
  - apply (P_app [_] _); auto.
  - specialize (IH (S i)).
    destruct (folder_loop e p total rest (S i)) as [tr' ex']; simpl in IH |- *.
    apply (P_app [_] _); auto.
Qed.

End Local.

End YOLO.

Section Comparison.
Import ComparisonWorker ComparisonTrace ComparisonMarks.
Variables (e : env) (p : params).

(** The ways through two timed inferences. *)
Lemma timed_pair_cases c f :
  (exists tr ex, timed_pair e p c f = (tr, inl ex) /\
     (tr = [model_a_predict f] \/ tr = [model_a_predict f; model_b_predict f])) \/
  (exists da db, infer (predict e) p f = inr da /\ infer (predict_b e) p f = inr db /\
     timed_pair e p c f =
       ([model_a_predict f; model_b_predict f],
        inr (da, db, elapsed_ms e c, elapsed_ms e (S (S c))))).
Proof.
  unfold timed_pair. destruct (infer (predict e) p f) as [ex|da]; [left; eexists _, _; eauto|].
  destruct (infer (predict_b e) p f) as [ex|db]; [left; eexists _, _; eauto|].
  right. by exists da, db.
Qed.

(** The ways through the body of the video loop. *)
Lemma cmp_video_body_cases st f :
  (exists tr ex,
     (tr = [model_a_predict f] \/ tr = [model_a_predict f; model_b_predict f]) /\
     video_body e p st f = (tr, st, Some ex)) \/
  (exists da db ta tb fe st2,
     infer (predict e) p f = inr da /\ infer (predict_b e) p f = inr db /\
     video_body e p st f =
       (([model_a_predict f; model_b_predict f] ++ [frame_processed f da db ta tb]
           ++ apply_delay p) ++ fe, st2, None) /\
     tests st2 = tests st /\
     ((fe = [] /\ fps_counter st2 = fps_counter st + 1 /\ fps_counter st + 1 < 5) \/
      (exists x y, fe = [fps_updated x y] /\ fps_counter st2 = 0 /\
                   5 <= fps_counter st + 1))).
Proof.
  unfold video_body.
  destruct (timed_pair_cases (clock st) f) as
    [(tr & ex & -> & Htr)|(da & db & Ha & Hb & ->)]; [left; by exists tr, ex|right].
  destruct (5 <=? fps_counter st + 1) eqn:Hc.
  - apply Nat.leb_le in Hc. eexists da, db, _, _, _, _.
    split; [exact Ha|]. split; [exact Hb|]. split; [reflexivity|]. split; [reflexivity|].
    right. eexists _, _. auto.
  - apply Nat.leb_gt in Hc. eexists da, db, _, _, [], _.
    split; [exact Ha|]. split; [exact Hb|]. split; [by rewrite app_nil_r|].
    split; [reflexivity|]. left. auto.
Qed.

(** The ways through the body of the folder loop. *)
Lemma cmp_folder_body_cases i total c path :
  let head := [progress_updated (i + 1) total; cv2_imread path] in
  (imread e path = None /\ folder_body e p i total c path = (head, c, None)) \/
  (exists f tr ex, imread e path = Some f /\
     (tr = [model_a_predict f] \/ tr = [model_a_predict f; model_b_predict f]) /\
     folder_body e p i total c path = (head ++ tr, c, Some ex)) \/
  (exists f da db ta tb, imread e path = Some f /\
     infer (predict e) p f = inr da /\ infer (predict_b e) p f = inr db /\
     folder_body e p i total c path =
       (head ++ [model_a_predict f; model_b_predict f]
             ++ [frame_processed f da db ta tb; batch_item_processed path f da db]
             ++ apply_delay p, 4 + c, None)).
Proof.
  cbv zeta. unfold folder_body. destruct (imread e path) as [f|]; [|by left].
  right.
  destruct (timed_pair_cases c f) as
    [(tr & ex & -> & Htr)|(da & db & Ha & Hb & ->)];
    [left; by exists f, tr, ex|right].
  by eexists f, da, db, _, _.
Qed.

(** The ways through [_process_image]. *)
Lemma cmp_process_image_cases source :
  (imread e source = None /\
   _process_image e p source = ([cv2_imread source], Some (Error "Failed to load image"))) \/
  (exists f tr ex, imread e source = Some f /\
     (tr = [model_a_predict f] \/ tr = [model_a_predict f; model_b_predict f]) /\
     _process_image e p source = (cv2_imread source :: tr, Some ex)) \/
  (exists f da db ta tb, imread e source = Some f /\
     infer (predict e) p f = inr da /\ infer (predict_b e) p f = inr db /\
     _process_image e p source =
       (cv2_imread source :: [model_a_predict f; model_b_predict f]
          ++ [frame_processed f da db ta tb] ++ apply_delay p, None)).
Proof.
  unfold _process_image. destruct (imread e source) as [f|]; [|by left].
  right.
  destruct (timed_pair_cases 0 f) as
    [(tr & ex & -> & Htr)|(da & db & Ha & Hb & ->)];
    [left; by exists f, tr, ex|right].
  by eexists f, da, db, _, _.
Qed.

Section Local.
Variable P : list event -> Prop.
Hypothesis P_app : forall a b, P a -> P b -> P (a ++ b).
Hypothesis P_nil : P [].
Hypothesis P_test : forall b, P [running_tested b].

Lemma cmp_video_loop_local :
  (forall r, P [cap_read r]) ->
  (forall st f, P (video_body e p st f).1.1) ->
  forall fs st, P (video_loop e p fs st).1.1.
Proof.
  intros Hread Hbody. induction fs as [|f fs IH]; intros st; simpl.
  - destruct (running_at e (tests st)); simpl; [|apply P_test].
    apply (P_app [_] [_]); auto.
  - destruct (running_at e (tests st)); simpl; [|apply P_test].
    specialize (Hbody (tested st) f).
    destruct (video_body e p (tested st) f) as [[tr st1] [ex|]]; simpl in Hbody |- *.
    + apply (P_app [_] (_ :: _)); auto. apply (P_app [_] _); auto.
    + specialize (IH st1).
      destruct (video_loop e p fs st1) as [[tr' st2] ex']; simpl in IH |- *.
      apply (P_app [_] (_ :: _)); auto. apply (P_app [_] _); auto.
Qed.

Lemma cmp_folder_loop_local total :
  (forall i c path, P (folder_body e p i total c path).1.1) ->
  forall files i c, P (folder_loop e p total files i c).1.
Proof.
  intros Hbody. induction files as [|path rest IH]; intros i c; simpl; [apply P_nil|].
  destruct (running_at e i); simpl; [|apply P_test].
  specialize (Hbody i c path).
  destruct (folder_body e p i total c path) as [[tr c'] [ex|]]; simpl in Hbody |- *.
  - apply (P_app [_] _); auto.
  - specialize (IH (S i) c').
    destruct (folder_loop e p total rest (S i) c') as [tr' ex']; simpl in IH |- *.
    apply (P_app [_] _); auto.
Qed.

End Local.

End Comparison.

End RunFacts.

Module StatsFacts.
Import Runtime RunMarks RunFacts.

Lemma length_remove_dups_le (l : list Z) : length (remove_dups l) <= length l.
Proof.
  induction l as [|x l IH]; simpl; [lia|].
  destruct (decide_rel elem_of x l); simpl; lia.
Qed.

Lemma stats_of_bounds dets :
  fst (stats_of dets) <= snd (stats_of dets) /\
  (fst (stats_of dets) = 0 <-> snd (stats_of dets) = 0).
Proof.
  unfold stats_of. simpl. rewrite <- length_remove_dups_size. split.
  - etransitivity; [apply length_remove_dups_le|]. by rewrite length_map.
  - destruct dets as [|d dets]; simpl; [done|].
    destruct (decide_rel elem_of (class_id d) (map class_id dets)) as [Hin|Hin];
      simpl; [|done].
    split; [|discriminate]. intros H0. apply length_zero_iff_nil in H0.
    apply elem_of_remove_dups in Hin. rewrite H0 in Hin. by apply elem_of_nil in Hin.
Qed.

Section YOLO.
Import YOLOWorker YOLOTrace YOLOMarks.
Variables (e : env) (p : params).

Lemma video_body_stats v st f : stats_match_results (video_body e p v st f).1.1.
Proof.
  unfold stats_match_results, stats_events, results.
  destruct (video_body_cases e p v st f) as
    [(ex & _ & ->)|(dets & opened & pre & _ & -> & -> & [(st1 & -> & _)|(fe & st2 & -> & _ & _ & Hfe)])];
    [reflexivity| |].
  - simpl. rewrite !omap_app. by destruct (output_writer st).
  - rewrite update_stats_eq. unfold apply_delay.
    destruct Hfe as [(-> & _)|(x & -> & _)];
      destruct (output_writer st), (0 <? inference_delay p)%Z; reflexivity.
Qed.

Lemma folder_body_stats i total path : stats_match_items (folder_body e p i total path).1.
Proof.
  unfold stats_match_items, stats_events, items.
  destruct (folder_body_cases e p i total path) as
    [(_ & ->)|[(f & ex & _ & _ & ->)|(f & dets & _ & _ & ->)]]; [reflexivity..|].
  rewrite update_stats_eq. unfold apply_delay.
  destruct (0 <? inference_delay p)%Z; reflexivity.
Qed.

Lemma video_loop_stats v fs st : stats_match_results (video_loop e p v fs st).1.1.
Proof.
  apply (video_loop_local e p stats_match_results); try done.
  - intros a b Ha Hb. unfold stats_match_results, stats_events, results in *.
    by rewrite !omap_app, map_app, Ha, Hb.
  - intros st' f. apply video_body_stats.
Qed.

Lemma folder_loop_stats total files i :
  stats_match_items (folder_loop e p total files i).1.
Proof.
  apply (folder_loop_local e p stats_match_items); try done.
  - intros a b Ha Hb. unfold stats_match_items, stats_events, items in *.
    by rewrite !omap_app, map_app, Ha, Hb.
  - intros j path. apply folder_body_stats.
Qed.

End YOLO.

End StatsFacts.

Module StatsClaims.
Import Runtime RunMarks RunFacts StatsFacts YOLOWorker YOLOTrace YOLOMarks.

(** X7: in every video run and every folder run of the single-model
    worker the statistics are published once per published result, in
    the same order, and carry the number of distinct class ids and the
    number of detections of that result; so the number of classes never
    exceeds the number of targets and is zero exactly when there is no
    target. *)
Theorem X7_stats_follow_results e p source v folder fs :
  let video_run := _process_video e p source v in
  let folder_run := _process_folder e p folder fs in
  stats_events video_run = map (fun r => stats_of (snd r)) (results video_run) /\
  stats_events folder_run = map (fun it => stats_of (snd it)) (items folder_run) /\
  Forall (fun ct => fst ct <= snd ct /\ (fst ct = 0 <-> snd ct = 0))
         (stats_events video_run ++ stats_events folder_run).
Proof.
  intros video_run folder_run.
  assert (Hv : stats_events video_run = map (fun r => stats_of (snd r)) (results video_run)).
  { unfold video_run, _process_video. destruct (negb (is_opened v)); [reflexivity|].
    match goal with |- context [video_loop e p v ?fs ?st] =>
      pose proof (video_loop_stats e p v fs st) as H;
      destruct (video_loop e p v fs st) as [[tr st'] ex] end.
    unfold stats_match_results, stats_events, results in *. simpl in H.
    rewrite !omap_app, map_app, H.
    destruct ex, (output_writer st'); simpl; by rewrite app_nil_r. }
  assert (Hf : stats_events folder_run = map (fun it => stats_of (snd it)) (items folder_run)).
  { unfold folder_run, _process_folder.
    destruct (folder ≫= _) as [[path tree]|]; [|reflexivity].
    destruct (Helper.get_image_files path tree) as [|f0 files] eqn:Hfiles; [reflexivity|].
    match goal with |- context [folder_loop e p ?t ?fs ?i] =>
      pose proof (folder_loop_stats e p t fs i) as H;
      destruct (folder_loop e p t fs i) as [tr ex] end.
    unfold stats_match_items, stats_events, items in *. simpl in H.
    rewrite !omap_app, map_app, H. destruct ex; simpl; by rewrite app_nil_r. }
  split; [exact Hv|]. split; [exact Hf|].
  rewrite Hv, Hf. apply Forall_app. split; apply Forall_forall; intros ct Hct;
    apply list_elem_of_fmap in Hct as (r & -> & _); apply stats_of_bounds.
Qed.

End StatsClaims.

Module ResourceFacts.
Import Runtime RunMarks Protocol RunFacts.

Section YOLO.
Import YOLOWorker YOLOTrace YOLOMarks.
Variables (e : env) (p : params) (v : video).

Lemma video_body_writer st f :
  follows writer_step (writer_of (output_writer st)) (video_body e p v st f).1.1 =
    Some (writer_of (output_writer (video_body e p v st f).1.2)).
Proof.
  destruct (video_body_cases e p v st f) as
    [(ex & _ & ->)|(dets & opened & pre & _ & -> & -> &
       [(st1 & -> & Hw & _)|(fe & st2 & -> & Hw & _ & Hfe)])]; simpl.
  - reflexivity.
  - rewrite Hw. by destruct (output_writer st).
  - rewrite Hw. unfold apply_delay.
    destruct Hfe as [(-> & _)|(x & -> & _)];
      destruct (output_writer st), (0 <? inference_delay p)%Z; reflexivity.
Qed.

Lemma video_loop_writer fs : forall st,
  follows writer_step (writer_of (output_writer st)) (video_loop e p v fs st).1.1 =
    Some (writer_of (output_writer (video_loop e p v fs st).1.2)).
Proof.
  induction fs as [|f fs IH]; intros st; simpl.
  - by destruct (running_at e (tests st)).
  - destruct (running_at e (tests st)); [|reflexivity].
    pose proof (video_body_writer (tested st) f) as Hb.
    destruct (video_body e p v (tested st) f) as [[tr st1] [ex|]]; simpl in Hb |- *.
    + exact Hb.
    + specialize (IH st1).
      destruct (video_loop e p v fs st1) as [[tr' st2] ex']; simpl in IH |- *.
      by rewrite follows_app, Hb.
Qed.

Lemma video_body_cap st f :
  follows cap_step Open (video_body e p v st f).1.1 = Some Open.
Proof.
  destruct (video_body_cases e p v st f) as
    [(ex & _ & ->)|(dets & opened & pre & _ & -> & -> &
       [(st1 & -> & _)|(fe & st2 & -> & _ & _ & Hfe)])]; simpl.
  - reflexivity.
  - by destruct (output_writer st).
  - unfold apply_delay.
    destruct Hfe as [(-> & _)|(x & -> & _)];
      destruct (output_writer st), (0 <? inference_delay p)%Z; reflexivity.
Qed.

Lemma video_loop_cap fs st :
  follows cap_step Open (video_loop e p v fs st).1.1 = Some Open.
Proof.
  apply (video_loop_local e p (fun tr => follows cap_step Open tr = Some Open)); try done.
  - intros a b Ha Hb. by rewrite follows_app, Ha.
  - intros st' f. apply video_body_cap.
Qed.

End YOLO.

Section Comparison.
Import ComparisonWorker ComparisonTrace ComparisonMarks.
Variables (e : env) (p : params).

Lemma cmp_video_body_cap st f :
  follows cap_step Open (video_body e p st f).1.1 = Some Open.
Proof.
  unfold video_body.
  destruct (timed_pair_cases e p (clock st) f) as
    [(tr & ex & -> & [->| ->])|(da & db & _ & _ & ->)]; [reflexivity..|].
  unfold apply_delay.
  destruct (5 <=? fps_counter st + 1), (0 <? inference_delay p)%Z; reflexivity.
Qed.

Lemma cmp_video_loop_cap fs st :
  follows cap_step Open (video_loop e p fs st).1.1 = Some Open.
Proof.
  apply (cmp_video_loop_local e p (fun tr => follows cap_step Open tr = Some Open)); try done.
  - intros a b Ha Hb. by rewrite follows_app, Ha.
  - intros st' f. apply cmp_video_body_cap.
Qed.

End Comparison.

End ResourceFacts.

Module ResourceClaims.
Import Runtime RunMarks Protocol RunFacts ResourceFacts.

(** X8: however a video run of either worker ends (end of the file, a
    stop, an exception of the model or of the FPS division), the capture
    that was opened is read only before its release and released exactly
    once; in the single-model worker the release is the last thing the run
    does, and the video writer is opened at most once, written to only
    while open and released exactly once if it was opened. A capture that
    could not be opened is neither read nor released. *)
Theorem X8_video_resources_released e p source v :
  let tr := YOLOWorker._process_video e p source v in
  let after_cap := if is_opened v then Released else Unopened in
  follows YOLOMarks.cap_step (YOLOMarks.cap_of v) tr = Some after_cap /\
  (exists h, follows YOLOMarks.writer_step Unopened tr = Some h /\ h <> Open) /\
  last tr = Some (if is_opened v then YOLOWorker.cap_release
                  else YOLOWorker.error_occurred ("Failed to open video: " ++ source)%string) /\
  follows ComparisonMarks.cap_step (YOLOMarks.cap_of v)
          (ComparisonWorker.run e p (ComparisonWorker.VideoJob source v)) = Some after_cap.
Proof.
  intros tr after_cap. subst tr after_cap.
  unfold YOLOWorker._process_video, ComparisonWorker.run, ComparisonWorker._process_video,
    YOLOMarks.cap_of.
  destruct (is_opened v); simpl; [|split; [done|]; split; [by exists Unopened|done]].
  match goal with |- context [YOLOWorker.video_loop e p v ?fs ?st] =>
    pose proof (video_loop_cap e p v fs st) as Hc;
    pose proof (video_loop_writer e p v fs st) as Hw;
    destruct (YOLOWorker.video_loop e p v fs st) as [[tr st'] ex] end.
  match goal with |- context [ComparisonWorker.video_loop e p ?fs ?st] =>
    pose proof (cmp_video_loop_cap e p fs st) as Hc';
    destruct (ComparisonWorker.video_loop e p fs st) as [[tr' st''] ex'] end.
  simpl in Hc, Hw, Hc'. repeat split.
  - rewrite follows_app, Hc. simpl. by destruct ex, (YOLOWorker.output_writer st').
  - rewrite follows_app, Hw. simpl.
    destruct ex, (YOLOWorker.output_writer st'); simpl; by eexists.
  - rewrite !app_assoc. apply last_snoc.
  - rewrite <- !app_assoc, follows_app, Hc'. simpl. by destruct ex'.
Qed.

End ResourceClaims.

Module ProgressFacts.
Import Runtime RunMarks RunFacts RunSpec FolderFacts MainWindow.

Lemma yolo_process_folder_eq e p source tree fs :
  fs source = Some tree ->
  YOLOWorker._process_folder e p (Some source) fs =
    match Helper.get_image_files source tree with
    | [] => [YOLOWorker.error_occurred "No image files found in folder"]
    | _ :: _ =>
        let '(tr, ex) :=
          YOLOWorker.folder_loop e p (length (Helper.get_image_files source tree))
            (Helper.get_image_files source tree) 0 in
        tr ++ match ex with
              | Some x => [YOLOWorker.error_occurred
                             ("Folder processing error: " ++ str x)%string]
              | None => []
              end
    end.
Proof. intros Hfs. unfold YOLOWorker._process_folder. simpl. rewrite Hfs. reflexivity. Qed.

Lemma cmp_process_folder_eq e p source tree fs :
  fs source = Some tree ->
  ComparisonWorker._process_folder e p source fs =
    ComparisonWorker.folder_loop e p (length (Helper.get_image_files source tree))
      (Helper.get_image_files source tree) 0 0.
Proof. intros Hfs. unfold ComparisonWorker._process_folder. rewrite Hfs. reflexivity. Qed.

Lemma yolo_loop_progress e p total files : forall i,
  exists k, k <= length files /\
    YOLOTrace.progress (YOLOWorker.folder_loop e p total files i).1 = counted total k (S i) /\
    YOLOTrace.files_read (YOLOWorker.folder_loop e p total files i).1 = take k files.
Proof.
  induction files as [|path rest IH]; intros i; simpl.
  - exists 0. repeat split; auto.
  - destruct (running_at e i); [|exists 0; simpl; repeat split; auto; lia].
    destruct (yolo_body_reads e p i total path) as (Hr & Hp & _).
    rewrite Nat.add_1_r in Hp.
    destruct (YOLOWorker.folder_body e p i total path) as [tr [ex|]]; simpl in Hr, Hp |- *.
    + exists 1. unfold YOLOTrace.progress, YOLOTrace.files_read in *. simpl.
      rewrite Hr, Hp. unfold counted. simpl. rewrite take_0. repeat split; auto. lia.
    + destruct (IH (S i)) as (k & Hk & Hpk & Hrk).
      destruct (YOLOWorker.folder_loop e p total rest (S i)) as [tr' ex']; simpl in *.
      exists (S k). unfold YOLOTrace.progress, YOLOTrace.files_read in *. simpl.
      rewrite !omap_app, Hr, Hp, Hpk, Hrk. repeat split; auto. lia.
Qed.

Lemma cmp_loop_progress e p total files : forall i c,
  exists k, k <= length files /\
    ComparisonTrace.progress (ComparisonWorker.folder_loop e p total files i c).1 =
      counted total k (S i) /\
    ComparisonTrace.files_read (ComparisonWorker.folder_loop e p total files i c).1 =
      take k files.
Proof.
  induction files as [|path rest IH]; intros i c; simpl.
  - exists 0. repeat split; auto.
  - destruct (running_at e i); [|exists 0; simpl; repeat split; auto; lia].
    destruct (cmp_body_reads e p i total c path) as (Hr & Hp & _).
    rewrite Nat.add_1_r in Hp.
    destruct (ComparisonWorker.folder_body e p i total c path) as [[tr c'] [ex|]];
      simpl in Hr, Hp |- *.
    + exists 1. unfold ComparisonTrace.progress, ComparisonTrace.files_read in *. simpl.
      rewrite Hr, Hp. unfold counted. simpl. rewrite take_0. repeat split; auto. lia.
    + destruct (IH (S i) c') as (k & Hk & Hpk & Hrk).
      destruct (ComparisonWorker.folder_loop e p total rest (S i) c') as [tr' ex']; simpl in *.
      exists (S k). unfold ComparisonTrace.progress, ComparisonTrace.files_read in *. simpl.
      rewrite !omap_app, Hr, Hp, Hpk, Hrk. repeat split; auto. lia.
Qed.

Lemma percent_counted total k :
  k <= total ->
  Forall (fun ct => 1 <= fst ct <= snd ct /\
                    exists q, percent (fst ct) (snd ct) = Some q /\ q <= 100 /\
                              is_Some (progress_format (fst ct) (snd ct)))
         (counted total k 1).
Proof.
  intros Hk. apply Forall_forall. intros ct Hct.
  apply list_elem_of_fmap in Hct as (j & -> & Hj). apply elem_of_seq in Hj. simpl.
  split; [lia|]. unfold progress_format, percent.
  destruct (total =? 0) eqn:Ht; [apply Nat.eqb_eq in Ht; lia|].
  eexists. split; [reflexivity|]. split; [|by eexists].
  apply Nat.Div0.div_le_upper_bound. lia.
Qed.

End ProgressFacts.

Module ProgressClaims.
Import Runtime RunMarks RunFacts ProgressFacts MainWindow.

(** X9: in every folder run of either worker the progress notifications
    are [(1, total), (2, total), ...], one before each file that is read
    and in the order of the files, with [total] the number of image files
    found; so [current] runs from 1 to at most [total], the percentage
    [on_progress_updated] computes never divides by zero and never
    exceeds 100. *)
Theorem X9_folder_progress e p source tree fs :
  fs source = Some tree ->
  let files := Helper.get_image_files source tree in
  let total := length files in
  (exists k, k <= total /\
     YOLOTrace.progress (YOLOWorker._process_folder e p (Some source) fs) =
       map (fun j => (j, total)) (seq 1 k) /\
     YOLOTrace.files_read (YOLOWorker._process_folder e p (Some source) fs) = take k files) /\
  (exists k, k <= total /\
     ComparisonTrace.progress (ComparisonWorker._process_folder e p source fs).1 =
       map (fun j => (j, total)) (seq 1 k) /\
     ComparisonTrace.files_read (ComparisonWorker._process_folder e p source fs).1 =
       take k files) /\
  Forall (fun ct => 1 <= fst ct <= snd ct /\
                    exists q, percent (fst ct) (snd ct) = Some q /\ q <= 100 /\
                              is_Some (progress_format (fst ct) (snd ct)))
         (YOLOTrace.progress (YOLOWorker._process_folder e p (Some source) fs) ++
          ComparisonTrace.progress (ComparisonWorker._process_folder e p source fs).1).
Proof.
  intros Hfs files total.
  assert (Hy : exists k, k <= total /\
     YOLOTrace.progress (YOLOWorker._process_folder e p (Some source) fs) =
       counted total k 1 /\
     YOLOTrace.files_read (YOLOWorker._process_folder e p (Some source) fs) = take k files).
  { rewrite (yolo_process_folder_eq e p source tree fs Hfs). fold files.
    destruct (nil_or_length_pos files) as [Hnil|Hpos].
    - rewrite Hnil. exists 0. repeat split; auto. lia.
    - assert (Hm : forall (A : Type) (a b : A),
                match files with [] => a | _ :: _ => b end = b)
        by (intros; destruct files; [simpl in Hpos; lia|reflexivity]).
      rewrite Hm. fold total.
      destruct (yolo_loop_progress e p total files 0) as (k & Hk & Hp & Hr).
      destruct (YOLOWorker.folder_loop e p total files 0) as [tr ex]; simpl in Hp, Hr.
      exists k. unfold YOLOTrace.progress, YOLOTrace.files_read in *.
      rewrite !omap_app, Hp, Hr. destruct ex; simpl; rewrite !app_nil_r; auto. }
  assert (Hc : exists k, k <= total /\
     ComparisonTrace.progress (ComparisonWorker._process_folder e p source fs).1 =
       counted total k 1 /\
     ComparisonTrace.files_read (ComparisonWorker._process_folder e p source fs).1 =
       take k files).
  { rewrite (cmp_process_folder_eq e p source tree fs Hfs). fold files. fold total.
    apply cmp_loop_progress. }
  split; [exact Hy|]. split; [exact Hc|].
  destruct Hy as (k1 & Hk1 & -> & _), Hc as (k2 & Hk2 & -> & _).
  apply Forall_app. split; by apply percent_counted.
Qed.

Lemma X9_folder_progress_witness :
  YOLOTrace.progress
    (YOLOWorker._process_folder Examples.quiet_env Examples.default_params (Some "d")
       Examples.abc_fs) = [(1, 3); (2, 3); (3, 3)] /\
  map (fun ct => percent (fst ct) (snd ct)) [(1, 3); (2, 3); (3, 3)] =
    [Some 33; Some 66; Some 100].
Proof.
  destruct (X9_folder_progress Examples.quiet_env Examples.default_params "d"
              Examples.abc_dir Examples.abc_fs eq_refl) as [(k & Hk & Hp & Hr) _].
  split; [|reflexivity].
  rewrite Hp.
  assert (Hlen : length (YOLOTrace.files_read
            (YOLOWorker._process_folder Examples.quiet_env Examples.default_params (Some "d")
               Examples.abc_fs)) = 3) by (vm_compute; reflexivity).
  rewrite Hr, length_take in Hlen.
  assert (Ht : length (Helper.get_image_files "d" Examples.abc_dir) = 3)
    by (vm_compute; reflexivity).
  rewrite Ht in Hlen, Hk |- *. assert (k = 3) as -> by lia. reflexivity.
Defined.

End ProgressClaims.

Module ErrorFacts.
Import Runtime RunMarks RunFacts.

Section YOLO.
Import YOLOWorker YOLOTrace YOLOMarks.
Variables (e : env) (p : params).





End YOLO.

Section Comparison.
Import ComparisonWorker ComparisonTrace ComparisonMarks.
Variables (e : env) (p : params).






End Comparison.

End ErrorFacts.

Module ErrorClaims.
Import Runtime RunMarks RunFacts ErrorFacts YOLOMarks ComparisonMarks.


End ErrorClaims.

Module ThroughputFacts.
Import Runtime RunMarks RunFacts.

#[local] Arguments Nat.div : simpl never.
#[local] Arguments Nat.modulo : simpl never.

Section YOLO.
Import YOLOWorker YOLOTrace YOLOMarks.
Variables (e : env) (p : params).

Lemma video_body_fps_count v st f :
  fps_counter st < 10 ->
  let r := video_body e p v st f in
  length (fps_published r.1.1) = (fps_counter st + length (results r.1.1)) / 10 /\
  fps_counter r.1.2 = (fps_counter st + length (results r.1.1)) mod 10.
Proof.
  intros Hc. cbv zeta. unfold fps_published, results.
  destruct (video_body_cases e p v st f) as
    [(ex & _ & ->)|(dets & opened & pre & _ & -> & -> &
       [(st1 & -> & _ & Hk & _)|(fe & st2 & -> & _ & _ & Hfe)])]; simpl.
  - rewrite Nat.add_0_r, Nat.div_small, Nat.mod_small by lia. done.
  - rewrite Hk. destruct (output_writer st); simpl;
      rewrite Nat.add_0_r, Nat.div_small, Nat.mod_small by lia; done.
  - unfold apply_delay, _update_stats.
    destruct Hfe as [(-> & Hk & Hlt)|(x & -> & Hk & Hge)]; rewrite Hk;
      destruct (output_writer st), (0 <? inference_delay p)%Z; simpl;
      first [ rewrite Nat.div_small, Nat.mod_small by lia; done
            | assert (fps_counter st = 9) as -> by lia; done ].
Qed.

Lemma video_loop_fps_count v fs : forall st,
  fps_counter st < 10 ->
  let r := video_loop e p v fs st in
  length (fps_published r.1.1) = (fps_counter st + length (results r.1.1)) / 10 /\
  fps_counter r.1.2 = (fps_counter st + length (results r.1.1)) mod 10.
Proof.
  induction fs as [|f fs IH]; intros st Hc; cbv zeta; simpl.
  - destruct (running_at e (tests st)); simpl;
      rewrite Nat.add_0_r, Nat.div_small, Nat.mod_small by lia; done.
  - destruct (running_at e (tests st)); simpl;
      [|rewrite Nat.add_0_r, Nat.div_small, Nat.mod_small by lia; done].
    destruct (video_body_fps_count v (tested st) f Hc) as [Hf Hk].
    destruct (video_body e p v (tested st) f) as [[tr st1] [ex|]]; simpl in Hf, Hk |- *.
    + done.
    + assert (Hc1 : fps_counter st1 < 10).
      { rewrite Hk. apply Nat.mod_upper_bound. lia. }
      destruct (IH st1 Hc1) as [Hf' Hk'].
      destruct (video_loop e p v fs st1) as [[tr' st2] ex']; simpl in Hf', Hk' |- *.
      unfold fps_published, results in *.
      rewrite !omap_app, !length_app, Hf, Hf', Hk', Hk.
      rewrite div_split, mod_split by lia. by rewrite Nat.add_assoc.
Qed.

Lemma folder_loop_no_fps total files i :
  fps_published (folder_loop e p total files i).1 = [].
Proof.
  apply (folder_loop_local e p (fun tr => fps_published tr = [])); try done.
  - intros a b Ha Hb. unfold fps_published in *. by rewrite omap_app, Ha, Hb.
  - intros j path. unfold fps_published.
    destruct (folder_body_cases e p j total path) as
      [(_ & ->)|[(f & ex & _ & _ & ->)|(f & dets & _ & _ & ->)]]; [reflexivity..|].
    unfold apply_delay. destruct (0 <? inference_delay p)%Z; reflexivity.
Qed.

End YOLO.

Section Comparison.
Import ComparisonWorker ComparisonTrace ComparisonMarks.
Variables (e : env) (p : params).

Lemma cmp_video_body_fps_count st f :
  fps_counter st < 5 ->
  let r := video_body e p st f in
  length (fps_published r.1.1) = (fps_counter st + length (results r.1.1)) / 5 /\
  fps_counter r.1.2 = (fps_counter st + length (results r.1.1)) mod 5.
Proof.
  intros Hc. cbv zeta. unfold fps_published, results.
  destruct (cmp_video_body_cases e p st f) as
    [(tr & ex & [->| ->] & ->)|(da & db & ta & tb & fe & st2 & _ & _ & -> & _ & Hfe)];
    simpl.
  - rewrite Nat.add_0_r, Nat.div_small, Nat.mod_small by lia. done.
  - rewrite Nat.add_0_r, Nat.div_small, Nat.mod_small by lia. done.
  - unfold apply_delay.
    destruct Hfe as [(-> & Hk & Hlt)|(x & y & -> & Hk & Hge)]; rewrite Hk;
      destruct (0 <? inference_delay p)%Z; simpl;
      first [ rewrite Nat.div_small, Nat.mod_small by lia; done
            | assert (fps_counter st = 4) as -> by lia; done ].
Qed.

Lemma cmp_video_loop_fps_count fs : forall st,
  fps_counter st < 5 ->
  let r := video_loop e p fs st in
  length (fps_published r.1.1) = (fps_counter st + length (results r.1.1)) / 5 /\
  fps_counter r.1.2 = (fps_counter st + length (results r.1.1)) mod 5.
Proof.
  induction fs as [|f fs IH]; intros st Hc; cbv zeta; simpl.
  - destruct (running_at e (tests st)); simpl;
      rewrite Nat.add_0_r, Nat.div_small, Nat.mod_small by lia; done.
  - destruct (running_at e (tests st)); simpl;
      [|rewrite Nat.add_0_r, Nat.div_small, Nat.mod_small by lia; done].
    destruct (cmp_video_body_fps_count (tested st) f Hc) as [Hf Hk].
    destruct (video_body e p (tested st) f) as [[tr st1] [ex|]]; simpl in Hf, Hk |- *.
    + done.
    + assert (Hc1 : fps_counter st1 < 5).
      { rewrite Hk. apply Nat.mod_upper_bound. lia. }
      destruct (IH st1 Hc1) as [Hf' Hk'].
      destruct (video_loop e p fs st1) as [[tr' st2] ex']; simpl in Hf', Hk' |- *.
      unfold fps_published, results in *.
      rewrite !omap_app, !length_app, Hf, Hf', Hk', Hk.
      rewrite div_split, mod_split by lia. by rewrite Nat.add_assoc.
Qed.

Lemma cmp_folder_loop_no_fps total files i c :
  fps_published (folder_loop e p total files i c).1 = [].
Proof.
  apply (cmp_folder_loop_local e p (fun tr => fps_published tr = [])); try done.
  - intros a b Ha Hb. unfold fps_published in *. by rewrite omap_app, Ha, Hb.
  - intros j c' path. unfold fps_published.
    destruct (cmp_folder_body_cases e p j total c' path) as
      [(_ & ->)|[(f & tr & ex & _ & [->| ->] & ->)|(f & da & db & ta & tb & _ & _ & _ & ->)]];
      [reflexivity..|].
    unfold apply_delay. destruct (0 <? inference_delay p)%Z; reflexivity.
Qed.

Lemma cmp_process_image_no_fps source :
  fps_published (_process_image e p source).1 = [].
Proof.
  unfold fps_published.
  destruct (cmp_process_image_cases e p source) as
    [(_ & ->)|[(f & tr & ex & _ & [->| ->] & ->)|(f & da & db & ta & tb & _ & _ & _ & ->)]];
    [reflexivity..|].
  unfold apply_delay. destruct (0 <? inference_delay p)%Z; reflexivity.
Qed.

End Comparison.

End ThroughputFacts.

Module ThroughputClaims.
Import Runtime RunMarks RunFacts ThroughputFacts.

(** X11: in every video run the number of FPS publications is the number
    of published results divided by 10 for the single-model worker and by
    5 for the dual-model worker, rounded down, however the run ends: the
    FPS is published once per full block of frames and never for a block
    that was cut short. In folder mode, and in the image mode of the
    dual-model worker, no FPS is ever published. *)
Theorem X11_fps_publications e p source v folder fs :
  length (YOLOTrace.fps_published (YOLOWorker._process_video e p source v)) =
    length (YOLOTrace.results (YOLOWorker._process_video e p source v)) / 10 /\
  length (ComparisonTrace.fps_published
            (ComparisonWorker.run e p (ComparisonWorker.VideoJob source v))) =
    length (ComparisonTrace.results
              (ComparisonWorker.run e p (ComparisonWorker.VideoJob source v))) / 5 /\
  YOLOTrace.fps_published (YOLOWorker._process_folder e p folder fs) = [] /\
  ComparisonTrace.fps_published
    (ComparisonWorker.run e p (ComparisonWorker.FolderJob source fs)) = [] /\
  ComparisonTrace.fps_published
    (ComparisonWorker.run e p (ComparisonWorker.ImageJob source)) = [].
Proof.
  repeat split.
  - unfold YOLOWorker._process_video. destruct (is_opened v); simpl; [|reflexivity].
    match goal with |- context [YOLOWorker.video_loop e p v ?fs ?st] =>
      destruct (video_loop_fps_count e p v fs st) as [Hf _]; [simpl; lia|];
      destruct (YOLOWorker.video_loop e p v fs st) as [[tr st'] ex] end.
    simpl in Hf. unfold YOLOTrace.fps_published, YOLOTrace.results in *.
    rewrite !omap_app, !length_app, Hf.
    destruct ex, (YOLOWorker.output_writer st'); simpl; by rewrite !Nat.add_0_r.
  - unfold ComparisonWorker.run, ComparisonWorker._process_video.
    destruct (is_opened v); simpl; [|reflexivity].
    match goal with |- context [ComparisonWorker.video_loop e p ?fs ?st] =>
      destruct (cmp_video_loop_fps_count e p fs st) as [Hf _]; [simpl; lia|];
      destruct (ComparisonWorker.video_loop e p fs st) as [[tr st'] ex] end.
    simpl in Hf. unfold ComparisonTrace.fps_published, ComparisonTrace.results in *.
    rewrite !omap_app, !length_app, Hf.
    destruct ex; simpl; by rewrite !Nat.add_0_r.
  - unfold YOLOWorker._process_folder.
    destruct (folder ≫= _) as [[path tree]|]; [|reflexivity].
    destruct (Helper.get_image_files path tree) as [|f0 files]; [reflexivity|].
    match goal with |- context [YOLOWorker.folder_loop e p ?t ?fs ?i] =>
      pose proof (folder_loop_no_fps e p t fs i) as Hq;
      destruct (YOLOWorker.folder_loop e p t fs i) as [tr ex] end.
    simpl in Hq. unfold YOLOTrace.fps_published in *. rewrite omap_app, Hq.
    by destruct ex.
  - unfold ComparisonWorker.run, ComparisonWorker._process_folder.
    destruct (fs source) as [tree|]; [|reflexivity].
    match goal with |- context [ComparisonWorker.folder_loop e p ?t ?fs ?i ?c] =>
      pose proof (cmp_folder_loop_no_fps e p t fs i c) as Hq;
      destruct (ComparisonWorker.folder_loop e p t fs i c) as [tr ex] end.
    simpl in Hq. unfold ComparisonTrace.fps_published in *. rewrite omap_app, Hq.
    by destruct ex.
  - unfold ComparisonWorker.run.
    pose proof (cmp_process_image_no_fps e p source) as Hq.
    destruct (ComparisonWorker._process_image e p source) as [tr ex].
    simpl in Hq. unfold ComparisonTrace.fps_published in *. rewrite omap_app, Hq.
    by destruct ex.
Qed.

End ThroughputClaims.

Module EmptyFolderFacts.
Import Runtime RunMarks Helper.

Lemma filter_none (l : list string) :
  Forall (fun f => is_image f = false) l ->
  filter (fun f => is_image f = true) l = [].
Proof.
  induction 1 as [|f l Hf _ IH]; [reflexivity|].
  rewrite filter_cons. destruct (decide (is_image f = true)); [congruence|exact IH].
Qed.

Lemma no_image_collect root t : no_image root t -> collect root t = [].
Proof.
  unfold no_image, collect. induction 1 as [|rf l Hrf _ IH]; simpl; [reflexivity|].
  by rewrite (filter_none _ Hrf), IH.
Qed.

Lemma no_image_files root t : no_image root t -> get_image_files root t = [].
Proof. intros H. unfold get_image_files. by rewrite (no_image_collect _ _ H). Qed.

End EmptyFolderFacts.

Module EmptyFolderClaims.
Import Runtime RunMarks Helper EmptyFolderFacts.

(** X12: on a folder that holds no image file, at any depth, the
    single-model worker reports the error "No image files found in
    folder" and nothing else, while a run of the dual-model worker
    reports nothing at all: it only emits [finished]. On a path that is
    not a directory both report "Invalid folder path". *)
Theorem X12_folder_without_images e p source tree fs :
  fs source = Some tree ->
  no_image source tree ->
  YOLOWorker._process_folder e p (Some source) fs =
    [YOLOWorker.error_occurred "No image files found in folder"] /\
  ComparisonWorker.run e p (ComparisonWorker.FolderJob source fs) =
    [ComparisonWorker.finished] /\
  YOLOWorker._process_folder e p (Some source) (fun _ => None) =
    [YOLOWorker.error_occurred "Invalid folder path"] /\
  YOLOWorker._process_folder e p None fs =
    [YOLOWorker.error_occurred "Invalid folder path"] /\
  ComparisonWorker.run e p (ComparisonWorker.FolderJob source (fun _ => None)) =
    [ComparisonWorker.error_occurred "Invalid folder path"; ComparisonWorker.finished].
Proof.
  intros Hfs Hno. pose proof (no_image_files _ _ Hno) as Hnil.
  repeat split.
  - unfold YOLOWorker._process_folder. simpl. rewrite Hfs. simpl. by rewrite Hnil.
  - unfold ComparisonWorker.run, ComparisonWorker._process_folder. rewrite Hfs, Hnil.
    reflexivity.
Qed.

Lemma X12_folder_without_images_witness :
  YOLOWorker._process_folder Examples.quiet_env Examples.default_params (Some "docs")
    (fun path => if String.eqb path "docs"
                 then Some (Dir ["notes.txt"] [("old", Dir ["readme.md"; "jpg"] [])])
                 else None) =
    [YOLOWorker.error_occurred "No image files found in folder"].
Proof.
  refine (proj1 (X12_folder_without_images Examples.quiet_env Examples.default_params "docs"
            (Dir ["notes.txt"] [("old", Dir ["readme.md"; "jpg"] [])]) _ eq_refl _)).
  unfold no_image. simpl. repeat constructor.
Defined.

End EmptyFolderClaims.

Module StringFacts.
Import Helper Paths SessionIdFacts.

Lemma append_cons c (s t : string) : (String c s ++ t)%string = String c (s ++ t).
Proof. reflexivity. Qed.

Lemma append_nil_r (s : string) : (s ++ "")%string = s.
Proof. induction s as [|c s IH]; [reflexivity|by rewrite append_cons, IH]. Qed.

Lemma append_assoc (a b c : string) : ((a ++ b) ++ c)%string = (a ++ b ++ c)%string.
Proof. induction a as [|x a IH]; [reflexivity|by rewrite !append_cons, IH]. Qed.

Lemma substring_0_0 (s : string) : substring 0 0 s = "".
Proof. by destruct s. Qed.

Lemma substring_all (s : string) : substring 0 (String.length s) s = s.
Proof. induction s as [|c s IH]; simpl; [reflexivity|by rewrite IH]. Qed.

Lemma substring_app_l (a b : string) : substring 0 (String.length a) (a ++ b) = a.
Proof.
  induction a as [|c a IH]; [apply substring_0_0|].
  rewrite append_cons. simpl. by rewrite IH.
Qed.

Lemma substring_app_r (a b : string) n :
  substring (String.length a) n (a ++ b) = substring 0 n b.
Proof. induction a as [|c a IH]; [reflexivity|rewrite append_cons; exact IH]. Qed.

Lemma substring_split (s : string) : forall n,
  n <= String.length s ->
  s = (substring 0 n s ++ substring n (String.length s - n) s)%string.
Proof.
  induction s as [|c s IH]; intros [|n] Hn; simpl in *; try lia.
  - reflexivity.
  - by rewrite substring_all.
  - rewrite append_cons. f_equal. apply IH. lia.
Qed.

Lemma length_substring (s : string) : forall n m,
  n + m <= String.length s -> String.length (substring n m s) = m.
Proof.
  induction s as [|c s IH]; intros [|n] [|m] Hn; simpl in *; try lia; try reflexivity.
  - f_equal. apply (IH 0 m). lia.
  - apply (IH n 0). lia.
  - apply (IH n (S m)). lia.
Qed.

(** [s.endswith(suffix)] holds exactly of the strings that end with it. *)
Lemma ends_with_spec suffix s :
  ends_with suffix s = true <-> exists pre, s = (pre ++ suffix)%string.
Proof.
  unfold ends_with. rewrite andb_true_iff, Nat.leb_le, String.eqb_eq. split.
  - intros [Hle Heq].
    exists (substring 0 (String.length s - String.length suffix) s).
    pose proof (substring_split s (String.length s - String.length suffix)) as H.
    replace (String.length s - (String.length s - String.length suffix))
      with (String.length suffix) in H by lia.
    rewrite Heq in H. apply H. lia.
  - intros [pre ->]. rewrite string_length_append. split; [lia|].
    replace (String.length pre + String.length suffix - String.length suffix)
      with (String.length pre) by lia.
    rewrite substring_app_r. apply substring_all.
Qed.

Lemma rfind_from_app c (a b : string) : forall i last,
  rfind_from c (a ++ b) i last =
  rfind_from c b (i + String.length a) (rfind_from c a i last).
Proof.
  induction a as [|x a IH]; intros i last.
  - simpl. by rewrite Nat.add_0_r.
  - rewrite append_cons. simpl. rewrite IH. f_equal. lia.
Qed.

Lemma rfind_from_absent c (s : string) : forall i last,
  occurs c s = false -> rfind_from c s i last = last.
Proof.
  induction s as [|x s IH]; intros i last H; simpl in *; [reflexivity|].
  apply orb_false_iff in H as [Hx Hs]. rewrite Hx. by apply IH.
Qed.

Lemma occurs_app c (a b : string) : occurs c (a ++ b) = occurs c a || occurs c b.
Proof.
  induction a as [|x a IH]; [reflexivity|].
  rewrite append_cons. simpl. by rewrite IH, orb_assoc.
Qed.

Lemma last_char_app (a b : string) :
  b <> ""%string -> last_char (a ++ b) = last_char b.
Proof.
  intros Hb. induction a as [|x a IH]; [reflexivity|].
  rewrite append_cons. simpl. rewrite IH.
  destruct (a ++ b)%string eqn:Hab; [|reflexivity].
  destruct a, b; try congruence; rewrite ?append_cons in Hab; discriminate.
Qed.

(** The result of [os.path.join(a, b)] ends with [b]. *)
Lemma path_join_ends a b : exists pre, path_join a b = (pre ++ b)%string.
Proof.
  unfold path_join. destruct (starts_with "/" b); [by exists ""%string|].
  destruct (_ || _); [by exists a|].
  exists (a ++ "/")%string. by rewrite append_assoc.
Qed.

End StringFacts.

Module ImageFilesFacts.
Import Helper Examples HelperFacts StringFacts.

Lemma is_image_spec file :
  is_image file = true <->
  exists stem fmt, fmt ∈ supported_formats /\ lower file = (stem ++ fmt)%string.
Proof.
  unfold is_image. rewrite existsb_exists. split.
  - intros (fmt & Hin & He). apply ends_with_spec in He as [stem Hs].
    exists stem, fmt. split; [by apply list_elem_of_In|exact Hs].
  - intros (stem & fmt & Hin & Hs). exists fmt. split; [by apply list_elem_of_In|].
    apply ends_with_spec. by exists stem.
Qed.

Lemma elem_of_collect root t path :
  path ∈ collect root t <->
  exists dir files file, (dir, files) ∈ walk root t /\ file ∈ files /\
    is_image file = true /\ path = path_join dir file.
Proof.
  unfold collect.
  change (flat_map ?f ?l) with (l ≫= f).
  rewrite list_elem_of_bind. split.
  - intros ([dir files] & Hp & Hin). simpl in Hp.
    apply list_elem_of_fmap in Hp as (file & -> & Hf).
    apply list_elem_of_filter in Hf as [Him Hf].
    by exists dir, files, file.
  - intros (dir & files & file & Hin & Hf & Him & ->).
    exists (dir, files). split; [|exact Hin]. simpl.
    apply list_elem_of_fmap. exists file. split; [reflexivity|].
    by apply list_elem_of_filter.
Qed.

Lemma length_collect root t :
  length (collect root t) =
  sum_list_with (fun rf => length (filter (fun f => is_image f = true) (snd rf)))
                (walk root t).
Proof.
  unfold collect. induction (walk root t) as [|rf l IH]; simpl; [reflexivity|].
  by rewrite length_app, length_map, IH.
Qed.

End ImageFilesFacts.

Module ImageFilesClaims.
Import Helper Examples HelperFacts StringFacts ImageFilesFacts.

(** X13: [get_image_files] returns exactly the paths [os.path.join(root,
    file)] of the files, at any depth, whose name in lower case ends with
    one of the six supported extensions, and nothing else; each such file
    is returned once. A name that only differs in case, like [A.JPG], is
    an image; a name without the dot of the extension is not. *)
Theorem X13_get_image_files_members directory tree :
  (forall path,
     path ∈ get_image_files directory tree <->
     exists dir files file, (dir, files) ∈ walk directory tree /\ file ∈ files /\
       is_image file = true /\ path = path_join dir file) /\
  (forall file,
     is_image file = true <->
     exists stem fmt, fmt ∈ supported_formats /\ lower file = (stem ++ fmt)%string) /\
  length (get_image_files directory tree) =
    sum_list_with (fun rf => length (filter (fun f => is_image f = true) (snd rf)))
                  (walk directory tree) /\
  is_image "A.JPG" = true /\ is_image "jpg" = false.
Proof.
  split; [|split; [|split]].
  - intros path. unfold get_image_files.
    rewrite <- (sorted_perm (collect directory tree)). apply elem_of_collect.
  - apply is_image_spec.
  - unfold get_image_files.
    rewrite <- (sorted_perm (collect directory tree)). apply length_collect.
  - split; reflexivity.
Qed.

End ImageFilesClaims.

Module PathFacts.
Import Helper Paths SessionIdFacts StringFacts.

(** Where [rfind] finds the last occurrence. *)
Lemma rfind_from_spec c (s : string) : forall i last,
  (occurs c s = false /\ rfind_from c s i last = last) \/
  (exists a b, s = (a ++ String c b)%string /\ occurs c b = false /\
               rfind_from c s i last = Some (i + String.length a)).
Proof.
  induction s as [|x s IH]; intros i last; simpl; [by left|].
  destruct (IH (S i) (if Ascii.eqb x c then Some i else last))
    as [[Hno Hr]|(a & b & -> & Hb & Hr)].
  - destruct (Ascii.eqb x c) eqn:Hx.
    + right. apply Ascii.eqb_eq in Hx as ->. exists ""%string, s.
      simpl. rewrite Hr, Nat.add_0_r. auto.
    + left. simpl. auto.
  - right. exists (String x a), b. rewrite append_cons. simpl.
    rewrite Hr. repeat split; auto; f_equal; lia.
Qed.

Lemma rfind_spec c (s : string) :
  match rfind c s with
  | None => occurs c s = false
  | Some i => exists a b, s = (a ++ String c b)%string /\ occurs c b = false /\
                          i = String.length a
  end.
Proof.
  unfold rfind. destruct (rfind_from_spec c s 0 None) as [[Hno ->]|(a & b & Hs & Hb & ->)].
  - exact Hno.
  - by exists a, b.
Qed.

Lemma rfind_absent c (s : string) : occurs c s = false -> rfind c s = None.
Proof. intros H. unfold rfind. by apply rfind_from_absent. Qed.

Lemma occurs_substring c (s : string) : forall n m,
  occurs c s = false -> occurs c (substring n m s) = false.
Proof.
  induction s as [|x s IH]; intros [|n] [|m] H; simpl in *; try reflexivity.
  - apply orb_false_iff in H as [Hx Hs]. rewrite Hx. simpl. by apply IH.
  - apply orb_false_iff in H as [Hx Hs]. by apply IH.
  - apply orb_false_iff in H as [Hx Hs]. by apply IH.
Qed.

(** [os.path.basename] returns a name without slash. *)
Lemma basename_no_slash p : occurs "/" (basename p) = false.
Proof.
  unfold basename. pose proof (rfind_spec "/" p) as H.
  destruct (rfind "/" p) as [i|]; [|exact H].
  destruct H as (a & b & -> & Hb & ->).
  rewrite string_length_append. simpl.
  replace (String.length a + S (String.length b) - S (String.length a))
    with (String.length b) by lia.
  change (String "/" b) with ("/" ++ b)%string.
  rewrite <- append_assoc.
  replace (S (String.length a)) with (String.length (a ++ "/")%string)
    by (rewrite string_length_append; simpl; lia).
  by rewrite substring_app_r, substring_all.
Qed.

(** The root [os.path.splitext] returns has no slash if the path has
    none. *)
Lemma splitext_no_slash p : occurs "/" p = false -> occurs "/" (fst (splitext p)) = false.
Proof.
  intros H. unfold splitext. destruct (rfind "." p) as [d|]; [|exact H].
  destruct (_ && _); [|exact H]. simpl. by apply occurs_substring.
Qed.

(** [os.path.splitext] of a name that ends with [.pt]. *)
Lemma splitext_pt stem :
  occurs "/" stem = false ->
  splitext (stem ++ ".pt") =
    if only_dots stem then ((stem ++ ".pt")%string, ""%string) else (stem, ".pt"%string).
Proof.
  intros Hs. unfold splitext.
  assert (Hslash : rfind "/" (stem ++ ".pt") = None).
  { apply rfind_absent. by rewrite occurs_app, Hs. }
  assert (Hdot : rfind "." (stem ++ ".pt") = Some (String.length stem)).
  { unfold rfind. rewrite rfind_from_app. reflexivity. }
  rewrite Hslash, Hdot. simpl. rewrite Nat.sub_0_r, substring_app_l.
  destruct (only_dots stem); simpl; [reflexivity|].
  rewrite string_length_append. simpl.
  replace (String.length stem + 3 - String.length stem) with 3 by lia.
  by rewrite substring_app_r.
Qed.

Lemma occurs_starts_with s t :
  occurs "/" s = false -> starts_with "/" (s ++ String "_" t) = false.
Proof.
  unfold starts_with. destruct s as [|x s]; [reflexivity|].
  rewrite append_cons. intros H. simpl in H. apply orb_false_iff in H as [Hx _].
  match goal with
  | |- String.prefix _ (String x ?r) = _ =>
      change (String.prefix "/" (String x r))
        with (if Ascii.ascii_dec "/" x then String.prefix "" r else false)
  end.
  destruct (Ascii.ascii_dec "/" x) as [<-|]; [discriminate|reflexivity].
Qed.

Lemma append_inj_l (pre a b : string) : (pre ++ a)%string = (pre ++ b)%string -> a = b.
Proof.
  induction pre as [|x pre IH]; [done|]. rewrite !append_cons. intros [= H]. by apply IH.
Qed.

(** [os.path.join(d, .)] tells relative names apart. *)
Lemma path_join_inj d a b :
  starts_with "/" a = false -> starts_with "/" b = false ->
  path_join d a = path_join d b -> a = b.
Proof.
  unfold path_join. intros -> ->.
  destruct (_ || _); [apply append_inj_l|].
  intros H. apply append_inj_l in H. by apply append_inj_l in H.
Qed.

End PathFacts.

Module ModelsFacts.
Import Helper Paths Models Examples HelperFacts StringFacts PathFacts.

Lemma model_of_file file :
  occurs "/" file = false -> ends_with ".pt" file = true ->
  exists stem, file = (stem ++ ".pt")%string /\
    if only_dots stem then fst (splitext file) = file
    else fst (splitext file) = stem /\ model_path stem = path_join "models" file /\
         forall exists_ : string -> bool,
           exists_ (path_join "models" file) = true ->
           model_file exists_ stem = path_join "models" file.
Proof.
  intros Hno He. apply ends_with_spec in He as [stem ->]. exists stem.
  split; [reflexivity|].
  rewrite occurs_app in Hno. apply orb_false_iff in Hno as [Hs _].
  rewrite (splitext_pt stem Hs). destruct (only_dots stem); [reflexivity|].
  split; [reflexivity|]. split; [reflexivity|].
  intros exists_ Hex. unfold model_file, model_path. by rewrite Hex.
Qed.

End ModelsFacts.

Module ModelsClaims.
Import Helper Paths Models Examples HelperFacts StringFacts PathFacts ModelsFacts.

(** X14: for a models directory [get_available_models] returns a list
    that is never empty and is sorted; it holds the default [YOLOv8n]
    alone when no file name ends with [.pt], and otherwise exactly the
    roots [os.path.splitext] gives for those names. For a name
    [stem.pt] whose stem is not made of dots only the root is the stem,
    and [models/stem.pt], the path [_load_model] tries first, is the
    listed file: a model offered by the list is found in the directory.
    For a stem of dots only (as in [.pt]) the name is kept whole. *)
Theorem X14_available_models files :
  Forall (fun file => occurs "/" file = false) files ->
  exists models,
    get_available_models (Directory files) = Some models /\
    models <> [] /\
    StronglySorted lex_le models /\
    (forall name, name ∈ models ->
       name = "YOLOv8n"%string \/
       exists file, file ∈ files /\ ends_with ".pt" file = true /\
                    name = fst (splitext file)) /\
    (forall file, file ∈ files -> ends_with ".pt" file = true ->
       fst (splitext file) ∈ models /\
       exists stem, file = (stem ++ ".pt")%string /\
         if only_dots stem then fst (splitext file) = file
         else fst (splitext file) = stem /\
              model_path stem = path_join "models" file /\
              forall exists_ : string -> bool,
                exists_ (path_join "models" file) = true ->
                model_file exists_ stem = path_join "models" file) /\
    ((forall file, file ∈ files -> ends_with ".pt" file = false) ->
     models = ["YOLOv8n"%string]).
Proof.
  intros Hnames. rewrite Forall_forall in Hnames.
  set (found := map (fun file => fst (splitext file))
                    (filter (fun file => ends_with ".pt" file = true) files)).
  assert (Hget : get_available_models (Directory files) =
                 Some (match sorted found with [] => ["YOLOv8n"%string] | _ => sorted found end)).
  { unfold get_available_models. fold found. by destruct (sorted found). }
  assert (Hin : forall name, name ∈ sorted found <->
            exists file, file ∈ files /\ ends_with ".pt" file = true /\
                         name = fst (splitext file)).
  { intros name. rewrite <- (sorted_perm found). unfold found.
    rewrite list_elem_of_fmap. split.
    - intros (file & -> & Hf). apply list_elem_of_filter in Hf as [He Hf]. eauto.
    - intros (file & Hf & He & ->). exists file. split; [reflexivity|].
      by apply list_elem_of_filter. }
  eexists. split; [exact Hget|].
  split; [by destruct (sorted found)|].
  split.
  { pose proof (sorted_lex found) as Hs. destruct (sorted found); [|exact Hs].
    repeat constructor. }
  split.
  { intros name Hname. destruct (sorted found) as [|m ms] eqn:Hsf.
    - left. apply list_elem_of_singleton in Hname. exact Hname.
    - right. apply Hin. exact Hname. }
  split.
  { intros file Hf He. split.
    - assert (Hm : fst (splitext file) ∈ sorted found) by (apply Hin; eauto).
      destruct (sorted found); [by apply elem_of_nil in Hm|exact Hm].
    - apply model_of_file; auto. }
  intros Hnone. destruct (sorted found) as [|m ms] eqn:Hsf; [reflexivity|].
  assert (Hm : m ∈ m :: ms) by left.
  apply Hin in Hm as (file & Hf & He & _). rewrite (Hnone file Hf) in He. discriminate.
Qed.

Lemma X14_available_models_witness :
  Forall (fun file => occurs "/" file = false) ["yolo11n.pt"; "readme.md"; ".pt"]%string /\
  exists models,
    get_available_models (Directory ["yolo11n.pt"; "readme.md"; ".pt"]%string) = Some models /\
    "yolo11n"%string ∈ models /\ ".pt"%string ∈ models /\
    model_path "yolo11n" = "models/yolo11n.pt"%string.
Proof.
  assert (Hnames : Forall (fun file => occurs "/" file = false)
                          ["yolo11n.pt"; "readme.md"; ".pt"]%string)
    by (repeat constructor).
  split; [exact Hnames|].
  destruct (X14_available_models _ Hnames) as (models & Hget & _ & _ & _ & Hfile & _).
  exists models. split; [exact Hget|].
  split; [|split; [|reflexivity]].
  - destruct (Hfile "yolo11n.pt"%string) as [Hin _]; [set_solver|reflexivity|exact Hin].
  - destruct (Hfile ".pt"%string) as [Hin _]; [set_solver|reflexivity|exact Hin].
Defined.

End ModelsClaims.

Module BatchSaveFacts.
Import Runtime Helper Paths BatchSave StringFacts PathFacts.

Lemma written_snoc ws w : written (ws ++ [w]) = <[fst w := snd w]> (written ws).
Proof. unfold written. by rewrite fold_left_app. Qed.

Lemma written_lookup_other ws1 ws2 k :
  Forall (fun w => fst w <> k) ws2 ->
  written (ws1 ++ ws2) !! k = written ws1 !! k.
Proof.
  induction ws2 as [|w ws2 IH] using rev_ind; intros H.
  - by rewrite app_nil_r.
  - apply Forall_app in H as [H1 H2]. inversion H2 as [|? ? Hw _]; subst.
    rewrite app_assoc, written_snoc, lookup_insert_ne by exact Hw. by apply IH.
Qed.

Lemma written_dom ws k c :
  written ws !! k = Some c -> exists w, w ∈ ws /\ fst w = k.
Proof.
  induction ws as [|w ws IH] using rev_ind.
  - unfold written. simpl. by rewrite lookup_empty.
  - rewrite written_snoc. destruct (decide (fst w = k)) as [<-|Hne].
    + intros _. exists w. split; [set_solver|reflexivity].
    + rewrite lookup_insert_ne by exact Hne. intros H.
      destruct (IH H) as (w' & Hin & Hk). exists w'. split; [set_solver|exact Hk].
Qed.

Lemma output_name_relative p : starts_with "/" (output_name p) = false.
Proof.
  unfold output_name.
  apply (occurs_starts_with (fst (splitext (basename p))) "detected.jpg").
  apply splitext_no_slash, basename_no_slash.
Qed.

Lemma report_not_image d p :
  path_join d "detection_report.txt" <> path_join d (output_name p).
Proof.
  intros H. apply path_join_inj in H; [|reflexivity|apply output_name_relative].
  apply (f_equal last_char) in H. unfold output_name in H.
  rewrite last_char_app in H by discriminate. discriminate H.
Qed.

(** The last result of a list that has a given output name. *)
Lemma last_with_name name (results : list result) :
  (exists r0, r0 ∈ results /\ output_name (fst (fst r0)) = name) ->
  exists pre r post,
    results = pre ++ r :: post /\ output_name (fst (fst r)) = name /\
    Forall (fun r' : result => output_name (fst (fst r')) <> name) post.
Proof.
  induction results as [|x l IH] using rev_ind; intros (r0 & Hin & Hn).
  - by apply elem_of_nil in Hin.
  - destruct (decide (output_name (fst (fst x)) = name)) as [Hx|Hx].
    + exists l, x, []. repeat split; auto.
    + apply elem_of_app in Hin as [Hin|Hin].
      * destruct IH as (pre & r & post & -> & Hr & Hpost); [by exists r0|].
        exists pre, r, (post ++ [x]). rewrite <- app_assoc. repeat split; auto.
        apply Forall_app. split; [exact Hpost|]. by repeat constructor.
      * apply list_elem_of_singleton in Hin as ->. contradiction.
Qed.

Section Save.
Variables (draw : frame -> list detection -> Z -> frame) (now : datetime).
Variables (output_dir : string) (line_width : Z).

Lemma image_write_fst batch_dir r :
  fst (image_write draw line_width batch_dir r) = path_join batch_dir (output_name (fst (fst r))).
Proof. by destruct r as [[? ?] ?]. Qed.

Lemma image_write_snd batch_dir r :
  snd (image_write draw line_width batch_dir r) = ImageFile (draw (snd (fst r)) (snd r) line_width).
Proof. by destruct r as [[? ?] ?]. Qed.

Lemma save_batch_results_eq results :
  save_batch_results draw now results output_dir line_width =
    (let batch_dir := path_join output_dir ("batch_" ++ strftime_id now) in
     (map (image_write draw line_width batch_dir) results
        ++ [(path_join batch_dir "detection_report.txt",
             TextFile (report_text results (strftime_id now)))],
      batch_dir)).
Proof. reflexivity. Qed.

Lemma last_write_kept batch_dir pre r post :
  Forall (fun r' : result => output_name (fst (fst r')) <> output_name (fst (fst r))) post ->
  written (map (image_write draw line_width batch_dir) (pre ++ r :: post))
    !! path_join batch_dir (output_name (fst (fst r))) =
  Some (ImageFile (draw (snd (fst r)) (snd r) line_width)).
Proof.
  intros Hpost. rewrite map_app. simpl.
  change (?a :: map ?f post) with ([a] ++ map f post).
  rewrite app_assoc, written_lookup_other.
  - rewrite written_snoc, image_write_fst, image_write_snd. apply lookup_insert_eq.
  - apply Forall_forall. intros w Hw.
    apply list_elem_of_fmap in Hw as (r' & -> & Hr').
    rewrite Forall_forall in Hpost. specialize (Hpost r' Hr').
    rewrite image_write_fst. intros Heq.
    apply path_join_inj in Heq; auto using output_name_relative.
Qed.

End Save.

End BatchSaveFacts.

Module BatchSaveClaims.
Import Runtime Helper Paths BatchSave StringFacts PathFacts BatchSaveFacts.

(** X15: [save_batch_results] writes into [output_dir/batch_<timestamp>]
    the report and, for each result, the annotated image under the name
    of its file without directory and extension followed by
    [_detected.jpg]. When several results have the same such name (the
    same file name in two sub-folders, or [a.jpg] and [a.png]) they are
    written to the same path and the last one stays: after the call the
    path of a result holds the image of the last result of the list with
    that name. Every result finds an image at its path, though possibly
    another result's; nothing else is written, and the report is never
    overwritten by an image. *)
Theorem X15_save_batch_results_last_wins draw now results output_dir line_width :
  let writes := fst (save_batch_results draw now results output_dir line_width) in
  let batch_dir := snd (save_batch_results draw now results output_dir line_width) in
  let files := written writes in
  let path_of (r : result) := path_join batch_dir (output_name (fst (fst r))) in
  let image_of (r : result) := ImageFile (draw (snd (fst r)) (snd r) line_width) in
  batch_dir = path_join output_dir ("batch_" ++ strftime_id now) /\
  files !! path_join batch_dir "detection_report.txt" =
    Some (TextFile (report_text results (strftime_id now))) /\
  (forall pre r post,
     results = pre ++ r :: post ->
     Forall (fun r' : result =>
               output_name (fst (fst r')) <> output_name (fst (fst r))) post ->
     files !! path_of r = Some (image_of r)) /\
  (forall r0, r0 ∈ results ->
     exists r, r ∈ results /\
       output_name (fst (fst r)) = output_name (fst (fst r0)) /\
       files !! path_of r0 = Some (image_of r)) /\
  (forall path c, files !! path = Some c ->
     path = path_join batch_dir "detection_report.txt" \/
     exists r, r ∈ results /\ path = path_of r).
Proof.
  intros writes batch_dir files path_of image_of.
  subst writes batch_dir files path_of image_of.
  rewrite save_batch_results_eq. cbv zeta. simpl fst. simpl snd.
  set (batch_dir := path_join output_dir ("batch_" ++ strftime_id now)).
  assert (Hlast : forall pre r post,
     results = pre ++ r :: post ->
     Forall (fun r' : result =>
               output_name (fst (fst r')) <> output_name (fst (fst r))) post ->
     written (map (image_write draw line_width batch_dir) results
                ++ [(path_join batch_dir "detection_report.txt",
                     TextFile (report_text results (strftime_id now)))])
       !! path_join batch_dir (output_name (fst (fst r))) =
     Some (ImageFile (draw (snd (fst r)) (snd r) line_width))).
  { intros pre r post Hres Hpost.
    rewrite written_snoc, lookup_insert_ne by apply report_not_image.
    rewrite Hres. by apply last_write_kept. }
  split; [reflexivity|]. split; [|split; [|split]].
  - rewrite written_snoc. apply lookup_insert_eq.
  - exact Hlast.
  - intros r0 Hr0.
    destruct (last_with_name (output_name (fst (fst r0))) results) as
      (pre & r & post & Hres & Hname & Hpost); [by exists r0|].
    exists r. split; [rewrite Hres; set_solver|]. split; [exact Hname|].
    rewrite <- Hname. apply (Hlast pre r post Hres). by rewrite Hname.
  - intros path c Hc. apply written_dom in Hc as (w & Hw & <-).
    apply elem_of_app in Hw as [Hw|Hw].
    + right. apply list_elem_of_fmap in Hw as (r & -> & Hr).
      exists r. split; [exact Hr|]. apply image_write_fst.
    + left. by apply list_elem_of_singleton in Hw as ->.
Qed.

End BatchSaveClaims.

Module YOLORunFacts.
Import Runtime RunMarks Protocol RunFacts YOLOWorker YOLOTrace YOLOMarks YOLORun.

Section Preview.
Variable w : world.
Hypothesis disabled : forall n, enabled_at w n = false.

Lemma camera_body_preview st f :
  exists tr st' ex,
    camera_body w st f = (tr, st', ex) /\
    self_now st' = self_now st /\
    tests (locals st') = tests (locals st) /\
    Forall (fun ev => is_inference ev = false) tr /\
    follows cap_step Open tr = Some Open /\
    errors tr = [] /\
    ((ex = Some ZeroDivisionError /\ results tr = []) \/
     (ex = None /\ results tr = [(f, [])])).
Proof.
  unfold camera_body, camera_infer. rewrite !disabled. unfold fps_step.
  destruct (10 <=? fps_counter (locals st) + 1).
  - destruct (time_at (w_env w) (clock (locals st)) - start_time (locals st) =? 0)%float.
    + eexists _, _, _. split; [reflexivity|]. simpl. repeat split; auto.
    + eexists _, _, _. split; [reflexivity|]. unfold apply_delay.
      destruct (0 <? inference_delay (settings (self_now st)))%Z; simpl;
        repeat split; auto; repeat constructor.
  - eexists _, _, _. split; [reflexivity|]. unfold apply_delay.
    destruct (0 <? inference_delay (settings (self_now st)))%Z; simpl;
      repeat split; auto; repeat constructor.
Qed.

Lemma camera_loop_preview fs : forall st,
  exists tr st' ex k,
    camera_loop w fs st = (tr, st', ex) /\
    self_now st' = self_now st /\
    k <= length fs /\
    results tr = map (fun f => (f, [])) (take k fs) /\
    Forall (fun ev => is_inference ev = false) tr /\
    follows cap_step Open tr = Some Open /\
    errors tr = [] /\
    (ex = None \/ ex = Some ZeroDivisionError).
Proof.
  induction fs as [|f fs IH]; intros st; simpl.
  - destruct (running_at (w_env w) (tests (locals st)));
      eexists _, _, _, 0; (split; [reflexivity|]); simpl; repeat split; auto;
      repeat constructor.
  - destruct (running_at (w_env w) (tests (locals st)));
      [|eexists _, _, _, 0; (split; [reflexivity|]); simpl; repeat split; auto;
        try lia; repeat constructor].
    destruct (camera_body_preview (camera_tested st) f) as
      (tr & st1 & ex & -> & Hself & _ & Hinf & Hcap & Herr & [[-> Hres]|[-> Hres]]).
    + eexists _, _, _, 0. split; [reflexivity|].
      split; [exact Hself|]. split; [lia|].
      split; [exact Hres|]. split; [by repeat constructor|].
      split; [exact Hcap|]. split; [exact Herr|]. by right.
    + destruct (IH st1) as (tr' & st2 & ex' & k & -> & Hself' & Hk & Hres' & Hinf' & Hcap'
                            & Herr' & Hex').
      eexists _, _, _, (S k). split; [reflexivity|].
      split; [by rewrite Hself'|]. split; [simpl; lia|].
      split.
      { change (running_tested true :: cap_read (Some f) :: tr ++ tr')
          with ([running_tested true; cap_read (Some f)] ++ tr ++ tr').
        unfold results in *. by rewrite !omap_app, Hres, Hres'. }
      split; [repeat constructor; apply Forall_app; by split|].
      split.
      { change (follows cap_step Open (tr ++ tr') = Some Open).
        by rewrite follows_app, Hcap. }
      split; [|exact Hex'].
      change (running_tested true :: cap_read (Some f) :: tr ++ tr')
        with ([running_tested true; cap_read (Some f)] ++ tr ++ tr').
      unfold errors in *. by rewrite !omap_app, Herr, Herr'.
Qed.

End Preview.

End YOLORunFacts.

Module YOLORunClaims.
Import Runtime RunMarks Protocol RunFacts YOLOWorker YOLOTrace YOLOMarks YOLORun.
Import YOLORunFacts.

(** X16: when the model is to be loaded at the start of [run] (no model
    loaded yet, inference enabled) and [YOLO(...)] raises, the failure is
    reported twice, by [_load_model] as "Error loading model: ..." and by
    [run] with the bare text of the exception, and nothing else happens
    in any mode: no file is read, no capture is opened, the worker is left
    without model. In image mode with the inference disabled the load is
    made after the image was read and fails the same way, the second
    report being "Image processing error: ...". *)
Theorem X16_model_load_failure_reported_twice w self j ex :
  model self = None ->
  yolo_load w (Models.model_file (path_exists w) (model_name self)) = Some ex ->
  (enabled_at w 0 = true ->
   run w self j =
     ([error_occurred ("Error loading model: " ++ str ex)%string; error_occurred (str ex)],
      self)) /\
  (enabled_at w 0 = false ->
   forall path f, imread (w_env w) path = Some f ->
   run w self (ImageJob (Some path)) =
     ([cv2_imread path;
       error_occurred ("Error loading model: " ++ str ex)%string;
       error_occurred ("Image processing error: " ++ str ex)%string],
      self)).
Proof.
  intros Hnone Hload. split.
  - intros Hen. unfold run, load_at_start, _load_model. by rewrite Hnone, Hen, Hload.
  - intros Hen path f Him.
    unfold run, load_at_start, _process_image, load_if_none, _load_model.
    by rewrite Hnone, Hen, Him, Hnone, Hload.
Qed.

Lemma X16_model_load_failure_reported_twice_witness :
  run RunExamples.broken_world (RunExamples.fresh_worker "yolo11n")
      (VideoJob "clip.mp4" (Examples.clip 3)) =
    ([error_occurred "Error loading model: No such file"; error_occurred "No such file"],
     RunExamples.fresh_worker "yolo11n").
Proof.
  exact (proj1 (X16_model_load_failure_reported_twice RunExamples.broken_world
                  (RunExamples.fresh_worker "yolo11n")
                  (VideoJob "clip.mp4" (Examples.clip 3)) (Error "No such file")
                  eq_refl eq_refl) eq_refl).
Defined.

(** X17: a camera run during which the inference stays disabled (the
    preview [open_camera] starts) never loads a model, never calls one
    and publishes no statistics; it publishes the frames read, in order,
    each with an empty list of detections, until it is stopped, the
    camera gives no frame or the FPS division fails; the capture is
    released exactly once, after the last reading. A camera that could
    not be opened gives no frame and no error at all. *)
Theorem X17_camera_preview w self v :
  (forall n, enabled_at w n = false) ->
  let tr := fst (run w self (CameraJob v)) in
  snd (run w self (CameraJob v)) = self /\
  (exists k, k <= length (camera_frames v) /\
             results tr = map (fun f => (f, [])) (take k (camera_frames v))) /\
  Forall (fun ev => is_inference ev = false) tr /\
  follows cap_step Open tr = Some Released /\
  (errors tr = [] \/ errors tr = ["Camera error: float division by zero"%string]) /\
  (is_opened v = false -> results tr = [] /\ errors tr = []).
Proof.
  intros Hdis tr. subst tr.
  assert (Hrun : exists reads,
            run w self (CameraJob v) = _process_camera w self v reads).
  { unfold run, load_at_start. destruct (model self).
    - exists 0. simpl. by destruct (_process_camera w self v 0).
    - rewrite Hdis. exists 1. simpl. by destruct (_process_camera w self v 1). }
  destruct Hrun as [reads ->]. unfold _process_camera.
  match goal with |- context [camera_loop w ?fs ?st] =>
    destruct (camera_loop_preview w Hdis fs st) as
      (tr & st' & ex & k & Hloop & Hself & Hk & Hres & Hinf & Hcap & Herr & Hex)
  end.
  rewrite Hloop. simpl in Hself |- *.
  split; [exact Hself|].
  unfold results, errors in *.
  rewrite !omap_app, Hres, Herr, follows_app, Hcap.
  split; [exists k; split; [exact Hk|]; destruct Hex as [-> | ->]; simpl; by rewrite app_nil_r|].
  split; [apply Forall_app; split; [exact Hinf|]; destruct Hex as [-> | ->]; repeat constructor|].
  split; [destruct Hex as [-> | ->]; reflexivity|].
  split; [destruct Hex as [-> | ->]; simpl; auto|].
  intros Hv. unfold camera_frames in Hloop |- *. rewrite Hv in Hloop |- *.
  rewrite take_nil. simpl in Hloop.
  destruct (running_at (w_env w) 0); injection Hloop as <- <- <-; by simpl.
Qed.

Lemma X17_camera_preview_witness :
  snd (run RunExamples.preview_world (RunExamples.fresh_worker "yolo11n")
         (CameraJob (Examples.clip 3))) = RunExamples.fresh_worker "yolo11n" /\
  Forall (fun ev => is_inference ev = false)
         (fst (run RunExamples.preview_world (RunExamples.fresh_worker "yolo11n")
                 (CameraJob (Examples.clip 3)))).
Proof.
  destruct (X17_camera_preview RunExamples.preview_world (RunExamples.fresh_worker "yolo11n")
              (Examples.clip 3) (fun _ => eq_refl)) as (Hself & _ & Hinf & _).
  split; [exact Hself|exact Hinf].
Defined.

End YOLORunClaims.

Module MainWindowFacts.
Import Runtime DM DMSpec DMFacts HistorySpec HistoryFacts YOLOTrace MainWindow.

Lemma add_detection_frames now fid dets m cs :
  current_session m = Some cs ->
  detection_history (snd (add_detection now fid dets m)) = detection_history m /\
  exists cs',
    current_session (snd (add_detection now fid dets m)) = Some cs' /\
    s_detections cs' = s_detections cs ++
      [ {| frame_id := fid; timestamp := now; f_detections := dets |} ] /\
    mode cs' = mode cs /\ model cs' = model cs /\ end_time cs' = end_time cs.
Proof.
  intros Hcs. unfold add_detection. rewrite Hcs. cbv zeta.
  destruct (count_classes dets _) as [r st2]. simpl. split; [reflexivity|].
  eexists. split; [reflexivity|]. simpl. auto.
Qed.

Lemma add_detection_closed now fid dets m :
  current_session m = None -> snd (add_detection now fid dets m) = m.
Proof. intros H. unfold add_detection. by rewrite H. Qed.

Lemma end_session_frames now m cs :
  current_session m = Some cs ->
  current_session (snd (end_session now m)) = None /\
  exists s,
    detection_history (snd (end_session now m)) = detection_history m ++ [s] /\
    s_detections s = s_detections cs /\ mode s = mode cs /\ model s = model cs.
Proof.
  intros Hcs. rewrite (DMClaims.end_session_open now m cs Hcs). simpl.
  split; [reflexivity|]. eexists. split; [reflexivity|]. simpl. auto.
Qed.

Lemma length_concat_sum {A B : Type} (f : A -> list B) (l : list A) :
  length (concat (map f l)) = sum_list_with (fun a => length (f a)) l.
Proof. induction l as [|a l IH]; simpl; [reflexivity|]. by rewrite length_app, IH. Qed.

Lemma deliver_folder now_at tr : forall n self cs,
  current_session (detection_manager self) = Some cs ->
  let self' := deliver (folder_slot now_at) n tr self in
  batch_results self' = batch_results self ++ items tr /\
  detection_history (detection_manager self') = detection_history (detection_manager self) /\
  (reachable (detection_manager self) -> reachable (detection_manager self')) /\
  exists cs',
    current_session (detection_manager self') = Some cs' /\
    mode cs' = mode cs /\ model cs' = model cs /\
    map frame_key (s_detections cs') =
      map frame_key (s_detections cs) ++ map item_key (items tr).
Proof.
  induction tr as [|ev tr IH]; intros n self cs Hcs; cbv zeta.
  - simpl. rewrite !app_nil_r. repeat split; auto. by exists cs.
  - assert (Hskip : forall self1,
        self1 = self -> items (ev :: tr) = items tr ->
        let self' := deliver (folder_slot now_at) (S n) tr self1 in
        batch_results self' = batch_results self ++ items (ev :: tr) /\
        detection_history (detection_manager self') =
          detection_history (detection_manager self) /\
        (reachable (detection_manager self) -> reachable (detection_manager self')) /\
        exists cs',
          current_session (detection_manager self') = Some cs' /\
          mode cs' = mode cs /\ model cs' = model cs /\
          map frame_key (s_detections cs') =
            map frame_key (s_detections cs) ++ map item_key (items (ev :: tr))).
    { intros self1 -> ->. by apply IH. }
    destruct ev; try (apply Hskip; reflexivity). clear Hskip.
    change (deliver (folder_slot now_at) n
              (YOLOWorker.batch_item_processed filepath f dets :: tr) self)
      with (deliver (folder_slot now_at) (S n) tr
              (on_batch_item_processed (now_at n) filepath f dets self)).
    change (items (YOLOWorker.batch_item_processed filepath f dets :: tr))
      with ((filepath, f, dets) :: items tr).
    destruct (add_detection_frames (now_at n 0) (Paths.basename filepath) dets
                (detection_manager self) cs Hcs) as (Hh & cs1 & Hcs1 & Hf1 & Hmo & Hmd & _).
    destruct (IH (S n) (on_batch_item_processed (now_at n) filepath f dets self) cs1 Hcs1)
      as (Hb & Hh' & Hr & cs' & Hcs' & Hmo' & Hmd' & Hf').
    split; [rewrite Hb; simpl; by rewrite <- app_assoc|].
    split; [rewrite Hh'; exact Hh|].
    split.
    { intros Hreach. apply Hr. simpl.
      exact (reach_call _ (AddDetection (now_at n 0) (Paths.basename filepath) dets) Hreach). }
    exists cs'. split; [exact Hcs'|]. split; [congruence|]. split; [congruence|].
    rewrite Hf', Hf1, map_app. simpl. by rewrite <- app_assoc.
Qed.

Lemma deliver_image_closed now_at tr : forall n self,
  current_session (detection_manager self) = None ->
  detection_manager (deliver (image_slot now_at) n tr self) = detection_manager self.
Proof.
  induction tr as [|ev tr IH]; intros n self Hnone; [reflexivity|].
  simpl. rewrite IH.
  - destruct ev; try reflexivity. simpl.
    rewrite add_detection_closed by exact Hnone.
    by rewrite DMClaims.end_session_closed.
  - destruct ev; try exact Hnone. simpl.
    rewrite add_detection_closed by exact Hnone.
    by rewrite DMClaims.end_session_closed.
Qed.

Lemma deliver_image now_at tr : forall n self cs,
  current_session (detection_manager self) = Some cs ->
  reachable (detection_manager self) ->
  let self' := deliver (image_slot now_at) n tr self in
  reachable (detection_manager self') /\
  match results tr with
  | [] => detection_manager self' = detection_manager self
  | (f, dets) :: _ =>
      current_session (detection_manager self') = None /\
      exists s,
        detection_history (detection_manager self') =
          detection_history (detection_manager self) ++ [s] /\
        mode s = mode cs /\ model s = model cs /\
        map frame_key (s_detections s) =
          map frame_key (s_detections cs) ++ [("image"%string, dets)]
  end.
Proof.
  induction tr as [|ev tr IH]; intros n self cs Hcs Hreach; cbv zeta.
  - simpl. auto.
  - assert (Hskip : results (ev :: tr) = results tr ->
        image_slot now_at n ev self = self ->
        let self' := deliver (image_slot now_at) (S n) tr (image_slot now_at n ev self) in
        reachable (detection_manager self') /\
        match results (ev :: tr) with
        | [] => detection_manager self' = detection_manager self
        | (f, dets) :: _ =>
            current_session (detection_manager self') = None /\
            exists s,
              detection_history (detection_manager self') =
                detection_history (detection_manager self) ++ [s] /\
              mode s = mode cs /\ model s = model cs /\
              map frame_key (s_detections s) =
                map frame_key (s_detections cs) ++ [("image"%string, dets)]
        end).
    { intros -> ->. by apply IH. }
    change (deliver (image_slot now_at) n (ev :: tr) self)
      with (deliver (image_slot now_at) (S n) tr (image_slot now_at n ev self)).
    destruct ev; try (apply Hskip; reflexivity). clear Hskip.
    change (results (YOLOWorker.frame_processed f dets :: tr))
      with ((f, dets) :: results tr).
    cbn [image_slot].
    destruct (add_detection_frames (now_at n 0) "image" dets (detection_manager self) cs Hcs)
      as (Hh & cs1 & Hcs1 & Hf1 & Hmo & Hmd & _).
    destruct (end_session_frames (now_at n 1) _ cs1 Hcs1) as (Hnone & s & Hs & Hfs & Hmos & Hmds).
    assert (Hdm : detection_manager
                    (deliver (image_slot now_at) (S n) tr
                       (on_image_processed (now_at n) f dets self)) =
                  snd (end_session (now_at n 1)
                         (snd (add_detection (now_at n 0) "image" dets
                                 (detection_manager self))))).
    { rewrite deliver_image_closed; [reflexivity|exact Hnone]. }
    rewrite Hdm. split.
    { apply (reach_call _ (EndSession (now_at n 1))).
      exact (reach_call _ (AddDetection (now_at n 0) "image" dets) Hreach). }
    split; [exact Hnone|]. exists s. split; [rewrite Hs, Hh; reflexivity|].
    split; [congruence|]. split; [congruence|].
    rewrite Hfs, Hf1, map_app. reflexivity.
Qed.

Lemma process_image_results w self source :
  length (results (fst (YOLORun._process_image w self source))) <= 1.
Proof.
  unfold YOLORun._process_image, YOLORun.load_if_none, YOLORun._load_model.
  destruct source as [path|]; [|simpl; lia].
  destruct (imread (YOLORun.w_env w) path) as [f|]; [|simpl; lia].
  destruct (YOLORun.model self);
    [|destruct (YOLORun.yolo_load w _); [simpl; lia|]];
    (destruct (infer _ _ f) as [ex|dets]; [simpl; lia|]);
    unfold YOLOWorker.apply_delay;
    destruct (0 <? inference_delay (YOLORun.settings self))%Z; simpl; lia.
Qed.

Lemma run_image_results w self source :
  length (results (fst (YOLORun.run w self (YOLORun.ImageJob source)))) <= 1.
Proof.
  unfold YOLORun.run, YOLORun.load_at_start, YOLORun._load_model.
  destruct (YOLORun.model self) eqn:Hm.
  - pose proof (process_image_results w self source) as H.
    destruct (YOLORun._process_image w self source) as [tr self2]. exact H.
  - destruct (YOLORun.enabled_at w 0).
    + destruct (YOLORun.yolo_load w _); [simpl; lia|].
      match goal with |- context [YOLORun._process_image w ?s source] =>
        pose proof (process_image_results w s source) as H;
        destruct (YOLORun._process_image w s source) as [tr self2] end. exact H.
    + pose proof (process_image_results w self source) as H.
      destruct (YOLORun._process_image w self source) as [tr self2]. exact H.
Qed.

End MainWindowFacts.

Module MainWindowClaims.
Import Runtime DM DMSpec DMFacts HistorySpec HistoryFacts YOLOTrace MainWindow.
Import MainWindowFacts.

(** X18: a folder run seen from the main window ([run_folder_detection],
    the slots of the worker's signals, then [on_batch_finished]) adds
    exactly one session to the history and leaves none open: its mode is
    [folder], it holds one frame per [batch_item_processed] signal, in
    order, under the base name of the file and with the detections of
    the signal, and its counters are the number of these items and of
    their detections. [batch_results] holds the same items. A session
    that was open before is dropped. *)
Theorem X18_folder_run_session now_at model_name tr self :
  reachable (detection_manager self) ->
  let self' := folder_run now_at model_name tr self in
  let its := items tr in
  batch_results self' = its /\
  current_session (detection_manager self') = None /\
  reachable (detection_manager self') /\
  exists s,
    detection_history (detection_manager self') =
      detection_history (detection_manager self) ++ [s] /\
    mode s = "folder"%string /\ model s = model_name /\
    map frame_key (s_detections s) = map item_key its /\
    total_frames (stats s) = length its /\
    total_detections (stats s) = sum_list_with (fun it => length (snd it)) its /\
    closed_consistent s.
Proof.
  intros Hreach self' its. subst self' its. unfold folder_run.
  set (self1 := run_folder_detection (now_at 0) model_name self).
  assert (Hreach1 : reachable (detection_manager self1)).
  { exact (reach_call _ (StartSession (now_at 0 0) (now_at 0 1) "folder" model_name) Hreach). }
  destruct (deliver_folder now_at tr 1 self1 _ eq_refl)
    as (Hb & Hh & Hr & cs' & Hcs' & Hmo & Hmd & Hf).
  set (self2 := deliver (folder_slot now_at) 1 tr self1) in *.
  destruct (end_session_frames (now_at (S (length tr)) 0) _ cs' Hcs')
    as (Hnone & s & Hs & Hfs & Hmos & Hmds).
  assert (Hreach' : reachable (detection_manager (on_batch_finished (now_at (S (length tr))) self2))).
  { exact (reach_call _ (EndSession (now_at (S (length tr)) 0)) (Hr Hreach1)). }
  split; [exact Hb|]. split; [exact Hnone|]. split; [exact Hreach'|].
  exists s. simpl in Hs |- *.
  assert (Hkeys : map frame_key (s_detections s) = map item_key (items tr)).
  { rewrite Hfs, Hf. reflexivity. }
  assert (Hcons : closed_consistent s).
  { pose proof (reachable_history _ Hreach') as Hall. rewrite Forall_forall in Hall.
    apply Hall. simpl. rewrite Hs. set_solver. }
  split; [by rewrite Hs, Hh|]. split; [by rewrite Hmos, Hmo|]. split; [by rewrite Hmds, Hmd|].
  split; [exact Hkeys|].
  pose proof Hcons as (_ & Htf & Htd & _).
  split; [|split; [|exact Hcons]].
  - rewrite Htf, <- (length_map frame_key), Hkeys. by rewrite length_map.
  - rewrite Htd. unfold all_detections.
    assert (Hd : map f_detections (s_detections s) = map snd (items tr)).
    { apply (f_equal (map snd)) in Hkeys. rewrite !map_map in Hkeys. exact Hkeys. }
    rewrite Hd. apply (length_concat_sum snd).
Qed.

Lemma X18_folder_run_session_witness :
  batch_results
    (folder_run (fun _ _ => DMExamples.noon) "yolo11n"
       (YOLOWorker._process_folder Examples.quiet_env Examples.default_params (Some "d")
          Examples.abc_fs)
       new_window) =
  items (YOLOWorker._process_folder Examples.quiet_env Examples.default_params (Some "d")
           Examples.abc_fs).
Proof.
  exact (proj1 (X18_folder_run_session (fun _ _ => DMExamples.noon) "yolo11n"
                  (YOLOWorker._process_folder Examples.quiet_env Examples.default_params
                     (Some "d") Examples.abc_fs)
                  new_window reach_init)).
Defined.

(** X19: an image run seen from the main window ([run_image_detection],
    then the slot of [frame_processed]) publishes at most one result.
    If it publishes one, the history gains one session of mode [image]
    with the single frame ["image"] holding the detections, and no
    session stays open. If it publishes none (no source, an image that
    cannot be read, a model that fails), the history is unchanged and the
    session just started stays open and empty: [end_session] is never
    reached. *)
Theorem X19_image_run_session now_at model_name w worker source self :
  reachable (detection_manager self) ->
  let tr := fst (YOLORun.run w worker (YOLORun.ImageJob source)) in
  let self' := image_run now_at model_name tr self in
  length (results tr) <= 1 /\
  reachable (detection_manager self') /\
  match results tr with
  | [] =>
      detection_history (detection_manager self') =
        detection_history (detection_manager self) /\
      exists cs, current_session (detection_manager self') = Some cs /\
                 mode cs = "image"%string /\ model cs = model_name /\
                 s_detections cs = [] /\ end_time cs = None
  | (f, dets) :: _ =>
      current_session (detection_manager self') = None /\
      exists s,
        detection_history (detection_manager self') =
          detection_history (detection_manager self) ++ [s] /\
        mode s = "image"%string /\ model s = model_name /\
        map frame_key (s_detections s) = [("image"%string, dets)] /\
        closed_consistent s
  end.
Proof.
  intros Hreach tr self'. subst self'. unfold image_run.
  split; [apply run_image_results|].
  set (self1 := run_image_detection (now_at 0) model_name self).
  assert (Hreach1 : reachable (detection_manager self1)).
  { exact (reach_call _ (StartSession (now_at 0 0) (now_at 0 1) "image" model_name) Hreach). }
  destruct (deliver_image now_at tr 1 self1 _ eq_refl Hreach1) as [Hr Hcase].
  split; [exact Hr|].
  destruct (results tr) as [|[f dets] rest].
  - rewrite Hcase. simpl. split; [reflexivity|]. eexists. split; [reflexivity|]. by simpl.
  - destruct Hcase as (Hnone & s & Hs & Hmo & Hmd & Hf).
    split; [exact Hnone|]. exists s. split; [exact Hs|].
    split; [exact Hmo|]. split; [exact Hmd|]. split; [exact Hf|].
    pose proof (reachable_history _ Hr) as Hall. rewrite Forall_forall in Hall.
    apply Hall. rewrite Hs. set_solver.
Qed.

Lemma X19_image_run_session_witness :
  length (results (fst (YOLORun.run RunExamples.preview_world
                          (RunExamples.fresh_worker "yolo11n")
                          (YOLORun.ImageJob (Some "d/a.jpg"))))) <= 1.
Proof.
  exact (proj1 (X19_image_run_session (fun _ _ => DMExamples.noon) "yolo11n"
                  RunExamples.preview_world (RunExamples.fresh_worker "yolo11n")
                  (Some "d/a.jpg")
                  new_window reach_init)).
Defined.

End MainWindowClaims.

Module VideoSessionFacts.
Import Runtime DM DMSpec DMFacts HistorySpec HistoryFacts YOLOTrace MainWindow.
Import MainWindowFacts.

Lemma video_session_closed now_at rand_at inputs : forall n self,
  current_session (detection_manager self) = None ->
  is_running self = false ->
  let self' := video_session now_at rand_at n inputs self in
  detection_manager self' = detection_manager self /\ is_running self' = false.
Proof.
  induction inputs as [|inp inputs IH]; intros n self Hnone Hrun; cbv zeta; [by split|].
  change (video_session now_at rand_at n (inp :: inputs) self)
    with (video_session now_at rand_at (S n) inputs (video_step now_at rand_at n inp self)).
  assert (Hstep : detection_manager (video_step now_at rand_at n inp self)
                    = detection_manager self /\
                  is_running (video_step now_at rand_at n inp self) = false).
  { destruct inp as [ev|]; simpl.
    - destruct ev; simpl; try (by split).
      split; [|exact Hrun]. destruct (rand_at n 0 =? 1); [|reflexivity].
      by rewrite add_detection_closed.
    - split; [|reflexivity]. by rewrite DMClaims.end_session_closed. }
  destruct Hstep as [Hdm Hrun1].
  destruct (IH (S n) (video_step now_at rand_at n inp self)) as [Hdm' Hrun'];
    [by rewrite Hdm|exact Hrun1|].
  split; [by rewrite Hdm', Hdm|exact Hrun'].
Qed.

Lemma video_session_open now_at rand_at inputs : forall n self cs,
  current_session (detection_manager self) = Some cs ->
  Stopped ∈ inputs ->
  let self' := video_session now_at rand_at n inputs self in
  is_running self' = false /\
  current_session (detection_manager self') = None /\
  (reachable (detection_manager self) -> reachable (detection_manager self')) /\
  exists s picked,
    detection_history (detection_manager self') =
      detection_history (detection_manager self) ++ [s] /\
    mode s = mode cs /\ model s = model cs /\
    sublist picked (results (before_stop inputs)) /\
    map f_detections (s_detections s) =
      map f_detections (s_detections cs) ++ map snd picked.
Proof.
  induction inputs as [|inp inputs IH]; intros n self cs Hcs Hin; cbv zeta.
  { by apply elem_of_nil in Hin. }
  change (video_session now_at rand_at n (inp :: inputs) self)
    with (video_session now_at rand_at (S n) inputs (video_step now_at rand_at n inp self)).
  destruct inp as [ev|].
  - assert (Hin' : Stopped ∈ inputs).
    { apply elem_of_cons in Hin as [Hin|Hin]; [discriminate|exact Hin]. }
    change (before_stop (Signal ev :: inputs)) with (ev :: before_stop inputs).
    assert (Hskip : results (ev :: before_stop inputs) = results (before_stop inputs) ->
        video_step now_at rand_at n (Signal ev) self = self ->
        let self' := video_session now_at rand_at (S n) inputs
                       (video_step now_at rand_at n (Signal ev) self) in
        is_running self' = false /\
        current_session (detection_manager self') = None /\
        (reachable (detection_manager self) -> reachable (detection_manager self')) /\
        exists s picked,
          detection_history (detection_manager self') =
            detection_history (detection_manager self) ++ [s] /\
          mode s = mode cs /\ model s = model cs /\
          sublist picked (results (ev :: before_stop inputs)) /\
          map f_detections (s_detections s) =
            map f_detections (s_detections cs) ++ map snd picked).
    { intros -> ->. by apply IH. }
    destruct ev; try (apply Hskip; reflexivity). clear Hskip.
    change (results (YOLOWorker.frame_processed f dets :: before_stop inputs))
      with ((f, dets) :: results (before_stop inputs)).
    cbn [video_step video_slot].
    destruct (rand_at n 0 =? 1) eqn:Hpick.
    + destruct (add_detection_frames (now_at n 0) ("frame_" ++ pretty (rand_at n 1))%string
                  dets (detection_manager self) cs Hcs)
        as (Hh & cs1 & Hcs1 & Hf1 & Hmo & Hmd & _).
      destruct (IH (S n) (on_frame_processed (now_at n) (rand_at n) f dets self) cs1)
        as (Hrun & Hnone & Hr & s & picked & Hs & Hmo' & Hmd' & Hsub & Hf').
      { unfold on_frame_processed. simpl. rewrite Hpick. exact Hcs1. }
      { exact Hin'. }
      split; [exact Hrun|]. split; [exact Hnone|].
      split.
      { intros Hreach. apply Hr. unfold on_frame_processed. simpl. rewrite Hpick.
        exact (reach_call _ (AddDetection (now_at n 0)
                               ("frame_" ++ pretty (rand_at n 1))%string dets) Hreach). }
      exists s, ((f, dets) :: picked).
      split.
      { rewrite Hs. unfold on_frame_processed. simpl. rewrite Hpick. by rewrite Hh. }
      split; [congruence|]. split; [congruence|].
      split; [by constructor|].
      rewrite Hf', Hf1, map_app. simpl. by rewrite <- app_assoc.
    + destruct (IH (S n) (on_frame_processed (now_at n) (rand_at n) f dets self) cs)
        as (Hrun & Hnone & Hr & s & picked & Hs & Hmo' & Hmd' & Hsub & Hf').
      { unfold on_frame_processed. simpl. rewrite Hpick. exact Hcs. }
      { exact Hin'. }
      split; [exact Hrun|]. split; [exact Hnone|].
      split.
      { intros Hreach. apply Hr. unfold on_frame_processed. simpl. by rewrite Hpick. }
      exists s, picked.
      split.
      { rewrite Hs. unfold on_frame_processed. simpl. by rewrite Hpick. }
      split; [exact Hmo'|]. split; [exact Hmd'|].
      split; [by constructor|exact Hf'].
  - cbn [video_step before_stop].
    destruct (end_session_frames (now_at n 0) _ cs Hcs) as (Hnone & s & Hs & Hfs & Hmos & Hmds).
    destruct (video_session_closed now_at rand_at inputs (S n)
                (stop_video_detection (now_at n) self) Hnone eq_refl) as [Hdm Hrun].
    rewrite Hdm. split; [exact Hrun|]. split; [exact Hnone|].
    split; [exact (reach_call _ (EndSession (now_at n 0)))|].
    exists s, []. split; [exact Hs|]. split; [exact Hmos|]. split; [exact Hmds|].
    split; [constructor|]. simpl. rewrite app_nil_r. by rewrite Hfs.
Qed.

Section Camera.
Variables (now_at : nat -> nat -> datetime) (rand_at : nat -> nat -> nat).
Variable model_name : string.

Lemma frame_keeps now rand f dets self :
  let self' := on_frame_processed now rand f dets self in
  is_running self' = is_running self /\
  session_open (detection_manager self') = session_open (detection_manager self) /\
  detection_history (detection_manager self') = detection_history (detection_manager self) /\
  (reachable (detection_manager self) -> reachable (detection_manager self')).
Proof.
  cbv zeta. unfold on_frame_processed, session_open. simpl.
  destruct (rand 0 =? 1); [|by repeat split].
  split; [reflexivity|].
  destruct (current_session (detection_manager self)) as [cs|] eqn:Hcs.
  - destruct (add_detection_frames (now 0) ("frame_" ++ pretty (rand 1))%string dets _ cs Hcs)
      as (Hh & cs1 & -> & _).
    split; [reflexivity|]. split; [exact Hh|].
    exact (reach_call _ (AddDetection (now 0) ("frame_" ++ pretty (rand 1))%string dets)).
  - rewrite add_detection_closed by exact Hcs. rewrite Hcs. by repeat split.
Qed.

Lemma toggle_effect now self :
  is_running self = session_open (detection_manager self) ->
  let self' := toggle_camera now model_name self in
  is_running self' = negb (is_running self) /\
  session_open (detection_manager self') = is_running self' /\
  (reachable (detection_manager self) -> reachable (detection_manager self')) /\
  (if is_running self
   then exists s, detection_history (detection_manager self') =
                    detection_history (detection_manager self) ++ [s]
   else detection_history (detection_manager self') =
          detection_history (detection_manager self)).
Proof.
  intros Hinv. cbv zeta. unfold toggle_camera, session_open in *. simpl.
  destruct (is_running self); simpl.
  - destruct (current_session (detection_manager self)) as [cs|] eqn:Hcs; [|discriminate].
    destruct (end_session_frames (now 0) _ cs Hcs) as (-> & s & Hs & _).
    split; [reflexivity|]. split; [reflexivity|].
    split; [exact (reach_call _ (EndSession (now 0)))|]. by exists s.
  - split; [reflexivity|]. split; [reflexivity|].
    split; [exact (reach_call _ (StartSession (now 0) (now 1) "camera" model_name))|].
    reflexivity.
Qed.

Lemma half_step (b : bool) (t : nat) :
  (if b then 1 else 0) + (t + Nat.b2n (negb b)) / 2 = (S t + Nat.b2n b) / 2.
Proof.
  destruct b; cbn [Nat.b2n negb].
  - replace (S t + 1) with (t + 1 * 2) by lia.
    rewrite (Nat.div_add t 1 2) by lia. rewrite Nat.add_0_r. lia.
  - replace (S t + 0) with (t + 1) by lia. reflexivity.
Qed.

Lemma camera_session_inv inputs : forall n self,
  is_running self = session_open (detection_manager self) ->
  let self' := camera_session now_at rand_at model_name n inputs self in
  is_running self' = xorb (is_running self) (Nat.odd (toggles inputs)) /\
  session_open (detection_manager self') = is_running self' /\
  length (detection_history (detection_manager self')) =
    length (detection_history (detection_manager self))
    + (toggles inputs + Nat.b2n (is_running self)) / 2 /\
  detection_history (detection_manager self) `prefix_of`
    detection_history (detection_manager self') /\
  (reachable (detection_manager self) -> reachable (detection_manager self')).
Proof.
  induction inputs as [|inp inputs IH]; intros n self Hinv; cbv zeta.
  - simpl. rewrite xorb_false_r. repeat split; auto.
    destruct (is_running self); simpl; lia.
  - change (camera_session now_at rand_at model_name n (inp :: inputs) self)
      with (camera_session now_at rand_at model_name (S n) inputs
              (camera_step now_at rand_at model_name n inp self)).
    destruct inp as [|f dets].
    + change (toggles (Toggle :: inputs)) with (S (toggles inputs)).
      cbn [camera_step].
      destruct (toggle_effect (now_at n) self Hinv) as (Hrun & Hopen & Hreach & Hhist).
      destruct (IH (S n) (toggle_camera (now_at n) model_name self))
        as (Hrun' & Hopen' & Hlen' & Hpre' & Hreach'); [by rewrite Hopen|].
      rewrite Hrun in Hrun', Hlen'.
      split; [rewrite Hrun', Nat.odd_succ, <- Nat.negb_odd;
              by destruct (is_running self), (Nat.odd (toggles inputs))|].
      split; [exact Hopen'|].
      split.
      { rewrite Hlen', <- half_step.
        destruct (is_running self).
        - destruct Hhist as [s ->]. rewrite length_app. simpl. lia.
        - rewrite Hhist. lia. }
      split.
      { etransitivity; [|exact Hpre'].
        destruct (is_running self); [destruct Hhist as [s ->]; by apply prefix_app_r
                                    |by rewrite Hhist]. }
      auto.
    + change (toggles (Frame f dets :: inputs)) with (toggles inputs).
      cbn [camera_step].
      destruct (frame_keeps (now_at n) (rand_at n) f dets self) as (Hrun & Hopen & Hh & Hreach).
      destruct (IH (S n) (on_frame_processed (now_at n) (rand_at n) f dets self))
        as (Hrun' & Hopen' & Hlen' & Hpre' & Hreach'); [by rewrite Hrun, Hopen|].
      rewrite Hrun in Hrun', Hlen'. rewrite Hh in Hlen', Hpre'.
      repeat split; auto.
Qed.

End Camera.

End VideoSessionFacts.

Module VideoSessionClaims.
Import Runtime DM DMSpec DMFacts HistorySpec HistoryFacts YOLOTrace MainWindow.
Import MainWindowFacts VideoSessionFacts.

(** X20: a video run seen from the main window: after
    [run_video_detection], whatever the order in which the signals of the
    worker and the calls of [stop_video_detection] (the STOP button, the
    slot of the thread's [finished]) arrive, once
    [stop_video_detection] ran at least once the history holds exactly
    one more session, of mode [video] and of the model chosen, none is
    open and [is_running] is unset; a second call adds nothing. The
    frames of the session are some of the results received before the
    first call, in their order: those for which [random.randint(1, 30)]
    gave 1; a frame that arrives later is not recorded. *)
Theorem X20_video_run_session now_at rand_at model_name inputs self :
  reachable (detection_manager self) ->
  Stopped ∈ inputs ->
  let self' := video_run now_at rand_at model_name inputs self in
  is_running self' = false /\
  current_session (detection_manager self') = None /\
  reachable (detection_manager self') /\
  exists s picked,
    detection_history (detection_manager self') =
      detection_history (detection_manager self) ++ [s] /\
    mode s = "video"%string /\ model s = model_name /\
    sublist picked (results (before_stop inputs)) /\
    map f_detections (s_detections s) = map snd picked /\
    closed_consistent s.
Proof.
  intros Hreach Hin self'. subst self'. unfold video_run.
  set (self1 := run_video_detection (now_at 0) model_name self).
  assert (Hreach1 : reachable (detection_manager self1)).
  { exact (reach_call _ (StartSession (now_at 0 0) (now_at 0 1) "video" model_name) Hreach). }
  destruct (video_session_open now_at rand_at inputs 1 self1 _ eq_refl Hin)
    as (Hrun & Hnone & Hr & s & picked & Hs & Hmo & Hmd & Hsub & Hf).
  split; [exact Hrun|]. split; [exact Hnone|]. split; [exact (Hr Hreach1)|].
  exists s, picked.
  split; [exact Hs|]. split; [exact Hmo|]. split; [exact Hmd|].
  split; [exact Hsub|]. split; [exact Hf|].
  pose proof (reachable_history _ (Hr Hreach1)) as Hall. rewrite Forall_forall in Hall.
  apply Hall. rewrite Hs. set_solver.
Qed.

Lemma X20_video_run_session_witness :
  current_session
    (detection_manager
       (video_run (fun _ _ => DMExamples.noon) (fun _ _ => 1) "yolo11n"
          [Signal (YOLOWorker.frame_processed Examples.blank []); Stopped;
           Signal (YOLOWorker.frame_processed Examples.blank []); Stopped]
          new_window)) = None.
Proof.
  destruct (X20_video_run_session (fun _ _ => DMExamples.noon) (fun _ _ => 1) "yolo11n"
              [Signal (YOLOWorker.frame_processed Examples.blank []); Stopped;
               Signal (YOLOWorker.frame_processed Examples.blank []); Stopped]
              new_window reach_init)
    as (_ & Hnone & _); [set_solver|exact Hnone].
Defined.

(** X21: during a camera preview, whatever the order of the clicks on
    the detection button and of the frames received, a session is open
    exactly while [is_running] is set; each click that stops the
    detection appends one session to the history and nothing else changes
    it: after [t] clicks, starting from a stopped detection, [t / 2]
    sessions were appended and the detection runs exactly when [t] is
    odd. *)
Theorem X21_camera_toggle_sessions now_at rand_at model_name inputs self :
  is_running self = false ->
  current_session (detection_manager self) = None ->
  let self' := camera_session now_at rand_at model_name 0 inputs self in
  is_running self' = Nat.odd (toggles inputs) /\
  session_open (detection_manager self') = is_running self' /\
  length (detection_history (detection_manager self')) =
    length (detection_history (detection_manager self)) + toggles inputs / 2 /\
  detection_history (detection_manager self) `prefix_of`
    detection_history (detection_manager self') /\
  (reachable (detection_manager self) -> reachable (detection_manager self')).
Proof.
  intros Hrun Hnone self'. subst self'.
  destruct (camera_session_inv now_at rand_at model_name inputs 0 self)
    as (Hrun' & Hopen & Hlen & Hpre & Hreach).
  { unfold session_open. by rewrite Hrun, Hnone. }
  rewrite Hrun in Hrun', Hlen. simpl in Hrun', Hlen. rewrite Nat.add_0_r in Hlen.
  repeat split; auto.
Qed.

Lemma X21_camera_toggle_sessions_witness :
  is_running
    (camera_session (fun _ _ => DMExamples.noon) (fun _ _ => 1) "yolo11n" 0
       [Toggle; Frame Examples.blank []; Toggle; Toggle] new_window) = true.
Proof.
  exact (proj1 (X21_camera_toggle_sessions (fun _ _ => DMExamples.noon) (fun _ _ => 1)
                  "yolo11n" [Toggle; Frame Examples.blank []; Toggle; Toggle] new_window
                  eq_refl eq_refl)).
Defined.

End VideoSessionClaims.
